(** * Search front end of the vector-search demo: a model of [static/js/script.js]

    The class [SearchApp] is embedded function by function.  JavaScript
    strings are sequences of UTF-16 code units, so a string is a list of
    code units ([N]); lengths and indices count code units exactly as
    [String.prototype.length], [substring] and [lastIndexOf] do. *)

From Stdlib Require Import List NArith ZArith QArith Qround Qpower Bool Lia Ascii
  String.
Import ListNotations.

Set Implicit Arguments.

(** ** JavaScript strings *)

Module Js.

Definition jsstring := list N.

(** An ASCII literal of the source, as code units. *)
Definition lit (s : string) : jsstring :=
  map N_of_ascii (list_ascii_of_string s).

(** The double quote, which a literal of this file cannot hold. *)
Definition dq : jsstring := [34%N].

(** A template fragment of the source: written with an apostrophe wherever
    the source has a double quote (the templates of the source contain no
    apostrophe of their own). *)
Definition tpl (s : string) : jsstring :=
  map (fun c => if N.eqb c 39 then 34%N else c) (lit s).

(** A line break of a template literal followed by its indentation. *)
Definition nl (indent : nat) : jsstring := 10%N :: repeat 32%N indent.

Definition amp : N := 38.
Definition lt : N := 60.
Definition gt : N := 62.
Definition quot : N := 34.
Definition apos : N := 39.
Definition newline : N := 10.
Definition space : N := 32.
Definition nbsp : N := 160.

(** [s.length] *)
Definition len (s : jsstring) : Z := Z.of_nat (List.length s).

(** A string is truthy when it is not empty. *)
Definition truthy (s : jsstring) : bool :=
  match s with [] => false | _ :: _ => true end.

Fixpoint eqb (a b : jsstring) : bool :=
  match a, b with
  | [], [] => true
  | x :: a', y :: b' => N.eqb x y && eqb a' b'
  | _, _ => false
  end.

(** [s.replace(/c/g, r)] for a one-character pattern. *)
Definition replace_char (c : N) (r : jsstring) (s : jsstring) : jsstring :=
  flat_map (fun x => if N.eqb x c then r else [x]) s.

(** [s.startsWith(p)] *)
Fixpoint starts_with (p s : jsstring) : bool :=
  match p, s with
  | [], _ => true
  | x :: p', y :: s' => N.eqb x y && starts_with p' s'
  | _ :: _, [] => false
  end.

(** [s.includes(p)] *)
Fixpoint includes (p s : jsstring) : bool :=
  starts_with p s ||
  match s with
  | [] => false
  | _ :: s' => includes p s'
  end.

(** [s.substring(0, n)]: a negative end counts as 0, one beyond the length
    as the length. *)
Definition substring0 (s : jsstring) (n : Z) : jsstring :=
  firstn (Z.to_nat n) s.

(** [s.lastIndexOf(c)] for a one-character needle: the greatest index
    holding [c], or -1. *)
Fixpoint lastIndexOf_from (c : N) (s : jsstring) (i acc : Z) : Z :=
  match s with
  | [] => acc
  | x :: r => lastIndexOf_from c r (i + 1) (if N.eqb x c then i else acc)
  end.

Definition lastIndexOf (c : N) (s : jsstring) : Z :=
  lastIndexOf_from c s 0 (-1).

(** White space and line terminators of ECMAScript, the characters
    [String.prototype.trim] strips. *)
Definition is_space (c : N) : bool :=
  (N.eqb c 9 || N.eqb c 10 || N.eqb c 11 || N.eqb c 12 || N.eqb c 13
   || N.eqb c 32 || N.eqb c 160 || N.eqb c 5760
   || (N.leb 8192 c && N.leb c 8202)
   || N.eqb c 8232 || N.eqb c 8233 || N.eqb c 8239 || N.eqb c 8287
   || N.eqb c 12288 || N.eqb c 65279)%bool.

Fixpoint trimStart (s : jsstring) : jsstring :=
  match s with
  | [] => []
  | c :: r => if is_space c then trimStart r else s
  end.

Definition trimEnd (s : jsstring) : jsstring := rev (trimStart (rev s)).

(** [s.trim()] *)
Definition trim (s : jsstring) : jsstring := trimEnd (trimStart s).

(** [s.split(sep)] for a non-empty separator: the pieces between the
    occurrences of [sep] found from left to right, an occurrence starting
    only after the previous one has ended.  [skip] counts the characters of
    a matched separator that are still to be passed over, [cur] is the piece
    being read, youngest character first. *)
Fixpoint split_go (sep s : jsstring) (skip : nat) (cur : jsstring)
  : list jsstring :=
  match s with
  | [] => [rev cur]
  | c :: r =>
      match skip with
      | S k => split_go sep r k cur
      | O =>
          if starts_with sep s
          then rev cur :: split_go sep r (List.length sep - 1) []
          else split_go sep r 0 (c :: cur)
      end
  end.

Definition split (sep s : jsstring) : list jsstring := split_go sep s 0 [].

(** [parts.join(sep)] *)
Fixpoint join (sep : jsstring) (parts : list jsstring) : jsstring :=
  match parts with
  | [] => []
  | [p] => p
  | p :: rest => p ++ sep ++ join sep rest
  end.

(** [s.replace(/\n\n+/g, r)]: every maximal run of two or more line feeds
    becomes one [r]; a single line feed stays.  [pending] is the length of
    the run of line feeds read so far. *)
Definition flush_run (r : jsstring) (pending : nat) : jsstring :=
  match pending with
  | O => []
  | S O => [newline]
  | S (S _) => r
  end.

Fixpoint replace_runs_go (r s : jsstring) (pending : nat) : jsstring :=
  match s with
  | [] => flush_run r pending
  | c :: rest =>
      if N.eqb c newline
      then replace_runs_go r rest (S pending)
      else flush_run r pending ++ c :: replace_runs_go r rest 0
  end.

Definition replace_newline_runs (r s : jsstring) : jsstring :=
  replace_runs_go r s 0.

(** The conversion of a string handed to a Web API that takes a
    [USVString]: every surrogate code unit that is not part of a surrogate
    pair (a lead unit followed by a trail unit) becomes U+FFFD. *)
Definition is_lead (c : N) : bool := N.leb 55296 c && N.leb c 56319.
Definition is_trail (c : N) : bool := N.leb 56320 c && N.leb c 57343.
Definition replacement : N := 65533.

Fixpoint to_usv (s : jsstring) : jsstring :=
  match s with
  | [] => []
  | c :: r =>
      if is_lead c then
        match r with
        | d :: r' =>
            if is_trail d then c :: d :: to_usv r'
            else replacement :: to_usv r
        | [] => [replacement]
        end
      else if is_trail c then replacement :: to_usv r
      else c :: to_usv r
  end.

(** [s.isWellFormed()]: no surrogate code unit outside a surrogate pair. *)
Fixpoint isWellFormed (s : jsstring) : bool :=
  match s with
  | [] => true
  | c :: r =>
      if is_lead c then
        match r with
        | d :: r' => is_trail d && isWellFormed r'
        | [] => false
        end
      else negb (is_trail c) && isWellFormed r
  end.

(** The value sanitisation of a single-line text field: line feeds and
    carriage returns are dropped. *)
Definition strip_newlines (s : jsstring) : jsstring :=
  filter (fun c => negb (N.eqb c 10 || N.eqb c 13)) s.

End Js.

(** ** Numbers and their formatting

    A score is a finite IEEE double; it is modelled by its exact value, a
    rational.  [Number.prototype.toFixed] and [toExponential] are defined
    on that exact value, as ECMAScript defines them ("let n be an integer
    for which n / 10^f - x is as close to zero as possible; if there are
    two such n, pick the larger"). *)

Module Number.
Import Js.

(** What the script leaves to the host.  [toFixed] hands a value of at
    least 10^21 to [Number::toString], whose shortest round-trip digits
    depend on the binary representation.  The formatting functions take
    the host as a parameter; [ecmascript] below is the host of the
    standard. *)
Class Host := { numberToString : Q -> jsstring }.

Definition digit (d : Z) : N := Z.to_N (48 + d).

(** The decimal digits of a natural number, most significant first. *)
Fixpoint digits_go (fuel : nat) (n : Z) (acc : jsstring) : jsstring :=
  match fuel with
  | O => acc
  | S f =>
      let acc' := digit (n mod 10) :: acc in
      if (n <? 10)%Z then acc' else digits_go f (n / 10) acc'
  end.

Definition digits (n : Z) : jsstring :=
  digits_go (S (Z.to_nat (Z.log2 n))) n [].

(** The integer nearest to [x], the larger one of two. *)
Definition round_half_up (x : Q) : Z := Qfloor (x + (1 # 2)).

Definition pow10 (e : Z) : Q := Qpower 10 e.

(** [x.toFixed(f)], for [x >= 0] first. *)
Definition toFixed_nonneg `{Host} (f : nat) (x : Q) : jsstring :=
  if Qle_bool (pow10 21) x then numberToString x
  else
    let n := round_half_up (x * pow10 (Z.of_nat f)) in
    let m := digits n in
    match f with
    | O => m
    | S _ =>
        let k := List.length m in
        let m' := if (k <=? f)%nat then repeat (digit 0) (f + 1 - k) ++ m else m in
        let k' := List.length m' in
        firstn (k' - f) m' ++ lit "." ++ skipn (k' - f) m'
    end.

Definition toFixed `{Host} (f : nat) (x : Q) : jsstring :=
  if Qlt_le_dec x 0 then lit "-" ++ toFixed_nonneg f (- x)
  else toFixed_nonneg f x.

(** The integer [e] with [10^e <= x < 10^(e+1)], for [x > 0]. *)
Fixpoint floor_log10_ge1 (fuel : nat) (x : Q) : Z :=
  match fuel with
  | O => 0
  | S f => if Qle_bool 10 x then (1 + floor_log10_ge1 f (Qred (x / 10)))%Z else 0%Z
  end.

Fixpoint floor_log10_lt1 (fuel : nat) (x : Q) : Z :=
  match fuel with
  | O => (-1)
  | S f =>
      if Qle_bool 1 (x * 10) then (-1)%Z
      else (floor_log10_lt1 f (Qred (x * 10)) - 1)%Z
  end.

Definition floor_log10 (x : Q) : Z :=
  let fuel := S (Z.to_nat (Z.log2 (Qnum x) + Z.log2 (Zpos (Qden x)))) in
  if Qle_bool 1 x then floor_log10_ge1 fuel x else floor_log10_lt1 fuel x.

(** The pair [(e, n)] of [toExponential]: [10^f <= n < 10^(f+1)] with
    [n * 10^(e-f)] nearest to [x], the larger value of two. *)
Definition exp_and_digits (f : nat) (x : Q) : Z * Z :=
  let e := floor_log10 x in
  let n := round_half_up (x * pow10 (Z.of_nat f - e)) in
  if (n =? 10 ^ (Z.of_nat f + 1))%Z then ((e + 1)%Z, (10 ^ Z.of_nat f)%Z)
  else (e, n).

Definition toExponential_nonneg (f : nat) (x : Q) : jsstring :=
  let '(e, m) :=
    if Qeq_bool x 0 then (0%Z, repeat (digit 0) (f + 1))
    else let '(e, n) := exp_and_digits f x in (e, digits n) in
  let m' :=
    match f with
    | O => m
    | S _ => firstn 1 m ++ lit "." ++ skipn 1 m
    end in
  let '(c, d) :=
    if (e =? 0)%Z then (lit "+", lit "0")
    else ((if (0 <? e)%Z then lit "+" else lit "-"), digits (Z.abs e)) in
  m' ++ lit "e" ++ c ++ d.

Definition toExponential (f : nat) (x : Q) : jsstring :=
  if Qlt_le_dec x 0 then lit "-" ++ toExponential_nonneg f (- x)
  else toExponential_nonneg f x.

(** *** [Number::toString] from 10^21 on

    For a double [x] of at least 10^21, the only values [toFixed] hands to
    it: with [k] as small as possible, integers [n] and [s] with
    [10^(k-1) <= s < 10^k] such that [s * 10^(n-k)] converts to the double
    [x]; of several [s] the one with [s * 10^(n-k)] nearest to [x], the
    even one of two.  The string is the first digit of [s], a point and the
    other digits when there are any, and [e+] with [n - 1]. *)








(** The literal [0.001] of the source is the double nearest to it. *)
Definition lit_0_001 : Q := 1152921504606847 # 1152921504606846976.

End Number.

(** ** Markup Formatter, Source Link Resolver and Breadcrumb Builder *)

Module Markup.
Import Js Number.

(** The arrow function [escapeHtml] local to [formatSummary] and to
    [formatText] (the two copies are the same): five global replacements,
    the ampersand first. *)
Definition escapeHtml_local (unsafe : jsstring) : jsstring :=
  replace_char apos (lit "&#039;")
    (replace_char quot (lit "&quot;")
      (replace_char gt (lit "&gt;")
        (replace_char lt (lit "&lt;")
          (replace_char amp (lit "&amp;") unsafe)))).

(** [formatSummary(summary)] *)
Definition formatSummary (summary : jsstring) : jsstring :=
  let escapedText := escapeHtml_local summary in
  let paragraphs :=
    filter (fun p => truthy (trim p)) (split [newline; newline] escapedText) in
  let formattedParagraphs :=
    map (fun p =>
           let formattedP := replace_char newline (lit "<br>") (trim p) in
           lit "<p>" ++ formattedP ++ lit "</p>") paragraphs in
  join [] formattedParagraphs.

(** [formatText(text)] *)
Definition formatText (text : jsstring) : jsstring :=
  let escapedText := escapeHtml_local text in
  let formattedText :=
    replace_char newline (lit "<br>")
      (replace_newline_runs (lit "</p><p>") escapedText) in
  if includes (lit "</p><p>") formattedText
  then lit "<p>" ++ formattedText ++ lit "</p>"
  else formattedText.

(** [lastSpaceIndex > maxLength * 0.8].  The product is a double; 0.8 as a
    double lies just above 4/5, so for an integer [maxLength] the rounded
    product is never below the exact 4/5 of it and stays below the next
    integer: an integer index exceeds it exactly when it exceeds the exact
    value (300 * 0.8 is 240). *)
Definition beyond_80_percent (index maxLength : Z) : bool :=
  (4 * maxLength <? 5 * index)%Z.

(** [truncateText(text, maxLength)] *)
Definition truncateText (text : jsstring) (maxLength : Z) : jsstring :=
  if (len text <=? maxLength)%Z then text
  else
    let truncated := substring0 text maxLength in
    let lastSpaceIndex := lastIndexOf space truncated in
    if beyond_80_percent lastSpaceIndex maxLength
    then substring0 truncated lastSpaceIndex ++ lit "..."
    else truncated ++ lit "...".

(** [formatScore(score)] *)
Definition formatScore `{Host} (score : Q) : jsstring :=
  if Qlt_le_dec score lit_0_001 then toExponential 2 score
  else if Qlt_le_dec score 1 then toFixed 3 score
  else toFixed 2 score.

(** The method [escapeHtml(text)]: the text becomes the only text node of a
    fresh [div] and is read back through [innerHTML].  The HTML fragment
    serialisation escapes a text node by replacing the ampersand, the
    no-break space, and the two angle brackets; quotes are escaped in
    attribute values only. *)
Definition serialize_text_char (c : N) : jsstring :=
  if N.eqb c amp then lit "&amp;"
  else if N.eqb c nbsp then lit "&nbsp;"
  else if N.eqb c lt then lit "&lt;"
  else if N.eqb c gt then lit "&gt;"
  else [c].

Definition escapeHtml (text : jsstring) : jsstring :=
  flat_map serialize_text_char text.

(** Result metadata; every field may be missing. *)
Record ResultMetadata := {
  h1 : option jsstring;
  h2 : option jsstring;
  h3 : option jsstring;
  source_path : option jsstring
}.

(** The value of an optional field when it is truthy: present and not the
    empty string. *)
Definition truthy_field (f : option jsstring) : option jsstring :=
  match f with
  | Some s => if truthy s then Some s else None
  | None => None
  end.

(** Russian texts of the source, by code point. *)
Definition text_open_source : jsstring :=   (* Открыть источник *)
  [1054; 1090; 1082; 1088; 1099; 1090; 1100; 32; 1080; 1089; 1090; 1086;
   1095; 1085; 1080; 1082]%N.

Definition text_score_title : jsstring :=
  (* Оценка релевантности (чем меньше, тем лучше) *)
  [1054; 1094; 1077; 1085; 1082; 1072; 32; 1088; 1077; 1083; 1077; 1074;
   1072; 1085; 1090; 1085; 1086; 1089; 1090; 1080; 32; 40; 1095; 1077; 1084;
   32; 1084; 1077; 1085; 1100; 1096; 1077; 44; 32; 1090; 1077; 1084; 32;
   1083; 1091; 1095; 1096; 1077; 41]%N.

(** [generateSourceLink(metadata)]; [None] is [null]. *)
Definition generateSourceLink (metadata : option ResultMetadata)
  : option jsstring :=
  match metadata with
  | None => None
  | Some md =>
      match truthy_field (source_path md) with
      | None => None
      | Some source => Some (lit "https://yandex.ru/support/market/ru/" ++ source)
      end
  end.

(** [array.map((part, index) => ...)] *)
Fixpoint mapi_from {A B} (f : A -> nat -> B) (i : nat) (l : list A) : list B :=
  match l with
  | [] => []
  | x :: r => f x i :: mapi_from f (S i) r
  end.

Definition mapi {A B} (f : A -> nat -> B) (l : list A) : list B :=
  mapi_from f 0 l.

(** The headings pushed onto [breadcrumbParts], in the order h1, h2, h3. *)
Definition breadcrumbParts (md : ResultMetadata) : list jsstring :=
  (match truthy_field (h1 md) with Some s => [s] | None => [] end)
  ++ (match truthy_field (h2 md) with Some s => [s] | None => [] end)
  ++ (match truthy_field (h3 md) with Some s => [s] | None => [] end).

Definition breadcrumb_separator : jsstring :=
  tpl "<i class='fas fa-chevron-right breadcrumb-separator'></i>".

(** The standalone link returned when there is no heading. *)
Definition source_link_main (sourceLink : jsstring) : jsstring :=
  nl 16 ++ tpl "<a href='" ++ sourceLink
  ++ tpl "' target='_blank' class='source-link-main' title='"
  ++ text_open_source ++ tpl "'>"
  ++ nl 20 ++ tpl "<i class='fas fa-external-link-alt'></i>"
  ++ nl 20 ++ text_open_source
  ++ nl 16 ++ lit "</a>"
  ++ nl 12.

(** [`breadcrumb-item breadcrumb-h${index + 1}`] *)
Definition className (index : nat) : jsstring :=
  lit "breadcrumb-item breadcrumb-h" ++ digits (Z.of_nat index + 1).

(** The template of a segment that is a link. *)
Definition breadcrumb_link (sourceLink : jsstring) (index : nat)
    (part : jsstring) : jsstring :=
  tpl "<a href='" ++ sourceLink ++ tpl "' target='_blank' class='"
  ++ className index
  ++ tpl " breadcrumb-link' title='" ++ text_open_source ++ tpl "'>"
  ++ nl 24 ++ escapeHtml part
  ++ nl 24 ++ tpl "<i class='fas fa-external-link-alt'></i>"
  ++ nl 20 ++ lit "</a>".

(** The template of a segment that is plain text. *)
Definition breadcrumb_span (index : nat) (part : jsstring) : jsstring :=
  tpl "<span class='" ++ className index ++ tpl "'>" ++ escapeHtml part
  ++ lit "</span>".

(** The callback of [breadcrumbParts.map]. *)
Definition breadcrumb_item (sourceLink : option jsstring) (count : nat)
    (part : jsstring) (index : nat) : jsstring :=
  let isLast := Nat.eqb index (count - 1) in
  match truthy_field sourceLink, isLast with
  | Some link, true => breadcrumb_link link index part
  | _, _ => breadcrumb_span index part
  end.

(** [generateBreadcrumbs(metadata, sourceLink)]; [None] is [null]. *)
Definition generateBreadcrumbs (metadata : option ResultMetadata)
    (sourceLink : option jsstring) : option jsstring :=
  match metadata with
  | None => None
  | Some md =>
      let parts := breadcrumbParts md in
      match parts with
      | [] =>
          match truthy_field sourceLink with
          | Some link => Some (source_link_main link)
          | None => None
          end
      | _ :: _ =>
          Some (join breadcrumb_separator
                  (mapi (breadcrumb_item sourceLink (List.length parts)) parts))
      end
  end.

(** A search result; [score] is [None] when the property is missing
    ([undefined]). *)
Record SearchResult := {
  content : jsstring;
  score : option Q;
  metadata : option ResultMetadata
}.

(** The inner template of [createResultElement] that holds the
    breadcrumbs; nothing is written for [null] or the empty string. *)
Definition breadcrumbs_block (breadcrumbs : option jsstring) : jsstring :=
  match truthy_field breadcrumbs with
  | Some b =>
      nl 20 ++ tpl "<div class='result-breadcrumbs'>"
      ++ nl 24 ++ b
      ++ nl 20 ++ lit "</div>"
      ++ nl 16
  | None => []
  end.

(** The inner template that holds the score badge; nothing is written
    when [result.score] is [undefined]. *)
Definition score_block `{Host} (score : option Q) : jsstring :=
  match score with
  | Some s =>
      nl 20 ++ tpl "<div class='result-score' title='" ++ text_score_title
      ++ tpl "'>"
      ++ nl 24 ++ tpl "<i class='fas fa-chart-line'></i>"
      ++ nl 24 ++ tpl "<span class='score-value'>" ++ formatScore s
      ++ lit "</span>"
      ++ nl 20 ++ lit "</div>"
      ++ nl 16
  | None => []
  end.

(** The markup assigned to [resultDiv.innerHTML] by [createResultElement].
    The entrance animation, a timer on the element's style, is not part of
    the markup and is left out. *)
Definition createResultElement `{Host} (result : SearchResult) (number : nat)
  : jsstring :=
  let sourceLink := generateSourceLink (metadata result) in
  let breadcrumbs := generateBreadcrumbs (metadata result) sourceLink in
  nl 12 ++ tpl "<div class='result-top'>"
  ++ nl 16 ++ breadcrumbs_block breadcrumbs
  ++ nl 16 ++ score_block (score result)
  ++ nl 12 ++ lit "</div>"
  ++ nl 12 ++ tpl "<div class='result-content'>"
  ++ nl 16 ++ formatText (truncateText (content result) 300)
  ++ nl 12 ++ lit "</div>"
  ++ nl 8.

End Markup.

(** ** URL State Synchronizer: the page URL and the session history *)

Module Url.
Import Js.

(** A parsed URL.  [searchParams] is the list of name-value pairs of the
    query, in order, duplicates included, as [URLSearchParams] holds it. *)
Record URL := {
  origin : jsstring;
  pathname : jsstring;
  searchParams : list (jsstring * jsstring);
  hash : jsstring
}.

Definition with_searchParams (u : URL) (ps : list (jsstring * jsstring)) : URL :=
  {| origin := origin u; pathname := pathname u; searchParams := ps;
     hash := hash u |}.

Definition named (name : jsstring) (p : jsstring * jsstring) : bool :=
  Js.eqb (fst p) name.

(** [params.get(name)]: the value of the first pair of that name. *)
Fixpoint params_get (name : jsstring) (ps : list (jsstring * jsstring))
  : option jsstring :=
  match ps with
  | [] => None
  | p :: r => if named name p then Some (snd p) else params_get name r
  end.

(** [params.delete(name)]: every pair of that name is removed. *)
Definition params_delete (name : jsstring) (ps : list (jsstring * jsstring))
  : list (jsstring * jsstring) :=
  filter (fun p => negb (named name p)) ps.

(** The list algorithm of [set]: the first pair of that name takes the
    value and the other pairs of that name are removed; without such a
    pair, a new one is appended. *)
Fixpoint set_pair (name value : jsstring) (ps : list (jsstring * jsstring))
  : list (jsstring * jsstring) :=
  match ps with
  | [] => [(name, value)]
  | p :: r =>
      if named name p then (fst p, value) :: params_delete name r
      else p :: set_pair name value r
  end.

(** [params.set(name, value)].  Both arguments are [USVString]s: the value
    is converted before it is stored, so a lone surrogate of the script's
    string reaches the URL as U+FFFD.  The name is converted likewise; the
    script passes the literal ['q'] only, which the conversion leaves as it
    is, as it does in [get] and [delete]. *)
Definition params_set (name value : jsstring) (ps : list (jsstring * jsstring))
  : list (jsstring * jsstring) :=
  set_pair name (to_usv value) ps.

(** An entry of the session history: the state object [{ query }] and the
    URL. *)
Record HistoryEntry := {
  state_query : jsstring;
  entry_url : URL
}.

(** [window.location] and [window.history] (newest entry first). *)
Record Window := {
  location : URL;
  history : list HistoryEntry
}.

(** [history.pushState({ query }, '', url)] *)
Definition pushState (query : jsstring) (url : URL) (w : Window) : Window :=
  {| location := url;
     history := {| state_query := query; entry_url := url |} :: history w |}.

Definition q : jsstring := lit "q".

(** [updateUrl(query)] *)
Definition updateUrl (query : jsstring) (w : Window) : Window :=
  let url := location w in
  let url' :=
    if truthy query
    then with_searchParams url (params_set q query (searchParams url))
    else with_searchParams url (params_delete q (searchParams url)) in
  pushState query url' w.

(** [getShareableUrl(query)]: the URL whose serialisation is returned.
    [new URL(origin + pathname)] has neither query nor fragment. *)
Definition getShareableUrl (query : jsstring) (w : Window) : URL :=
  let url := {| origin := origin (location w);
                pathname := pathname (location w);
                searchParams := []; hash := [] |} in
  with_searchParams url (params_set q query (searchParams url)).

End Url.

(** ** Search Session Controller and Result Renderer: the class [SearchApp] *)

Module App.
Import Js Number Markup Url.

(** The five sections that [hideAllSections] hides; [true] means the
    element carries the class [hidden]. *)
Record Sections := {
  loadingSpinner_hidden : bool;
  resultsContainer_hidden : bool;
  summarySection_hidden : bool;
  noResults_hidden : bool;
  errorMessage_hidden : bool
}.

(** The search field, the search button and the share button. *)
Record Controls := {
  searchInput_value : jsstring;
  searchInput_disabled : bool;
  searchButton_disabled : bool;
  searchButton_innerHTML : jsstring;
  shareButton_hidden : bool
}.

(** What the sections hold.  [errorText] and [resultsCount] are written
    through [textContent] (a text node, never parsed as markup),
    [summaryContent] through [innerHTML]; [resultsList] is the list of the
    children of the list element, each by its markup. *)
Record Contents := {
  errorText : jsstring;
  resultsCount : jsstring;
  resultsList : list jsstring;
  summaryContent : jsstring
}.

(** [await] suspends [performSearch] twice: on [fetch] and on
    [response.json()], where [response.ok] is already known. *)
Inductive Suspended :=
| AwaitingResponse
| AwaitingBody (ok : bool).

(** The object and what it acts upon.  [requests] logs the bodies' [query]
    of the POST /search requests issued, newest first; [suspended] holds
    the calls of [performSearch] that wait on an [await]. *)
Record SearchApp := {
  sections : Sections;
  controls : Controls;
  contents : Contents;
  isSearching : bool;
  window : Window;
  requests : list jsstring;
  suspended : list Suspended
}.

Definition set_sections (f : Sections -> Sections) (a : SearchApp) : SearchApp :=
  {| sections := f (sections a); controls := controls a;
     contents := contents a; isSearching := isSearching a;
     window := window a; requests := requests a; suspended := suspended a |}.

Definition set_controls (f : Controls -> Controls) (a : SearchApp) : SearchApp :=
  {| sections := sections a; controls := f (controls a);
     contents := contents a; isSearching := isSearching a;
     window := window a; requests := requests a; suspended := suspended a |}.

Definition set_contents (f : Contents -> Contents) (a : SearchApp) : SearchApp :=
  {| sections := sections a; controls := controls a;
     contents := f (contents a); isSearching := isSearching a;
     window := window a; requests := requests a; suspended := suspended a |}.

Definition set_isSearching (b : bool) (a : SearchApp) : SearchApp :=
  {| sections := sections a; controls := controls a;
     contents := contents a; isSearching := b;
     window := window a; requests := requests a; suspended := suspended a |}.

Definition set_window (f : Window -> Window) (a : SearchApp) : SearchApp :=
  {| sections := sections a; controls := controls a;
     contents := contents a; isSearching := isSearching a;
     window := f (window a); requests := requests a; suspended := suspended a |}.

Definition set_requests (f : list jsstring -> list jsstring) (a : SearchApp)
  : SearchApp :=
  {| sections := sections a; controls := controls a;
     contents := contents a; isSearching := isSearching a;
     window := window a; requests := f (requests a); suspended := suspended a |}.

Definition set_suspended (f : list Suspended -> list Suspended) (a : SearchApp)
  : SearchApp :=
  {| sections := sections a; controls := controls a;
     contents := contents a; isSearching := isSearching a;
     window := window a; requests := requests a; suspended := f (suspended a) |}.

(** Russian texts of the source, by code point. *)
Definition text_enter_query : jsstring :=
  (* Пожалуйста, введите запрос для поиска *)
  [1055; 1086; 1078; 1072; 1083; 1091; 1081; 1089; 1090; 1072; 44; 32; 1074;
   1074; 1077; 1076; 1080; 1090; 1077; 32; 1079; 1072; 1087; 1088; 1086; 1089;
   32; 1076; 1083; 1103; 32; 1087; 1086; 1080; 1089; 1082; 1072]%N.

Definition text_search_failed : jsstring :=   (* Произошла ошибка при поиске *)
  [1055; 1088; 1086; 1080; 1079; 1086; 1096; 1083; 1072; 32; 1086; 1096; 1080;
   1073; 1082; 1072; 32; 1087; 1088; 1080; 32; 1087; 1086; 1080; 1089; 1082;
   1077]%N.

Definition text_unknown_error : jsstring :=   (* Неизвестная ошибка *)
  [1053; 1077; 1080; 1079; 1074; 1077; 1089; 1090; 1085; 1072; 1103; 32; 1086;
   1096; 1080; 1073; 1082; 1072]%N.

Definition text_search : jsstring := [1055; 1086; 1080; 1089; 1082]%N. (* Поиск *)

(** [hideAllSections()] *)
Definition hideAllSections : SearchApp -> SearchApp :=
  set_sections (fun _ =>
    {| loadingSpinner_hidden := true; resultsContainer_hidden := true;
       summarySection_hidden := true; noResults_hidden := true;
       errorMessage_hidden := true |}).

Definition set_loadingSpinner_hidden (b : bool) : SearchApp -> SearchApp :=
  set_sections (fun s =>
    {| loadingSpinner_hidden := b;
       resultsContainer_hidden := resultsContainer_hidden s;
       summarySection_hidden := summarySection_hidden s;
       noResults_hidden := noResults_hidden s;
       errorMessage_hidden := errorMessage_hidden s |}).

Definition show_resultsContainer : SearchApp -> SearchApp :=
  set_sections (fun s =>
    {| loadingSpinner_hidden := loadingSpinner_hidden s;
       resultsContainer_hidden := false;
       summarySection_hidden := summarySection_hidden s;
       noResults_hidden := noResults_hidden s;
       errorMessage_hidden := errorMessage_hidden s |}).

Definition show_summarySection : SearchApp -> SearchApp :=
  set_sections (fun s =>
    {| loadingSpinner_hidden := loadingSpinner_hidden s;
       resultsContainer_hidden := resultsContainer_hidden s;
       summarySection_hidden := false;
       noResults_hidden := noResults_hidden s;
       errorMessage_hidden := errorMessage_hidden s |}).

Definition show_noResults : SearchApp -> SearchApp :=
  set_sections (fun s =>
    {| loadingSpinner_hidden := loadingSpinner_hidden s;
       resultsContainer_hidden := resultsContainer_hidden s;
       summarySection_hidden := summarySection_hidden s;
       noResults_hidden := false;
       errorMessage_hidden := errorMessage_hidden s |}).

Definition show_errorMessage : SearchApp -> SearchApp :=
  set_sections (fun s =>
    {| loadingSpinner_hidden := loadingSpinner_hidden s;
       resultsContainer_hidden := resultsContainer_hidden s;
       summarySection_hidden := summarySection_hidden s;
       noResults_hidden := noResults_hidden s;
       errorMessage_hidden := false |}).

(** [showLoading()] *)
Definition showLoading (a : SearchApp) : SearchApp :=
  set_loadingSpinner_hidden false (hideAllSections a).

(** [hideLoading()] *)
Definition hideLoading (a : SearchApp) : SearchApp :=
  set_loadingSpinner_hidden true a.

(** [showError(message)] *)
Definition showError (message : jsstring) (a : SearchApp) : SearchApp :=
  show_errorMessage
    (set_contents (fun c =>
       {| errorText := message; resultsCount := resultsCount c;
          resultsList := resultsList c; summaryContent := summaryContent c |})
       (hideAllSections a)).

(** [disableSearch()] *)
Definition disableSearch : SearchApp -> SearchApp :=
  set_controls (fun c =>
    {| searchInput_value := searchInput_value c;
       searchInput_disabled := true;
       searchButton_disabled := true;
       searchButton_innerHTML :=
         nl 12
         ++ tpl "<div class='spinner' style='width: 16px; height: 16px; border-width: 2px;'></div>"
         ++ nl 12 ++ lit "<span>" ++ text_search ++ lit "...</span>"
         ++ nl 8;
       shareButton_hidden := shareButton_hidden c |}).

(** [enableSearch()] *)
Definition enableSearch : SearchApp -> SearchApp :=
  set_controls (fun c =>
    {| searchInput_value := searchInput_value c;
       searchInput_disabled := false;
       searchButton_disabled := false;
       searchButton_innerHTML :=
         nl 12 ++ tpl "<i class='fas fa-search'></i>"
         ++ nl 12 ++ lit "<span>" ++ text_search ++ lit "</span>"
         ++ nl 8;
       shareButton_hidden := shareButton_hidden c |}).

(** Modelled from the spec: the element [searchInput] is declared in the
    page, which the script does not contain; the spec calls it the input
    field, and it is taken to be a single-line text field, as the
    [keypress] handler that submits on Enter has it.  Such a field holds
    every value it is given after the value sanitisation. *)
Definition searchInput_sanitized (v : jsstring) : jsstring := strip_newlines v.

(** [this.searchInput.value = v], and what the user's editing leaves in
    the field. *)
Definition set_searchInput_value (v : jsstring) : SearchApp -> SearchApp :=
  set_controls (fun c =>
    {| searchInput_value := searchInput_sanitized v;
       searchInput_disabled := searchInput_disabled c;
       searchButton_disabled := searchButton_disabled c;
       searchButton_innerHTML := searchButton_innerHTML c;
       shareButton_hidden := shareButton_hidden c |}).

(** [shareButton.classList.remove('hidden')] *)
Definition show_shareButton : SearchApp -> SearchApp :=
  set_controls (fun c =>
    {| searchInput_value := searchInput_value c;
       searchInput_disabled := searchInput_disabled c;
       searchButton_disabled := searchButton_disabled c;
       searchButton_innerHTML := searchButton_innerHTML c;
       shareButton_hidden := false |}).

(** The body of a response of the search service, at the type the
    service promises.  A body of another shape makes a property access of
    the [try] block throw; the same [catch] and [finally] handle that as
    they handle [BodyRejected] below. *)
Record SearchResponse := {
  success : bool;
  results : list SearchResult;
  summary : option jsstring;
  error : option jsstring
}.

(** [displaySummary(summary)]; its entrance animation is left out. *)
Definition displaySummary `{Host} (s : jsstring) (a : SearchApp) : SearchApp :=
  show_summarySection
    (set_contents (fun c =>
       {| errorText := errorText c; resultsCount := resultsCount c;
          resultsList := resultsList c; summaryContent := formatSummary s |}) a).

(** [resultsList.appendChild(resultElement)] *)
Definition appendChild (element : jsstring) : SearchApp -> SearchApp :=
  set_contents (fun c =>
    {| errorText := errorText c; resultsCount := resultsCount c;
       resultsList := resultsList c ++ [element];
       summaryContent := summaryContent c |}).

(** [data.results.forEach((result, index) => ...)] *)
Fixpoint forEach_result `{Host} (rs : list SearchResult) (index : nat)
    (a : SearchApp) : SearchApp :=
  match rs with
  | [] => a
  | result :: rest =>
      let resultElement := createResultElement result (index + 1) in
      forEach_result rest (S index) (appendChild resultElement a)
  end.

(** [displayResults(data)]; the final [scrollIntoView] moves the viewport
    only and is left out. *)
Definition displayResults `{Host} (data : SearchResponse) (a : SearchApp)
  : SearchApp :=
  let a := hideAllSections a in
  match results data with
  | [] => show_noResults a
  | _ :: _ =>
      let a :=
        match truthy_field (summary data) with
        | Some s => displaySummary s a
        | None => a
        end in
      let a :=
        set_contents (fun c =>
          {| errorText := errorText c;
             resultsCount := digits (Z.of_nat (List.length (results data)));
             resultsList := resultsList c;
             summaryContent := summaryContent c |}) a in
      let a :=
        set_contents (fun c =>
          {| errorText := errorText c; resultsCount := resultsCount c;
             resultsList := [];
             summaryContent := summaryContent c |}) a in
      let a := forEach_result (results data) 0 a in
      show_resultsContainer a
  end.

(** *** The body of [performSearch], a state and exception monad

    A computation acts on the object and either returns or throws; what is
    thrown is an [Error], kept by its [message]. *)

Definition Error := jsstring.

Definition M (A : Type) : Type := SearchApp -> (A + Error) * SearchApp.

Definition ret {A} (x : A) : M A := fun a => (inl x, a).

Definition throw {A} (e : Error) : M A := fun a => (inr e, a).

Definition bind {A B} (c : M A) (k : A -> M B) : M B :=
  fun a =>
    match c a with
    | (inl x, a') => k x a'
    | (inr e, a') => (inr e, a')
    end.

Definition modify (f : SearchApp -> SearchApp) : M unit :=
  fun a => (inl tt, f a).

Notation "x <- c ;; k" := (bind c (fun x => k))
  (at level 61, c at next level, right associativity).
Notation "c ;; k" := (bind c (fun _ => k))
  (at level 61, right associativity).

(** [try { body } catch (error) { handler } finally { finalizer }] *)
Definition try_catch_finally (body : M unit) (handler : Error -> M unit)
    (finalizer : M unit) : M unit :=
  fun a =>
    let '(r1, a1) := body a in
    let '(r2, a2) :=
      match r1 with
      | inl _ => (inl tt, a1)
      | inr e => handler e a1
      end in
    let '(r3, a3) := finalizer a2 in
    match r3 with
    | inl _ => (r2, a3)
    | inr e => (inr e, a3)
    end.

(** [value || fallback] for an optional string. *)
Definition or_else (value : option jsstring) (fallback : jsstring) : jsstring :=
  match truthy_field value with
  | Some v => v
  | None => fallback
  end.

(** How [fetch] and [response.json()] settle. *)
Inductive FetchResult :=
| Response (ok : bool)
| FetchRejected (message : Error).

Inductive BodyResult :=
| Body (data : SearchResponse)
| BodyRejected (message : Error).

(** The effective query of a call. *)
Definition effective_query (queryFromUrl : option jsstring) (a : SearchApp)
  : jsstring :=
  or_else queryFromUrl (trim (searchInput_value (controls a))).

(** [performSearch(queryFromUrl)] up to its first [await]: the call of
    [fetch] issues the request and the function is suspended. *)
Definition performSearch (queryFromUrl : option jsstring) (a : SearchApp)
  : SearchApp :=
  let query := effective_query queryFromUrl a in
  if negb (truthy query) then showError text_enter_query a
  else if isSearching a then a
  else
    let a :=
      match truthy_field queryFromUrl with
      | Some _ => set_searchInput_value query a
      | None => a
      end in
    let a := set_window (updateUrl query) a in
    let a := set_isSearching true a in
    let a := showLoading a in
    let a := disableSearch a in
    let a := set_requests (cons query) a in
    set_suspended (fun l => l ++ [AwaitingResponse]) a.

(** The [try] block from [await response.json()] on. *)
Definition try_after_body `{Host} (ok : bool) (r : BodyResult) : M unit :=
  data <- match r with
          | Body d => ret d
          | BodyRejected m => throw m
          end ;;
  if negb ok then throw (or_else (error data) text_search_failed)
  else if success data then
    modify (displayResults data) ;;
    modify show_shareButton
  else throw (or_else (error data) text_unknown_error).

(** The [catch] block; the console is not modelled. *)
Definition on_error (e : Error) : M unit := modify (showError e).

(** The [finally] block. *)
Definition cleanup : M unit :=
  modify (set_isSearching false) ;;
  modify hideLoading ;;
  modify enableSearch.

(** A suspended call runs to its end from the given point of the [try]
    block; the promise returned by [performSearch] is dropped by every
    caller. *)
Definition finish (body : M unit) (a : SearchApp) : SearchApp :=
  snd (try_catch_finally body on_error cleanup a).

Definition remove_at {A} (k : nat) (l : list A) : list A :=
  firstn k l ++ skipn (S k) l.

Definition replace_at {A} (k : nat) (x : A) (l : list A) : list A :=
  firstn k l ++ x :: skipn (S k) l.

(** [loadFromUrl()] *)
Definition loadFromUrl (a : SearchApp) : SearchApp :=
  match truthy_field (params_get q (searchParams (location (window a)))) with
  | Some query => performSearch (Some query) a
  | None => a
  end.

(** What happens to the page: the listeners installed by
    [initEventListeners] and the promises settling. *)
Inductive Event :=
| SearchRequested                       (* click on the button, Enter in the field *)
| PopState (url : URL)                  (* back or forward: a new location *)
| InputEdited (value : jsstring)        (* the user types in the field *)
| FetchSettled (k : nat) (r : FetchResult)
| BodySettled (k : nat) (r : BodyResult).

Definition step `{Host} (a : SearchApp) (e : Event) : option SearchApp :=
  match e with
  | SearchRequested => Some (performSearch None a)
  | PopState url =>
      Some (loadFromUrl
              (set_window (fun w => {| location := url; history := history w |}) a))
  | InputEdited v => Some (set_searchInput_value v a)
  | FetchSettled k r =>
      match nth_error (suspended a) k with
      | Some AwaitingResponse =>
          match r with
          | Response ok => Some (set_suspended (replace_at k (AwaitingBody ok)) a)
          | FetchRejected m =>
              Some (finish (throw m) (set_suspended (remove_at k) a))
          end
      | _ => None
      end
  | BodySettled k r =>
      match nth_error (suspended a) k with
      | Some (AwaitingBody ok) =>
          Some (finish (try_after_body ok r) (set_suspended (remove_at k) a))
      | _ => None
      end
  end.

(** The object as its constructor leaves it, over any page and location:
    nothing in flight, and [loadFromUrl] has run once. *)
Definition created (s : Sections) (c : Controls) (ct : Contents) (w : Window)
  : SearchApp :=
  loadFromUrl
    {| sections := s; controls := c; contents := ct; isSearching := false;
       window := w; requests := []; suspended := [] |}.

Inductive reachable `{Host} : SearchApp -> Prop :=
| reachable_created s c ct w : reachable (created s c ct w)
| reachable_step a e a' : reachable a -> step a e = Some a' -> reachable a'.

(** Several events in a row. *)
Fixpoint run `{Host} (a : SearchApp) (es : list Event) : option SearchApp :=
  match es with
  | [] => Some a
  | e :: rest =>
      match step a e with
      | Some a' => run a' rest
      | None => None
      end
  end.

End App.

(** ** Share Controller: [shareCurrentSearch] and its helpers *)

Module Share.
Import Js Number Markup Url App.

(** How [document.execCommand('copy')] ends: it returns [true] after
    copying the selection, returns [false] without copying, or throws. *)
Inductive ExecOutcome :=
| ExecCopied
| ExecRefused
| ExecThrew.

(** The page as the Share Controller sees it.  The text handed to the
    clipboard is the serialisation of a URL and is kept as that URL.
    [hide_timers] counts the timers set by [showShareNotification] that
    have not fired yet (none is ever cleared); [textareas] are the text
    areas appended to the document body, by their value; [writing] holds
    the calls of [shareCurrentSearch] suspended on
    [await navigator.clipboard.writeText(shareUrl)], by their
    [shareUrl]. *)
Record SharePage := {
  app : SearchApp;
  shareNotification_hidden : bool;
  hide_timers : nat;
  clipboard : option URL;
  textareas : list URL;
  writing : list URL
}.

(** [showShareNotification()] *)
Definition showShareNotification (p : SharePage) : SharePage :=
  {| app := app p; shareNotification_hidden := false;
     hide_timers := S (hide_timers p);
     clipboard := clipboard p; textareas := textareas p;
     writing := writing p |}.

(** The callback of the timer, [shareNotification.classList.add('hidden')],
    when one of the pending timers fires. *)
Definition hide_timer_fires (p : SharePage) : option SharePage :=
  match hide_timers p with
  | O => None
  | S n =>
      Some {| app := app p; shareNotification_hidden := true;
              hide_timers := n;
              clipboard := clipboard p; textareas := textareas p;
              writing := writing p |}
  end.

Definition set_app (a : SearchApp) (p : SharePage) : SharePage :=
  {| app := a; shareNotification_hidden := shareNotification_hidden p;
     hide_timers := hide_timers p;
     clipboard := clipboard p; textareas := textareas p;
     writing := writing p |}.

Definition set_clipboard (text : URL) (p : SharePage) : SharePage :=
  {| app := app p; shareNotification_hidden := shareNotification_hidden p;
     hide_timers := hide_timers p;
     clipboard := Some text; textareas := textareas p;
     writing := writing p |}.

Definition set_textareas (f : list URL -> list URL) (p : SharePage) : SharePage :=
  {| app := app p; shareNotification_hidden := shareNotification_hidden p;
     hide_timers := hide_timers p;
     clipboard := clipboard p; textareas := f (textareas p);
     writing := writing p |}.

Definition set_writing (f : list URL -> list URL) (p : SharePage) : SharePage :=
  {| app := app p; shareNotification_hidden := shareNotification_hidden p;
     hide_timers := hide_timers p;
     clipboard := clipboard p; textareas := textareas p;
     writing := f (writing p) |}.

(** [fallbackCopyToClipboard(text)]: the text area is appended, the copy
    is tried inside [try]/[catch], and the text area is removed. *)
Definition fallbackCopyToClipboard (text : URL) (exec : ExecOutcome)
    (p : SharePage) : SharePage :=
  let p := set_textareas (fun l => l ++ [text]) p in
  let p :=
    match exec with
    | ExecCopied => showShareNotification (set_clipboard text p)
    | ExecRefused => showShareNotification p
    | ExecThrew => p
    end in
  set_textareas (@removelast URL) p.

(** [shareCurrentSearch()] up to its [await].  With [navigator.clipboard]
    present the call of [writeText] returns a promise and the function is
    suspended; without it the call throws inside [try] and the [catch]
    block runs at once. *)
Definition shareCurrentSearch (clipboard_api : bool) (exec : ExecOutcome)
    (p : SharePage) : SharePage :=
  let query := trim (searchInput_value (controls (app p))) in
  if negb (truthy query) then p
  else
    let shareUrl := getShareableUrl query (window (app p)) in
    if clipboard_api then set_writing (fun l => l ++ [shareUrl]) p
    else fallbackCopyToClipboard shareUrl exec p.

(** The suspended call number [k] goes on: [writeText] has written the
    text and resolved, or was rejected. *)
Definition write_settles (k : nat) (written : bool) (exec : ExecOutcome)
    (p : SharePage) : option SharePage :=
  match nth_error (writing p) k with
  | Some shareUrl =>
      let p := set_writing (remove_at k) p in
      Some (if written then showShareNotification (set_clipboard shareUrl p)
            else fallbackCopyToClipboard shareUrl exec p)
  | None => None
  end.

(** What happens around the share button: a click, the settling of a
    write, the firing of a timer of the notification, and anything the
    Search Session Controller does to its own state meanwhile. *)
Inductive ShareEvent :=
| ShareClicked (clipboard_api : bool) (exec : ExecOutcome)
| WriteSettled (k : nat) (written : bool) (exec : ExecOutcome)
| HideTimerFired
| SearchAppChanged (a : SearchApp).

Definition share_step (p : SharePage) (e : ShareEvent) : option SharePage :=
  match e with
  | ShareClicked api exec => Some (shareCurrentSearch api exec p)
  | WriteSettled k written exec => write_settles k written exec p
  | HideTimerFired => hide_timer_fires p
  | SearchAppChanged a => Some (set_app a p)
  end.

Fixpoint share_run (p : SharePage) (es : list ShareEvent) : option SharePage :=
  match es with
  | [] => Some p
  | e :: rest =>
      match share_step p e with
      | Some p' => share_run p' rest
      | None => None
      end
  end.

End Share.

(** ** The utility [debounce] *)

Module Utils.

Section Debounce.

(** The arguments of a call; [func] is opaque, and what is kept of it is
    the list of the arguments it was called with. *)
Variable Args : Type.

(** A timer set by [setTimeout(later, wait)]: its handle and the
    arguments that its callback [later] closes over.  When a pending timer
    fires is the host's affair: the delay is not part of the model, and
    any pending timer may fire at any moment. *)
Record Timer := {
  handle : nat;
  later_args : Args
}.

(** The closure that [debounce(func, wait)] returns: the variable
    [timeout] ([None] is [undefined]), the timers of this closure that are
    pending, the next handle the host gives out, and the calls of [func],
    newest first. *)
Record Debounced := {
  timeout : option nat;
  next_handle : nat;
  timers : list Timer;
  calls : list Args
}.

(** [debounce(func, wait)] *)
Definition debounce (first_handle : nat) : Debounced :=
  {| timeout := None; next_handle := first_handle; timers := []; calls := [] |}.

(** [clearTimeout(timeout)]; an unknown handle and [undefined] clear
    nothing. *)
Definition clearTimeout (h : option nat) (ts : list Timer) : list Timer :=
  match h with
  | None => ts
  | Some id => filter (fun t => negb (Nat.eqb (handle t) id)) ts
  end.

(** [executedFunction(...args)] *)
Definition executedFunction (args : Args) (d : Debounced) : Debounced :=
  let ts := clearTimeout (timeout d) (timers d) in
  let id := next_handle d in
  {| timeout := Some id;
     next_handle := S id;
     timers := ts ++ [{| handle := id; later_args := args |}];
     calls := calls d |}.

(** The callback [later] of a timer that fires. *)
Definition later (args : Args) (d : Debounced) : Debounced :=
  {| timeout := timeout d;
     next_handle := next_handle d;
     timers := clearTimeout (timeout d) (timers d);
     calls := args :: calls d |}.

Inductive DebounceEvent :=
| Invoked (args : Args)
| TimerFired (id : nat).

Fixpoint find_timer (id : nat) (ts : list Timer) : option Timer :=
  match ts with
  | [] => None
  | t :: r => if Nat.eqb (handle t) id then Some t else find_timer id r
  end.

(** A timer that fires leaves the list of pending timers before its
    callback runs. *)
Definition debounce_step (d : Debounced) (e : DebounceEvent)
  : option Debounced :=
  match e with
  | Invoked args => Some (executedFunction args d)
  | TimerFired id =>
      match find_timer id (timers d) with
      | Some t =>
          Some (later (later_args t)
                  {| timeout := timeout d; next_handle := next_handle d;
                     timers := clearTimeout (Some id) (timers d);
                     calls := calls d |})
      | None => None
      end
  end.

Fixpoint debounce_run (d : Debounced) (es : list DebounceEvent)
  : option Debounced :=
  match es with
  | [] => Some d
  | e :: rest =>
      match debounce_step d e with
      | Some d' => debounce_run d' rest
      | None => None
      end
  end.

End Debounce.

Arguments Invoked {Args} args.
Arguments TimerFired {Args} id.

End Utils.

(** ** What escaped markup looks like *)

Module MarkupSpec.
Import Js Markup.

(** The five characters that [escapeHtml_local] replaces. *)
Definition is_special (c : N) : bool :=
  N.eqb c amp || N.eqb c lt || N.eqb c gt || N.eqb c quot || N.eqb c apos.

(** The entity that stands for a special character; any other character
    stands for itself. *)
Definition entity_of (c : N) : jsstring :=
  if N.eqb c amp then lit "&amp;"
  else if N.eqb c lt then lit "&lt;"
  else if N.eqb c gt then lit "&gt;"
  else if N.eqb c quot then lit "&quot;"
  else if N.eqb c apos then lit "&#039;"
  else [c].

(** A character of body text in the markup of [formatText] and
    [formatSummary]: a line feed may have become a line break. *)
Definition entity_or_br (c : N) : jsstring :=
  if N.eqb c newline then lit "<br>" else entity_of c.

(** What stands for a run of [pending] line feeds in body text. *)
Definition line_break (pending : nat) : jsstring :=
  match pending with
  | O => []
  | S O => lit "<br>"
  | S (S _) => lit "</p><p>"
  end.

(** Body text character by character: the entity of every character that
    is not a line feed, and the break of every run of line feeds. *)
Fixpoint text_runs (s : jsstring) (pending : nat) : jsstring :=
  match s with
  | [] => line_break pending
  | c :: r =>
      if N.eqb c newline then text_runs r (S pending)
      else line_break pending ++ entity_of c ++ text_runs r 0
  end.

(** Markup over a set of plain characters, a list of entities and a list
    of tags: a sequence of plain characters, entities and tags, and
    nothing else. *)
Inductive MarkupOf (plain : N -> bool) (entities tags : list jsstring)
  : jsstring -> Prop :=
| markup_nil : MarkupOf plain entities tags []
| markup_plain c s :
    plain c = true -> MarkupOf plain entities tags s ->
    MarkupOf plain entities tags (c :: s)
| markup_entity e s :
    In e entities -> MarkupOf plain entities tags s ->
    MarkupOf plain entities tags (e ++ s)
| markup_tag t s :
    In t tags -> MarkupOf plain entities tags s ->
    MarkupOf plain entities tags (t ++ s).

(** The markup of body text and summaries: none of the five special
    characters occurs but inside one of the five entities or one of the
    tags the formatter itself writes. *)
Definition SafeMarkup : jsstring -> Prop :=
  MarkupOf (fun c => negb (is_special c))
    [lit "&amp;"; lit "&lt;"; lit "&gt;"; lit "&quot;"; lit "&#039;"]
    [lit "<p>"; lit "</p>"; lit "<br>"].

(** The serialisation of a text node: no ampersand but at the head of an
    entity and no angle bracket; quotes are plain characters there. *)
Definition SerializedText : jsstring -> Prop :=
  MarkupOf (fun c => negb (N.eqb c amp || N.eqb c lt || N.eqb c gt))
    [lit "&amp;"; lit "&nbsp;"; lit "&lt;"; lit "&gt;"]
    [].

(** The separator of the paragraphs of a summary. *)
Definition paragraph_sep : jsstring := [newline; newline].

(** The piece that [split_go] is reading, after escaping. *)
Definition escaped_cur (cur : jsstring) : jsstring :=
  rev (flat_map entity_of (rev cur)).

(** The paragraphs of a summary: the pieces between double line feeds
    that are not blank, trimmed. *)
Definition summary_paragraphs (summary : jsstring) : list jsstring :=
  map trim (filter (fun p => truthy (trim p)) (split paragraph_sep summary)).

(** The text of a heading that is present and not empty. *)
Definition heading_text (heading : option jsstring) : list jsstring :=
  match heading with
  | Some s => if truthy s then [s] else []
  | None => []
  end.

(** The headings that make the trail. *)
Definition trail (md : ResultMetadata) : list jsstring :=
  flat_map heading_text [h1 md; h2 md; h3 md].

End MarkupSpec.

(** ** What a formatted number looks like *)

Module NumberSpec.
Import Js Number.




End NumberSpec.

(** ** What the controller promises *)

Module SessionSpec.
Import Js Number Markup Url App.

(** The elements of a response, numbered from 1. *)
Definition result_elements `{Host} (i : nat) (rs : list SearchResult)
  : list jsstring :=
  mapi_from (fun result index => createResultElement result (index + 1)) i rs.

(** The state in which [finally] leaves the page: nothing in flight, the
    loading indicator hidden, field and button enabled. *)
Definition cleaned_up (a : SearchApp) : Prop :=
  isSearching a = false
  /\ loadingSpinner_hidden (sections a) = true
  /\ searchInput_disabled (controls a) = false
  /\ searchButton_disabled (controls a) = false.

(** The value of the parameter [q] of the address bar. *)
Definition url_q (a : SearchApp) : option jsstring :=
  params_get q (searchParams (location (window a))).

(** Single flight: the flag is set exactly while one call is suspended,
    and no second one is. *)
Definition single_flight (a : SearchApp) : Prop :=
  (isSearching a = true /\ List.length (suspended a) = 1%nat)
  \/ (isSearching a = false /\ suspended a = []).

(** What a run of the [try] block cannot touch: the address bar, the log
    of requests, the suspended calls. *)
Definition same_session (a a' : SearchApp) : Prop :=
  window a' = window a /\ requests a' = requests a
  /\ suspended a' = suspended a.

End SessionSpec.

(** ** Further notions used below *)

Module ExtraSpec.
Import Js Number Markup Url App Share Utils MarkupSpec.

(** A character that the formatter hands on as it is: not one of the five
    special characters and not a line feed. *)
Definition is_plain (c : N) : bool :=
  negb (is_special c) && negb (N.eqb c newline).

(** The controls are disabled exactly while a search is in flight, and
    the loading indicator is not shown at any other time. *)
Definition controls_follow_flight (a : SearchApp) : Prop :=
  searchInput_disabled (controls a) = isSearching a
  /\ searchButton_disabled (controls a) = isSearching a
  /\ (loadingSpinner_hidden (sections a) = false -> isSearching a = true).

(** At most one of the loading indicator, the results, the empty state
    and the error message is shown, and the summary only along with the
    results. *)
Definition exclusive (s : Sections) : bool :=
  let shown (hidden : bool) : nat := if hidden then 0%nat else 1%nat in
  Nat.leb (shown (loadingSpinner_hidden s) + shown (resultsContainer_hidden s)
           + shown (noResults_hidden s) + shown (errorMessage_hidden s))%nat 1
  && (summarySection_hidden s || negb (resultsContainer_hidden s)).

(** A history entry as an accepted search pushes it: its state is a
    non-empty query, kept as the script has it, and its URL carries that
    query in [q] as [URLSearchParams] converts it: the query itself when it
    is well formed. *)
Definition pushed_by_search (h : HistoryEntry) : Prop :=
  truthy (state_query h) = true
  /\ params_get q (searchParams (entry_url h)) = Some (to_usv (state_query h))
  /\ (isWellFormed (state_query h) = true ->
      params_get q (searchParams (entry_url h)) = Some (state_query h)).

(** A link as the Share Controller builds it: the query, not empty, is
    its only parameter, and it has no fragment. *)
Definition is_share_link (u : URL) : Prop :=
  exists query,
    truthy query = true /\ searchParams u = [(q, query)] /\ hash u = [].

(** What the Share Controller keeps, relative to the page [p0] it started
    on. *)
Definition share_kept (p0 p : SharePage) : Prop :=
  textareas p = textareas p0
  /\ (shareNotification_hidden p = false -> (0 < hide_timers p)%nat)
  /\ Forall is_share_link (writing p)
  /\ (clipboard p = clipboard p0
      \/ exists u, clipboard p = Some u /\ is_share_link u).

(** The buffer of one place that a debounced function amounts to: a call
    puts its arguments in the place, over what was there; a timer that
    fires empties the place and passes what was there to [func]. *)
Definition slot_step {Args} (s : option Args * list Args)
    (e : DebounceEvent Args) : option Args * list Args :=
  match e with
  | Invoked a => (Some a, snd s)
  | TimerFired _ =>
      match fst s with
      | Some a => (None, a :: snd s)
      | None => (None, snd s)
      end
  end.

Definition slot_run {Args} (es : list (DebounceEvent Args))
  : option Args * list Args :=
  fold_left slot_step es (None, []).

(** The closure and the place of the buffer agree: the pending timers are
    the one timer of the arguments in the place, the one that [timeout]
    names, or none when the place is empty. *)
Definition agrees {Args} (d : Debounced Args) (slot : option Args) : Prop :=
  match slot with
  | None => timers d = []
  | Some a =>
      exists h, timers d = [{| handle := h; later_args := a |}]
                /\ timeout d = Some h
  end.

End ExtraSpec.

(** ** Inputs used in the examples *)

Module Examples.
Import Js Number Markup Url App.

(** 240 letters, a space at index 240, 60 more letters: 301 characters. *)
Definition text_space_at_240 : jsstring :=
  repeat 97%N 240 ++ [space] ++ repeat 97%N 60.

(** 250 letters, a space at index 250, 50 more letters: 301 characters. *)
Definition text_space_at_250 : jsstring :=
  repeat 97%N 250 ++ [space] ++ repeat 97%N 50.

(** 301 letters and no space. *)
Definition text_no_space : jsstring := repeat 97%N 301.

(** A host for the examples; none of them formats a score of 10^21 or
    more, so what it answers is never read. *)
Definition host : Host := {| numberToString := fun _ => [] |}.




(** Metadata whose only heading is a double quote. *)
Definition metadata_quote : ResultMetadata :=
  {| h1 := Some [quot]; h2 := None; h3 := None; source_path := None |}.

(** Metadata whose headings hold an ampersand and an angle bracket, and a
    result with it whose content is a tag. *)
Definition metadata_markup : ResultMetadata :=
  {| h1 := Some (lit "R&D"); h2 := Some (lit "a<b"); h3 := None;
     source_path := None |}.

Definition result_markup : SearchResult :=
  {| content := lit "<script>"; score := None;
     metadata := Some metadata_markup |}.

(** The metadata [{h1: "A", h3: "C"}]. *)
Definition metadata_A_C : ResultMetadata :=
  {| h1 := Some (lit "A"); h2 := None; h3 := Some (lit "C");
     source_path := None |}.

(** Metadata with an empty first heading and a second heading. *)
Definition metadata_empty_h1 : ResultMetadata :=
  {| h1 := Some []; h2 := Some (lit "B"); h3 := None; source_path := None |}.

(** Metadata with an empty heading and a source path. *)
Definition metadata_empty_h1_source : ResultMetadata :=
  {| h1 := Some []; h2 := None; h3 := None;
     source_path := Some (lit "faq") |}.

(** Metadata without headings, with and without a source path. *)
Definition metadata_source_only : ResultMetadata :=
  {| h1 := None; h2 := None; h3 := None; source_path := Some (lit "faq") |}.

Definition metadata_nothing : ResultMetadata :=
  {| h1 := None; h2 := None; h3 := None; source_path := None |}.

(** A page on which nothing is shown and nothing is in flight. *)
Definition page (field : jsstring) (params : list (jsstring * jsstring))
  : SearchApp :=
  {| sections :=
       {| loadingSpinner_hidden := true; resultsContainer_hidden := true;
          summarySection_hidden := true; noResults_hidden := true;
          errorMessage_hidden := true |};
     controls :=
       {| searchInput_value := field; searchInput_disabled := false;
          searchButton_disabled := false; searchButton_innerHTML := [];
          shareButton_hidden := true |};
     contents :=
       {| errorText := []; resultsCount := []; resultsList := [];
          summaryContent := [] |};
     isSearching := false;
     window :=
       {| location :=
            {| origin := lit "https://demo.example"; pathname := lit "/";
               searchParams := params; hash := [] |};
          history := [] |};
     requests := [];
     suspended := [] |}.

(** A location with another parameter and two values of [q]. *)
Definition window_lang_q : Window :=
  {| location :=
       {| origin := lit "https://demo.example"; pathname := lit "/search";
          searchParams :=
            [(lit "lang", lit "ru"); (lit "q", lit "old"); (lit "q", lit "dup");
             (lit "page", lit "2")];
          hash := lit "#top" |};
     history := [] |}.

(** The page while the search for "first" is in flight. *)
Definition page_in_flight : SearchApp :=
  performSearch (Some (lit "first")) (page [] []).

(** The page at [?q=old] with a blank field. *)
Definition page_old_query : SearchApp := page (lit "  ") [(q, lit "old")].

(** A successful response with one result and a summary. *)
Definition response_one : SearchResponse :=
  {| success := true;
     results :=
       [{| content := lit "Delivery takes <3 days"; score := Some (1 # 8);
           metadata := Some metadata_A_C |}];
     summary := Some (lit "Fast & cheap");
     error := None |}.

(** A response that reports a failure. *)
Definition response_failed : SearchResponse :=
  {| success := false; results := []; summary := None;
     error := Some (lit "index unavailable") |}.

End Examples.

(** ** Inputs of the further examples *)

Module ExtraExamples.
Import Js Number Markup Url App Share Utils Examples.

(** The page with " shoes " typed in the field, seen by the Share
    Controller: nothing copied, no notification. *)
Definition share_page : SharePage :=
  {| app := page (lit " shoes ") [(lit "lang", lit "ru")];
     shareNotification_hidden := true;
     hide_timers := 0;
     clipboard := None;
     textareas := [];
     writing := [] |}.

(** The link to the search for "shoes" on that page. *)
Definition shoes_link : URL :=
  {| origin := lit "https://demo.example"; pathname := lit "/";
     searchParams := [(q, lit "shoes")]; hash := [] |}.

End ExtraExamples.

(** * Properties *)

Import Js Number Markup Url App MarkupSpec NumberSpec SessionSpec Examples.

(** ** Strings *)

Section LastIndexOf.

Variable c : N.

(** What [lastIndexOf_from] returns: the accumulator when the needle is not
    there, and otherwise the offset of its last occurrence. *)
Lemma lastIndexOf_from_spec (s : jsstring) :
  forall i acc,
    (lastIndexOf_from c s i acc = acc
     /\ forall j, nth_error s j <> Some c)
    \/ exists k,
        lastIndexOf_from c s i acc = (i + Z.of_nat k)%Z
        /\ nth_error s k = Some c
        /\ forall j, (k < j)%nat -> nth_error s j <> Some c.
Proof.
  induction s as [|x r IH]; intros i acc; simpl.
  - left. split; [reflexivity|]. intros [|j]; discriminate.
  - destruct (IH (i + 1)%Z (if N.eqb x c then i else acc))
      as [[Hacc Hnone] | [k [Hres [Hk Hlast]]]].
    + destruct (N.eqb_spec x c) as [Heq | Hne].
      * right. exists 0%nat. rewrite Hacc. subst x.
        repeat split; [ lia | ].
        intros [|j] Hj; [lia | simpl; apply Hnone].
      * left. split; [exact Hacc|].
        intros [|j]; simpl; [congruence | apply Hnone].
    + right. exists (S k). rewrite Hres.
      repeat split; [ lia | exact Hk | ].
      intros [|j] Hj; [lia|]. simpl. apply Hlast. lia.
Qed.

Lemma lastIndexOf_found (s : jsstring) (k : nat) :
  nth_error s k = Some c ->
  (forall j, (k < j)%nat -> nth_error s j <> Some c) ->
  lastIndexOf c s = Z.of_nat k.
Proof.
  intros Hk Hlast. unfold lastIndexOf.
  destruct (lastIndexOf_from_spec s 0 (-1))
    as [[_ Hnone] | [k' [Hres [Hk' Hlast']]]].
  - exfalso. exact (Hnone k Hk).
  - rewrite Hres.
    destruct (Nat.lt_trichotomy k k') as [Hlt | [Heq | Hgt]].
    + exfalso. exact (Hlast k' Hlt Hk').
    + subst. lia.
    + exfalso. exact (Hlast' k Hgt Hk).
Qed.

Lemma lastIndexOf_range (s : jsstring) :
  lastIndexOf c s = (-1)%Z
  \/ exists k, lastIndexOf c s = Z.of_nat k /\ nth_error s k = Some c.
Proof.
  unfold lastIndexOf.
  destruct (lastIndexOf_from_spec s 0 (-1))
    as [[Hacc _] | [k [Hres [Hk _]]]].
  - left. exact Hacc.
  - right. exists k. split; [rewrite Hres; lia | exact Hk].
Qed.

End LastIndexOf.

Lemma nth_error_firstn_lt {A} (l : list A) (n j : nat) :
  (j < n)%nat -> nth_error (firstn n l) j = nth_error l j.
Proof.
  revert n j. induction l as [|x r IH]; intros [|n] [|j] Hj; simpl;
    try reflexivity; try lia.
  apply IH. lia.
Qed.

Lemma nth_error_firstn_ge {A} (l : list A) (n j : nat) :
  (n <= j)%nat -> nth_error (firstn n l) j = None.
Proof.
  intros Hj. apply nth_error_None.
  rewrite length_firstn. lia.
Qed.

Lemma firstn_firstn_le {A} (l : list A) (i n : nat) :
  (i <= n)%nat -> firstn i (firstn n l) = firstn i l.
Proof.
  intros Hi. rewrite firstn_firstn. f_equal. lia.
Qed.


(** ** Truncation *)

Lemma truncateText_short (text : jsstring) (maxLength : Z) :
  (len text <= maxLength)%Z -> truncateText text maxLength = text.
Proof.
  intros H. unfold truncateText.
  apply Z.leb_le in H. rewrite H. reflexivity.
Qed.

(** The cut at the last space of the first [n] characters, when that space
    lies beyond four fifths of [n]. *)
Lemma truncateText_at_space (text : jsstring) (n i : nat) :
  (n < List.length text)%nat ->
  (4 * n < 5 * i)%nat -> (i < n)%nat ->
  nth_error text i = Some space ->
  (forall j, (i < j < n)%nat -> nth_error text j <> Some space) ->
  truncateText text (Z.of_nat n) = firstn i text ++ lit "...".
Proof.
  intros Hlen Hfar Hin Hi Hlast. unfold truncateText, len, substring0.
  destruct (Z.leb_spec (Z.of_nat (List.length text)) (Z.of_nat n)) as [Hle | _];
    [lia|].
  rewrite Nat2Z.id.
  assert (Hidx : lastIndexOf space (firstn n text) = Z.of_nat i).
  { apply lastIndexOf_found.
    - rewrite nth_error_firstn_lt by exact Hin. exact Hi.
    - intros j Hj. destruct (Nat.lt_ge_cases j n) as [Hjn | Hjn].
      + rewrite nth_error_firstn_lt by exact Hjn. apply Hlast. lia.
      + rewrite nth_error_firstn_ge by exact Hjn. discriminate. }
  rewrite Hidx. unfold beyond_80_percent.
  destruct (Z.ltb_spec (4 * Z.of_nat n) (5 * Z.of_nat i)) as [_ | Hno];
    [|lia].
  rewrite Nat2Z.id, firstn_firstn_le by lia. reflexivity.
Qed.

(** The hard cut, when no space lies beyond four fifths of [n]. *)
Lemma truncateText_hard_cut (text : jsstring) (n : nat) :
  (n < List.length text)%nat ->
  (forall j, (4 * n < 5 * j)%nat -> (j < n)%nat ->
             nth_error text j <> Some space) ->
  truncateText text (Z.of_nat n) = firstn n text ++ lit "...".
Proof.
  intros Hlen Hnone. unfold truncateText, len, substring0.
  destruct (Z.leb_spec (Z.of_nat (List.length text)) (Z.of_nat n)) as [Hle | _];
    [lia|].
  rewrite Nat2Z.id.
  destruct (lastIndexOf_range space (firstn n text))
    as [Hidx | [k [Hidx Hk]]]; rewrite Hidx; unfold beyond_80_percent.
  - destruct (Z.ltb_spec (4 * Z.of_nat n) (5 * -1)) as [Hyes | _];
      [lia | reflexivity].
  - destruct (Z.ltb_spec (4 * Z.of_nat n) (5 * Z.of_nat k)) as [Hyes | _];
      [|reflexivity].
    exfalso.
    destruct (Nat.lt_ge_cases k n) as [Hkn | Hkn].
    + rewrite nth_error_firstn_lt in Hk by exact Hkn.
      apply (Hnone k); [lia | exact Hkn | exact Hk].
    + rewrite nth_error_firstn_ge in Hk by exact Hkn. discriminate.
Qed.

(** C6, as the code has it: [truncateText(content, 300)] returns a content
    of at most 300 characters unchanged; a longer one is cut at the last
    space character (U+0020) among its first 300 characters when the index
    of that space is greater than 240, and after 300 characters otherwise,
    and in both cases three full stops are appended. *)
Theorem truncateText_300_rule (content : jsstring) :
  ((len content <= 300)%Z -> truncateText content 300 = content)
  /\ ((300 < len content)%Z ->
      forall i, (240 < i < 300)%nat ->
        nth_error content i = Some space ->
        (forall j, (i < j < 300)%nat -> nth_error content j <> Some space) ->
        truncateText content 300 = firstn i content ++ lit "...")
  /\ ((300 < len content)%Z ->
      (forall j, (240 < j < 300)%nat -> nth_error content j <> Some space) ->
      truncateText content 300 = firstn 300 content ++ lit "...").
Proof.
  repeat split.
  - intros H. apply truncateText_short. exact H.
  - intros Hlen i Hi Hsp Hlast. unfold len in Hlen.
    apply (truncateText_at_space content (n := 300) (i := i));
      [lia | lia | lia | exact Hsp | exact Hlast].
  - intros Hlen Hnone. unfold len in Hlen.
    apply (truncateText_hard_cut content (n := 300)); [lia|].
    intros j H1 H2. apply Hnone. lia.
Qed.

(** The three cases of C6 at concrete contents: a short one, the 301
    characters with a space at index 250, the 301 characters without a
    space. *)
Lemma truncateText_300_rule_witness :
  truncateText (lit "short text") 300 = lit "short text"
  /\ truncateText text_space_at_250 300
     = firstn 250 text_space_at_250 ++ lit "..."
  /\ truncateText text_no_space 300 = firstn 300 text_no_space ++ lit "...".
Proof.
  split; [|split].
  - apply (proj1 (truncateText_300_rule (lit "short text"))).
    vm_compute. discriminate.
  - apply (proj1 (proj2 (truncateText_300_rule text_space_at_250))).
    + vm_compute. reflexivity.
    + lia.
    + reflexivity.
    + intros j Hj.
      assert (Hn : nth_error text_space_at_250 j = Some 97%N).
      { unfold text_space_at_250.
        rewrite nth_error_app2 by (rewrite repeat_length; lia).
        rewrite repeat_length.
        destruct (j - 250)%nat as [|d] eqn:Hd; [lia|].
        change (nth_error (repeat 97%N 50) d = Some 97%N).
        apply nth_error_repeat. lia. }
      rewrite Hn. discriminate.
  - apply (proj2 (proj2 (truncateText_300_rule text_no_space))).
    + vm_compute. reflexivity.
    + intros j Hj. unfold text_no_space.
      rewrite nth_error_repeat by lia. discriminate.
Defined.

(** C6 as stated fails at the boundary: a 301-character content whose last
    space is at index 240, that is at 80% of the limit, is not cut there
    but after 300 characters. *)
Lemma truncateText_space_at_240_hard_cut :
  len text_space_at_240 = 301%Z
  /\ nth_error text_space_at_240 240 = Some space
  /\ lastIndexOf space (firstn 300 text_space_at_240) = 240%Z
  /\ truncateText text_space_at_240 300
     = firstn 300 text_space_at_240 ++ lit "..."
  /\ truncateText text_space_at_240 300
     <> firstn 240 text_space_at_240 ++ lit "...".
Proof.
  repeat split; try (vm_compute; reflexivity).
  vm_compute. discriminate.
Qed.

(** ** Escaping *)

Lemma replace_char_app (c : N) (r a b : jsstring) :
  replace_char c r (a ++ b) = replace_char c r a ++ replace_char c r b.
Proof. unfold replace_char. apply flat_map_app. Qed.

Lemma replace_char_cons (c : N) (r : jsstring) (x : N) (s : jsstring) :
  replace_char c r (x :: s)
  = (if N.eqb x c then r else [x]) ++ replace_char c r s.
Proof. reflexivity. Qed.

Lemma escapeHtml_local_cons (c : N) (s : jsstring) :
  escapeHtml_local (c :: s) = entity_of c ++ escapeHtml_local s.
Proof.
  unfold escapeHtml_local, entity_of.
  rewrite (replace_char_cons amp).
  rewrite !replace_char_app.
  f_equal.
  destruct (N.eqb_spec c amp) as [-> | Hamp]; [reflexivity|].
  destruct (N.eqb_spec c lt) as [-> | Hlt]; [reflexivity|].
  destruct (N.eqb_spec c gt) as [-> | Hgt]; [reflexivity|].
  destruct (N.eqb_spec c quot) as [-> | Hquot]; [reflexivity|].
  destruct (N.eqb_spec c apos) as [-> | Hapos]; [reflexivity|].
  unfold replace_char; simpl.
  apply N.eqb_neq in Hlt, Hgt, Hquot, Hapos.
  rewrite Hlt; simpl. rewrite Hgt; simpl. rewrite Hquot; simpl.
  rewrite Hapos. reflexivity.
Qed.

(** The five replacements amount to one pass that writes the entity of
    every character. *)
Lemma escapeHtml_local_chars (s : jsstring) :
  escapeHtml_local s = flat_map entity_of s.
Proof.
  induction s as [|c r IH]; [reflexivity|].
  rewrite escapeHtml_local_cons, IH. reflexivity.
Qed.

Section MarkupOfFacts.

Variable plain : N -> bool.
Variables entities tags : list jsstring.

Lemma markup_app (a b : jsstring) :
  MarkupOf plain entities tags a -> MarkupOf plain entities tags b ->
  MarkupOf plain entities tags (a ++ b).
Proof.
  intros Ha Hb. induction Ha as [| c s Hc _ IH | e s He _ IH | t s Ht _ IH].
  - exact Hb.
  - simpl. apply markup_plain; assumption.
  - rewrite <- app_assoc. apply markup_entity; assumption.
  - rewrite <- app_assoc. apply markup_tag; assumption.
Qed.

Lemma markup_one_entity (e : jsstring) :
  In e entities -> MarkupOf plain entities tags e.
Proof.
  intros He. rewrite <- (app_nil_r e).
  apply markup_entity; [exact He | apply markup_nil].
Qed.

Lemma markup_one_tag (t : jsstring) :
  In t tags -> MarkupOf plain entities tags t.
Proof.
  intros Ht. rewrite <- (app_nil_r t).
  apply markup_tag; [exact Ht | apply markup_nil].
Qed.

Lemma markup_one_plain (c : N) :
  plain c = true -> MarkupOf plain entities tags [c].
Proof. intros Hc. apply markup_plain; [exact Hc | apply markup_nil]. Qed.

Lemma markup_flat_map (f : N -> jsstring) (s : jsstring) :
  (forall c, MarkupOf plain entities tags (f c)) ->
  MarkupOf plain entities tags (flat_map f s).
Proof.
  intros Hf. induction s as [|c r IH]; simpl.
  - apply markup_nil.
  - apply markup_app; [apply Hf | exact IH].
Qed.

End MarkupOfFacts.

Ltac in_list := simpl; repeat (first [left; reflexivity | right]).

Lemma safe_tag_p : SafeMarkup (lit "<p>").
Proof. apply markup_one_tag. in_list. Qed.

Lemma safe_tag_p_end : SafeMarkup (lit "</p>").
Proof. apply markup_one_tag. in_list. Qed.

Lemma safe_tag_br : SafeMarkup (lit "<br>").
Proof. apply markup_one_tag. in_list. Qed.

Lemma safe_paragraph_break : SafeMarkup (lit "</p><p>").
Proof.
  change (lit "</p><p>") with (lit "</p>" ++ lit "<p>").
  apply markup_app; [apply safe_tag_p_end | apply safe_tag_p].
Qed.

Lemma safe_entity_of (c : N) : SafeMarkup (entity_of c).
Proof.
  unfold entity_of.
  destruct (N.eqb_spec c amp) as [-> | Hamp];
    [apply markup_one_entity; in_list|].
  destruct (N.eqb_spec c lt) as [-> | Hlt];
    [apply markup_one_entity; in_list|].
  destruct (N.eqb_spec c gt) as [-> | Hgt];
    [apply markup_one_entity; in_list|].
  destruct (N.eqb_spec c quot) as [-> | Hquot];
    [apply markup_one_entity; in_list|].
  destruct (N.eqb_spec c apos) as [-> | Hapos];
    [apply markup_one_entity; in_list|].
  apply markup_one_plain. unfold is_special.
  apply N.eqb_neq in Hamp, Hlt, Hgt, Hquot, Hapos.
  rewrite Hamp, Hlt, Hgt, Hquot, Hapos. reflexivity.
Qed.

Lemma safe_entity_or_br (c : N) : SafeMarkup (entity_or_br c).
Proof.
  unfold entity_or_br. destruct (N.eqb c newline).
  - apply safe_tag_br.
  - apply safe_entity_of.
Qed.

(** An entity holds no line feed: the replacements of line feeds pass over
    it. *)
Lemma replace_newline_entity_of (c : N) :
  replace_char newline (lit "<br>") (entity_of c) = entity_or_br c.
Proof.
  unfold entity_or_br, entity_of.
  destruct (N.eqb_spec c newline) as [-> | Hnl]; [reflexivity|].
  destruct (N.eqb_spec c amp) as [-> | Hamp]; [reflexivity|].
  destruct (N.eqb_spec c lt) as [-> | Hlt]; [reflexivity|].
  destruct (N.eqb_spec c gt) as [-> | Hgt]; [reflexivity|].
  destruct (N.eqb_spec c quot) as [-> | Hquot]; [reflexivity|].
  destruct (N.eqb_spec c apos) as [-> | Hapos]; [reflexivity|].
  unfold replace_char. simpl.
  apply N.eqb_neq in Hnl. rewrite Hnl. reflexivity.
Qed.

Lemma replace_runs_entity_of (r s : jsstring) (c : N) (pending : nat) :
  replace_runs_go r (entity_of c ++ s) pending
  = if N.eqb c newline then replace_runs_go r s (S pending)
    else flush_run r pending ++ entity_of c ++ replace_runs_go r s 0.
Proof.
  unfold entity_of.
  destruct (N.eqb_spec c amp) as [-> | Hamp]; [reflexivity|].
  destruct (N.eqb_spec c lt) as [-> | Hlt]; [reflexivity|].
  destruct (N.eqb_spec c gt) as [-> | Hgt]; [reflexivity|].
  destruct (N.eqb_spec c quot) as [-> | Hquot]; [reflexivity|].
  destruct (N.eqb_spec c apos) as [-> | Hapos]; [reflexivity|].
  reflexivity.
Qed.

Lemma safe_flushed_run (pending : nat) :
  SafeMarkup
    (replace_char newline (lit "<br>") (flush_run (lit "</p><p>") pending)).
Proof.
  destruct pending as [|[|n]].
  - apply markup_nil.
  - apply safe_tag_br.
  - apply safe_paragraph_break.
Qed.

Lemma safe_formatted_runs (text : jsstring) :
  forall pending,
    SafeMarkup
      (replace_char newline (lit "<br>")
         (replace_runs_go (lit "</p><p>") (escapeHtml_local text) pending)).
Proof.
  induction text as [|c rest IH]; intros pending.
  - apply safe_flushed_run.
  - rewrite escapeHtml_local_cons, replace_runs_entity_of.
    destruct (N.eqb_spec c newline) as [Hnl | Hnl]; [apply IH|].
    rewrite !replace_char_app, replace_newline_entity_of.
    apply markup_app; [apply safe_flushed_run|].
    apply markup_app; [apply safe_entity_or_br | apply IH].
Qed.

Lemma replace_newline_flushed (pending : nat) :
  replace_char newline (lit "<br>") (flush_run (lit "</p><p>") pending)
  = line_break pending.
Proof. destruct pending as [|[|n]]; reflexivity. Qed.

Lemma formatted_runs_chars (text : jsstring) :
  forall pending,
    replace_char newline (lit "<br>")
      (replace_runs_go (lit "</p><p>") (escapeHtml_local text) pending)
    = text_runs text pending.
Proof.
  induction text as [|c rest IH]; intros pending.
  - apply replace_newline_flushed.
  - rewrite escapeHtml_local_cons, replace_runs_entity_of.
    cbn [text_runs].
    destruct (N.eqb_spec c newline) as [Hnl | Hnl]; [apply IH|].
    rewrite !replace_char_app, replace_newline_flushed,
      replace_newline_entity_of, IH.
    unfold entity_or_br. apply N.eqb_neq in Hnl. rewrite Hnl. reflexivity.
Qed.

(** The markup of body text, character by character. *)
Lemma formatText_chars (text : jsstring) :
  formatText text
  = let body := text_runs text 0 in
    if includes (lit "</p><p>") body
    then lit "<p>" ++ body ++ lit "</p>"
    else body.
Proof.
  unfold formatText, replace_newline_runs.
  rewrite formatted_runs_chars. reflexivity.
Qed.

(** The markup of body text holds the special characters of the text as
    entities only. *)
Lemma formatText_safe (text : jsstring) : SafeMarkup (formatText text).
Proof.
  unfold formatText, replace_newline_runs.
  destruct (includes _ _).
  - apply markup_app; [apply safe_tag_p|].
    apply markup_app; [apply safe_formatted_runs | apply safe_tag_p_end].
  - apply safe_formatted_runs.
Qed.

(** *** Escaping commutes with splitting and trimming *)

Lemma entity_of_newline : entity_of newline = [newline].
Proof. reflexivity. Qed.

Lemma entity_of_no_newline (c : N) :
  c <> newline -> Forall (fun x => x <> newline) (entity_of c).
Proof.
  intros Hc. unfold entity_of.
  destruct (N.eqb_spec c amp) as [-> | Hamp];
    [repeat constructor; discriminate|].
  destruct (N.eqb_spec c lt) as [-> | Hlt];
    [repeat constructor; discriminate|].
  destruct (N.eqb_spec c gt) as [-> | Hgt];
    [repeat constructor; discriminate|].
  destruct (N.eqb_spec c quot) as [-> | Hquot];
    [repeat constructor; discriminate|].
  destruct (N.eqb_spec c apos) as [-> | Hapos];
    [repeat constructor; discriminate|].
  repeat constructor. exact Hc.
Qed.

Lemma split_go_no_newline (e s cur : jsstring) :
  Forall (fun x => x <> newline) e ->
  split_go paragraph_sep (e ++ s) 0 cur
  = split_go paragraph_sep s 0 (rev e ++ cur).
Proof.
  intros He. revert cur.
  induction He as [|x e Hx _ IH]; intros cur; [reflexivity|].
  assert (Hx' : N.eqb newline x = false) by (apply N.eqb_neq; congruence).
  cbn [app split_go starts_with paragraph_sep]. rewrite Hx'. cbn [andb].
  fold paragraph_sep. rewrite IH. cbn [rev]. rewrite <- app_assoc.
  reflexivity.
Qed.

Lemma rev_flat_map {A B} (f : A -> list B) (l : list A) :
  rev (flat_map f l) = flat_map (fun x => rev (f x)) (rev l).
Proof.
  induction l as [|x r IH]; [reflexivity|].
  simpl. rewrite rev_app_distr, IH, flat_map_app. simpl.
  rewrite app_nil_r. reflexivity.
Qed.

Lemma escaped_cur_cons (c : N) (cur : jsstring) :
  escaped_cur (c :: cur) = rev (entity_of c) ++ escaped_cur cur.
Proof.
  unfold escaped_cur. simpl.
  rewrite flat_map_app, rev_app_distr. simpl.
  rewrite app_nil_r. reflexivity.
Qed.

Lemma starts_with_newline_escaped (s : jsstring) :
  starts_with [newline] (flat_map entity_of s) = starts_with [newline] s.
Proof.
  destruct s as [|d r]; [reflexivity|].
  simpl. unfold entity_of.
  destruct (N.eqb_spec d amp) as [-> | Hamp]; [reflexivity|].
  destruct (N.eqb_spec d lt) as [-> | Hlt]; [reflexivity|].
  destruct (N.eqb_spec d gt) as [-> | Hgt]; [reflexivity|].
  destruct (N.eqb_spec d quot) as [-> | Hquot]; [reflexivity|].
  destruct (N.eqb_spec d apos) as [-> | Hapos]; [reflexivity|].
  reflexivity.
Qed.

Lemma split_go_cons0 (sep : jsstring) (c : N) (r cur : jsstring) :
  split_go sep (c :: r) 0 cur
  = if starts_with sep (c :: r)
    then rev cur :: split_go sep r (List.length sep - 1) []
    else split_go sep r 0 (c :: cur).
Proof. reflexivity. Qed.

Lemma starts_with_sep_newline (s : jsstring) :
  starts_with paragraph_sep (newline :: s) = starts_with [newline] s.
Proof. reflexivity. Qed.

Lemma starts_with_newline_inv (s : jsstring) :
  starts_with [newline] s = true -> exists r, s = newline :: r.
Proof.
  destruct s as [|d r]; [discriminate|].
  cbn [starts_with]. rewrite andb_true_r.
  intros H. apply N.eqb_eq in H. subst d. exists r. reflexivity.
Qed.

Lemma split_go_escaped (s : jsstring) :
  forall skip cur,
    skip = 0%nat \/ (skip = 1%nat /\ exists r, s = newline :: r) ->
    split_go paragraph_sep (flat_map entity_of s) skip (escaped_cur cur)
    = map (flat_map entity_of) (split_go paragraph_sep s skip cur).
Proof.
  induction s as [|c r IH]; intros skip cur Hskip.
  - simpl. unfold escaped_cur. rewrite rev_involutive. reflexivity.
  - destruct Hskip as [-> | [-> [r' Hr']]].
    + destruct (N.eqb_spec c newline) as [-> | Hc].
      * change (flat_map entity_of (newline :: r))
          with (newline :: flat_map entity_of r).
        rewrite !split_go_cons0, !starts_with_sep_newline,
          starts_with_newline_escaped.
        destruct (starts_with [newline] r) eqn:Hsw.
        -- cbn [map]. f_equal.
           ++ unfold escaped_cur. rewrite rev_involutive. reflexivity.
           ++ change (@nil N) with (escaped_cur []) at 1.
              apply IH. right. split; [reflexivity|].
              apply starts_with_newline_inv. exact Hsw.
        -- rewrite <- (IH 0%nat (newline :: cur)) by (left; reflexivity).
           rewrite escaped_cur_cons. reflexivity.
      * cbn [flat_map]. rewrite split_go_no_newline
          by (apply entity_of_no_newline; exact Hc).
        assert (Hc' : N.eqb newline c = false)
          by (apply N.eqb_neq; congruence).
        rewrite split_go_cons0.
        cbn [starts_with paragraph_sep]. rewrite Hc'. cbn [andb].
        fold paragraph_sep.
        rewrite <- escaped_cur_cons. apply IH. left; reflexivity.
    + injection Hr' as -> ->.
      change (flat_map entity_of (newline :: r'))
        with (newline :: flat_map entity_of r').
      cbn [split_go]. apply IH. left; reflexivity.
Qed.

Lemma split_escaped (s : jsstring) :
  split paragraph_sep (flat_map entity_of s)
  = map (flat_map entity_of) (split paragraph_sep s).
Proof.
  unfold split. change (@nil N) with (escaped_cur []) at 1.
  apply split_go_escaped. left; reflexivity.
Qed.

Section TrimFlatMap.

(** A rendering of characters that leaves white space alone and begins
    what it writes for any other character with something else than white
    space. *)
Variable g : N -> jsstring.
Hypothesis g_space : forall c, is_space c = true -> g c = [c].
Hypothesis g_other :
  forall c, is_space c = false ->
            exists x r, g c = x :: r /\ is_space x = false.

Lemma trimStart_flat_map (s : jsstring) :
  trimStart (flat_map g s) = flat_map g (trimStart s).
Proof.
  induction s as [|c r IH]; [reflexivity|].
  cbn [flat_map trimStart].
  destruct (is_space c) eqn:Hc.
  - rewrite (g_space c Hc). cbn [app trimStart]. rewrite Hc. exact IH.
  - destruct (g_other c Hc) as [x [t [Hg Hx]]].
    cbn [flat_map]. rewrite Hg. cbn [app trimStart]. rewrite Hx.
    reflexivity.
Qed.

End TrimFlatMap.

Lemma is_space_not_special (c : N) :
  is_space c = true -> entity_of c = [c].
Proof.
  intros Hc. unfold entity_of.
  destruct (N.eqb_spec c amp) as [-> | _]; [discriminate|].
  destruct (N.eqb_spec c lt) as [-> | _]; [discriminate|].
  destruct (N.eqb_spec c gt) as [-> | _]; [discriminate|].
  destruct (N.eqb_spec c quot) as [-> | _]; [discriminate|].
  destruct (N.eqb_spec c apos) as [-> | _]; [discriminate|].
  reflexivity.
Qed.

Lemma entity_of_head (c : N) :
  is_space c = false ->
  exists x r, entity_of c = x :: r /\ is_space x = false.
Proof.
  intros Hc. unfold entity_of.
  destruct (N.eqb_spec c amp) as [-> | _]; [do 2 eexists; split; reflexivity|].
  destruct (N.eqb_spec c lt) as [-> | _]; [do 2 eexists; split; reflexivity|].
  destruct (N.eqb_spec c gt) as [-> | _]; [do 2 eexists; split; reflexivity|].
  destruct (N.eqb_spec c quot) as [-> | _]; [do 2 eexists; split; reflexivity|].
  destruct (N.eqb_spec c apos) as [-> | _]; [do 2 eexists; split; reflexivity|].
  do 2 eexists; split; [reflexivity | exact Hc].
Qed.

Lemma entity_of_last (c : N) :
  is_space c = false ->
  exists x r, rev (entity_of c) = x :: r /\ is_space x = false.
Proof.
  intros Hc. unfold entity_of.
  destruct (N.eqb_spec c amp) as [-> | _]; [do 2 eexists; split; reflexivity|].
  destruct (N.eqb_spec c lt) as [-> | _]; [do 2 eexists; split; reflexivity|].
  destruct (N.eqb_spec c gt) as [-> | _]; [do 2 eexists; split; reflexivity|].
  destruct (N.eqb_spec c quot) as [-> | _]; [do 2 eexists; split; reflexivity|].
  destruct (N.eqb_spec c apos) as [-> | _]; [do 2 eexists; split; reflexivity|].
  do 2 eexists; split; [reflexivity | exact Hc].
Qed.

Lemma trim_escaped (s : jsstring) :
  trim (flat_map entity_of s) = flat_map entity_of (trim s).
Proof.
  unfold trim, trimEnd.
  rewrite (trimStart_flat_map entity_of is_space_not_special entity_of_head).
  rewrite rev_flat_map.
  rewrite (trimStart_flat_map (fun c => rev (entity_of c))).
  - rewrite rev_flat_map. apply flat_map_ext. intros c. apply rev_involutive.
  - intros c Hc. rewrite (is_space_not_special c Hc). reflexivity.
  - exact entity_of_last.
Qed.

Lemma truthy_escaped (s : jsstring) :
  truthy (flat_map entity_of s) = truthy s.
Proof.
  destruct s as [|c r]; [reflexivity|].
  cbn [flat_map truthy].
  destruct (entity_of c) as [|x t] eqn:He; [|reflexivity].
  exfalso. revert He. unfold entity_of.
  repeat (match goal with
          | |- context [N.eqb ?a ?b] => destruct (N.eqb a b)
          end); discriminate.
Qed.

Lemma filter_map_comm {A B} (f : B -> bool) (g : A -> B) (l : list A) :
  filter f (map g l) = map g (filter (fun x => f (g x)) l).
Proof.
  induction l as [|x r IH]; [reflexivity|].
  simpl. destruct (f (g x)); simpl; rewrite IH; reflexivity.
Qed.

Lemma replace_newline_escaped (s : jsstring) :
  replace_char newline (lit "<br>") (flat_map entity_of s)
  = flat_map entity_or_br s.
Proof.
  induction s as [|c r IH]; [reflexivity|].
  cbn [flat_map]. rewrite replace_char_app, replace_newline_entity_of, IH.
  reflexivity.
Qed.

(** The markup of a summary, paragraph by paragraph and character by
    character. *)
Lemma formatSummary_chars (summary : jsstring) :
  formatSummary summary
  = join []
      (map (fun p => lit "<p>" ++ flat_map entity_or_br p ++ lit "</p>")
           (summary_paragraphs summary)).
Proof.
  unfold formatSummary, summary_paragraphs. fold paragraph_sep.
  rewrite escapeHtml_local_chars, split_escaped, filter_map_comm.
  rewrite !map_map. f_equal.
  rewrite (filter_ext (fun x => truthy (trim (flat_map entity_of x)))
                      (fun p => truthy (trim p))).
  - apply map_ext. intros p.
    rewrite trim_escaped, replace_newline_escaped. reflexivity.
  - intros p. rewrite trim_escaped. apply truthy_escaped.
Qed.

Lemma safe_join_nil (parts : list jsstring) :
  Forall SafeMarkup parts -> SafeMarkup (join [] parts).
Proof.
  induction 1 as [|p rest Hp Hrest IH]; [apply markup_nil|].
  destruct rest as [|p' rest']; [exact Hp|].
  change (join [] (p :: p' :: rest')) with (p ++ [] ++ join [] (p' :: rest')).
  apply markup_app; [exact Hp | exact IH].
Qed.

(** The markup of a summary holds the special characters of the summary
    as entities only. *)
Lemma formatSummary_safe (summary : jsstring) :
  SafeMarkup (formatSummary summary).
Proof.
  rewrite formatSummary_chars. apply safe_join_nil.
  apply Forall_map. apply Forall_forall. intros p _.
  apply markup_app; [apply safe_tag_p|].
  apply markup_app; [|apply safe_tag_p_end].
  apply markup_flat_map. exact safe_entity_or_br.
Qed.

(** *** Breadcrumb segments and error messages *)

Lemma serialized_text_char (c : N) : SerializedText (serialize_text_char c).
Proof.
  unfold serialize_text_char.
  destruct (N.eqb_spec c amp) as [-> | Hamp];
    [apply markup_one_entity; in_list|].
  destruct (N.eqb_spec c nbsp) as [-> | Hnbsp];
    [apply markup_one_entity; in_list|].
  destruct (N.eqb_spec c lt) as [-> | Hlt];
    [apply markup_one_entity; in_list|].
  destruct (N.eqb_spec c gt) as [-> | Hgt];
    [apply markup_one_entity; in_list|].
  apply markup_one_plain.
  apply N.eqb_neq in Hamp, Hlt, Hgt. rewrite Hamp, Hlt, Hgt. reflexivity.
Qed.

Lemma escapeHtml_serialized (part : jsstring) :
  SerializedText (escapeHtml part).
Proof. apply markup_flat_map. exact serialized_text_char. Qed.

(** The predicates do exclude live markup: an element of the input written
    as it is would not pass. *)
Lemma script_tag_is_not_safe : ~ SafeMarkup (lit "<script>").
Proof.
  intros H. inversion H as [| c s Hc _ | e s He _ Heq | t s Ht _ Heq].
  - discriminate Hc.
  - simpl in He.
    repeat (destruct He as [<- | He]; [discriminate Heq|]). exact He.
  - simpl in Ht.
    repeat (destruct Ht as [<- | Ht]; [discriminate Heq|]). exact Ht.
Qed.


(** ** Breadcrumbs *)

Lemma mapi_from_app {A B} (f : A -> nat -> B) (a b : list A) :
  forall i,
    mapi_from f i (a ++ b)
    = mapi_from f i a ++ mapi_from f (i + List.length a) b.
Proof.
  induction a as [|x r IH]; intros i; simpl.
  - rewrite Nat.add_0_r. reflexivity.
  - rewrite IH. do 3 f_equal. lia.
Qed.

Lemma mapi_from_ext_below {A B} (f g : A -> nat -> B) (l : list A) (bound : nat) :
  (forall x i, (i < bound)%nat -> f x i = g x i) ->
  forall i, (i + List.length l <= bound)%nat ->
            mapi_from f i l = mapi_from g i l.
Proof.
  intros Hfg. induction l as [|x r IH]; intros i Hi; [reflexivity|].
  simpl in *. rewrite Hfg by lia. rewrite IH by lia. reflexivity.
Qed.

Lemma breadcrumbParts_trail (md : ResultMetadata) :
  breadcrumbParts md = trail md.
Proof.
  unfold breadcrumbParts, trail, heading_text, truthy_field. simpl.
  destruct (h1 md) as [s1|], (h2 md) as [s2|], (h3 md) as [s3|];
    try destruct (truthy s1); try destruct (truthy s2);
    try destruct (truthy s3); reflexivity.
Qed.

(** Before the last index every segment is a span. *)
Lemma breadcrumb_item_inner (sourceLink : option jsstring) (count : nat)
    (part : jsstring) (index : nat) :
  (index < count - 1)%nat ->
  breadcrumb_item sourceLink count part index = breadcrumb_span index part.
Proof.
  intros Hi. unfold breadcrumb_item.
  destruct (Nat.eqb_spec index (count - 1)) as [Heq | _]; [lia|].
  destruct (truthy_field sourceLink); reflexivity.
Qed.

Lemma breadcrumb_item_last (sourceLink : option jsstring) (count : nat)
    (part : jsstring) :
  breadcrumb_item sourceLink count part (count - 1)
  = match truthy_field sourceLink with
    | Some link => breadcrumb_link link (count - 1) part
    | None => breadcrumb_span (count - 1) part
    end.
Proof.
  unfold breadcrumb_item. rewrite Nat.eqb_refl.
  destruct (truthy_field sourceLink); reflexivity.
Qed.

Lemma generateBreadcrumbs_trail (md : ResultMetadata)
    (sourceLink : option jsstring) (init : list jsstring) (last : jsstring) :
  trail md = init ++ [last] ->
  generateBreadcrumbs (Some md) sourceLink
  = Some (join breadcrumb_separator
            (mapi (fun part index => breadcrumb_span index part) init
             ++ [match truthy_field sourceLink with
                 | Some link => breadcrumb_link link (List.length init) last
                 | None => breadcrumb_span (List.length init) last
                 end])).
Proof.
  intros Htrail. unfold generateBreadcrumbs.
  rewrite breadcrumbParts_trail, Htrail. clear Htrail.
  destruct (init ++ [last]) as [|p ps] eqn:Hparts;
    [destruct init; discriminate|].
  rewrite <- Hparts. clear p ps Hparts.
  do 2 f_equal. unfold mapi.
  rewrite mapi_from_app, length_app. simpl.
  replace (List.length init + 1)%nat with (S (List.length init)) by lia.
  f_equal.
  - apply mapi_from_ext_below with (bound := List.length init); [|lia].
    intros x i Hi. apply breadcrumb_item_inner. lia.
  - f_equal. cbn [Nat.add].
    assert (Hlast := breadcrumb_item_last sourceLink
                       (S (List.length init)) last).
    replace (S (List.length init) - 1)%nat with (List.length init) in Hlast
      by lia.
    exact Hlast.
Qed.

(** C8, as the code has it: the trail is made of those of [h1], [h2],
    [h3] that are present and not the empty string, in that order; with no
    such heading the result is the standalone link when a source link was
    resolved and [null] otherwise, and [null] leaves the breadcrumb region
    out of the result; with at least one such heading every segment but
    the last is a plain span, and the last one is a link to the source
    link when there is one and a plain span when there is none. *)
Theorem breadcrumbs_rule (md : ResultMetadata) (sourceLink : option jsstring) :
  breadcrumbParts md = trail md
  /\ (trail md = [] ->
      generateBreadcrumbs (Some md) sourceLink
      = option_map source_link_main (truthy_field sourceLink))
  /\ (forall init last,
        trail md = init ++ [last] ->
        generateBreadcrumbs (Some md) sourceLink
        = Some (join breadcrumb_separator
                  (mapi (fun part index => breadcrumb_span index part) init
                   ++ [match truthy_field sourceLink with
                       | Some link =>
                           breadcrumb_link link (List.length init) last
                       | None => breadcrumb_span (List.length init) last
                       end])))
  /\ generateBreadcrumbs None sourceLink = None
  /\ breadcrumbs_block None = [].
Proof.
  split; [apply breadcrumbParts_trail|].
  split.
  - intros Hnone. unfold generateBreadcrumbs.
    rewrite breadcrumbParts_trail, Hnone.
    destruct (truthy_field sourceLink); reflexivity.
  - split; [|split; reflexivity].
    intros init last Htrail. apply generateBreadcrumbs_trail. exact Htrail.
Qed.

(** C8 at the metadata [{h1: "A", h3: "C"}], a trail of two plain
    segments, and at metadata without headings, with a source path (the
    standalone link) and without (no breadcrumbs). *)
Lemma breadcrumbs_rule_witness :
  generateBreadcrumbs (Some metadata_A_C) None
  = Some (breadcrumb_span 0 (lit "A") ++ breadcrumb_separator
          ++ breadcrumb_span 1 (lit "C"))
  /\ generateBreadcrumbs (Some metadata_source_only)
       (generateSourceLink (Some metadata_source_only))
     = Some (source_link_main (lit "https://yandex.ru/support/market/ru/faq"))
  /\ generateBreadcrumbs (Some metadata_nothing)
       (generateSourceLink (Some metadata_nothing))
     = None.
Proof.
  split; [|split].
  - apply (proj1 (proj2 (proj2 (breadcrumbs_rule metadata_A_C None)))
             [lit "A"] (lit "C")).
    reflexivity.
  - apply (proj1 (proj2 (breadcrumbs_rule metadata_source_only
                           (generateSourceLink (Some metadata_source_only))))).
    reflexivity.
  - apply (proj1 (proj2 (breadcrumbs_rule metadata_nothing
                           (generateSourceLink (Some metadata_nothing))))).
    reflexivity.
Defined.

(** C8 as stated fails for a heading that is present and empty: it is
    skipped like an absent one, so that [{h1: "", h2: "B"}] gives the one
    segment "B", and [{h1: "", source_path: "faq"}] gives the standalone
    link although a heading is present. *)
Lemma empty_heading_is_skipped :
  h1 metadata_empty_h1 = Some []
  /\ breadcrumbParts metadata_empty_h1 = [lit "B"]
  /\ generateBreadcrumbs (Some metadata_empty_h1) None
     = Some (breadcrumb_span 0 (lit "B"))
  /\ h1 metadata_empty_h1_source = Some []
  /\ generateBreadcrumbs (Some metadata_empty_h1_source)
       (generateSourceLink (Some metadata_empty_h1_source))
     = Some (source_link_main (lit "https://yandex.ru/support/market/ru/faq")).
Proof. repeat split. Qed.

(** ** The address bar *)

Lemma params_delete_idem (name : jsstring) (ps : list (jsstring * jsstring)) :
  params_delete name (params_delete name ps) = params_delete name ps.
Proof.
  unfold params_delete. induction ps as [|p r IH]; [reflexivity|].
  simpl. destruct (named name p) eqn:Hp; simpl; [exact IH|].
  rewrite Hp. simpl. rewrite IH. reflexivity.
Qed.

(** The conversion to a [USVString] keeps a well-formed string and never
    empties a string. *)
Lemma to_usv_well_formed (s : jsstring) :
  isWellFormed s = true -> to_usv s = s.
Proof.
  assert (H : forall n (s : jsstring), (List.length s <= n)%nat ->
              isWellFormed s = true -> to_usv s = s).
  { induction n as [|n IH]; intros [|c r] Hn Hw; try reflexivity;
      simpl in Hn; [lia|].
    simpl in *. destruct (is_lead c).
    - destruct r as [|d r']; [discriminate|].
      apply andb_prop in Hw as [Hd Hr]. rewrite Hd.
      rewrite (IH r'); [reflexivity| simpl in Hn; lia | exact Hr].
    - apply andb_prop in Hw as [Hc Hr].
      destruct (is_trail c); [discriminate|].
      rewrite (IH r); [reflexivity| lia | exact Hr]. }
  apply (H (List.length s)). lia.
Qed.

Lemma to_usv_truthy (s : jsstring) : truthy (to_usv s) = truthy s.
Proof.
  destruct s as [|c r]; [reflexivity|]. simpl.
  destruct (is_lead c).
  - destruct r as [|d r']; [reflexivity|]. destruct (is_trail d); reflexivity.
  - destruct (is_trail c); reflexivity.
Qed.

Lemma jsstring_eqb_refl (s : jsstring) : Js.eqb s s = true.
Proof.
  induction s as [|c r IH]; [reflexivity|].
  simpl. rewrite N.eqb_refl. exact IH.
Qed.

(** [set] leaves the pairs of other names as they are, in their order. *)
Lemma set_pair_others (name value : jsstring) (ps : list (jsstring * jsstring)) :
  params_delete name (set_pair name value ps) = params_delete name ps.
Proof.
  induction ps as [|p r IH]; simpl.
  - unfold named. simpl. rewrite jsstring_eqb_refl. reflexivity.
  - destruct (named name p) eqn:Hp.
    + change (params_delete name ((fst p, value) :: params_delete name r))
        with (if negb (named name (fst p, value))
              then (fst p, value) :: params_delete name (params_delete name r)
              else params_delete name (params_delete name r)).
      unfold named in *. simpl. rewrite Hp. simpl.
      apply params_delete_idem.
    + change (params_delete name (p :: set_pair name value r))
        with (if negb (named name p)
              then p :: params_delete name (set_pair name value r)
              else params_delete name (set_pair name value r)).
      rewrite Hp. simpl. rewrite IH. reflexivity.
Qed.

Lemma params_set_others (name value : jsstring) (ps : list (jsstring * jsstring)) :
  params_delete name (params_set name value ps) = params_delete name ps.
Proof. apply set_pair_others. Qed.

Lemma get_set_pair (name value : jsstring) (ps : list (jsstring * jsstring)) :
  params_get name (set_pair name value ps) = Some value.
Proof.
  induction ps as [|p r IH]; simpl.
  - unfold named. simpl. rewrite jsstring_eqb_refl. reflexivity.
  - destruct (named name p) eqn:Hp; simpl.
    + unfold named in *. simpl. rewrite Hp. reflexivity.
    + rewrite Hp. exact IH.
Qed.

(** What [get] reads after [set] is the converted value. *)
Lemma params_get_set (name value : jsstring) (ps : list (jsstring * jsstring)) :
  params_get name (params_set name value ps) = Some (to_usv value).
Proof. apply get_set_pair. Qed.

Lemma params_delete_none (name : jsstring) (ps : list (jsstring * jsstring)) :
  filter (named name) (params_delete name ps) = [].
Proof.
  unfold params_delete. induction ps as [|p r IH]; [reflexivity|].
  simpl. destruct (named name p) eqn:Hp; simpl; [exact IH|].
  rewrite Hp. exact IH.
Qed.

(** After [set] there is one pair of that name. *)
Lemma params_set_once (name value : jsstring) (ps : list (jsstring * jsstring)) :
  List.length (filter (named name) (params_set name value ps)) = 1%nat.
Proof.
  unfold params_set. generalize (to_usv value) as v. intros v.
  induction ps as [|p r IH]; simpl.
  - unfold named. simpl. rewrite jsstring_eqb_refl. reflexivity.
  - destruct (named name p) eqn:Hp; simpl.
    + rewrite params_delete_none.
      unfold named in *. simpl. rewrite Hp. reflexivity.
    + rewrite Hp. exact IH.
Qed.

(** A lone lead surrogate reaches the address bar and the shareable URL as
    U+FFFD, while the state of the history entry keeps it. *)
Example updateUrl_lone_surrogate :
  let w' := updateUrl [97; 55357]%N window_lang_q in
  params_get q (searchParams (location w')) = Some [97; 65533]%N
  /\ map state_query (history w') = [[97; 55357]%N]
  /\ searchParams (getShareableUrl [97; 55357]%N window_lang_q)
     = [(q, [97; 65533]%N)]
  /\ params_get q (searchParams (location
       (updateUrl [55357; 56832]%N window_lang_q))) = Some [55357; 56832]%N.
Proof. vm_compute. repeat split. Qed.

(** C10: [updateUrl] with a non-empty query pushes an entry whose URL has
    the origin, the path and the fragment of the current one and the same
    parameters of every other name in the same order, with exactly one
    [q]; its value is the query as [URLSearchParams] converts it, which is
    the query itself when it is well formed.  The shareable URL has the
    origin and the path of the current one and the single parameter [q]
    with that value. *)
Theorem updateUrl_touches_only_q (query : jsstring) (w : Window) :
  truthy query = true ->
  let url := location w in
  let url' := location (updateUrl query w) in
  origin url' = origin url
  /\ pathname url' = pathname url
  /\ hash url' = hash url
  /\ params_delete q (searchParams url') = params_delete q (searchParams url)
  /\ params_get q (searchParams url') = Some (to_usv query)
  /\ (isWellFormed query = true ->
      params_get q (searchParams url') = Some query)
  /\ List.length (filter (named q) (searchParams url')) = 1%nat
  /\ history (updateUrl query w)
     = {| state_query := query; entry_url := url' |} :: history w
  /\ getShareableUrl query w
     = {| origin := origin url; pathname := pathname url;
          searchParams := [(q, to_usv query)]; hash := [] |}.
Proof.
  intros Hq. unfold updateUrl. rewrite Hq. simpl.
  repeat split.
  - apply params_set_others.
  - apply params_get_set.
  - intros Hw. rewrite params_get_set, (to_usv_well_formed _ Hw). reflexivity.
  - apply params_set_once.
Qed.

(** C10 at a location with the parameters lang=ru, q=old, q=dup, page=2
    and the query "new". *)
Lemma updateUrl_touches_only_q_witness :
  searchParams (location (updateUrl (lit "new") window_lang_q))
  = [(lit "lang", lit "ru"); (lit "q", lit "new"); (lit "page", lit "2")]
  /\ params_delete q (searchParams (location (updateUrl (lit "new") window_lang_q)))
     = params_delete q (searchParams (location window_lang_q))
  /\ params_get q (searchParams (location (updateUrl (lit "new") window_lang_q)))
     = Some (lit "new")
  /\ searchParams (getShareableUrl (lit "new") window_lang_q)
     = [(q, lit "new")].
Proof.
  split; [reflexivity|].
  pose proof (updateUrl_touches_only_q (lit "new") window_lang_q eq_refl)
    as [_ [_ [_ [Hothers [_ [Hwf [_ [_ Hshare]]]]]]]].
  split; [exact Hothers|].
  split; [exact (Hwf eq_refl)|].
  rewrite Hshare. reflexivity.
Defined.

(** ** The Result Renderer *)

Section Renderer.

Context {host : Host}.

Lemma forEach_result_appends (rs : list SearchResult) :
  forall i a,
    forEach_result rs i a
    = set_contents (fun c =>
        {| errorText := errorText c; resultsCount := resultsCount c;
           resultsList := resultsList c ++ result_elements i rs;
           summaryContent := summaryContent c |}) a.
Proof.
  induction rs as [|r rest IH]; intros i a.
  - destruct a as [s c [et rc rl sc] srch w rq sp].
    unfold set_contents. simpl. rewrite app_nil_r. reflexivity.
  - cbn [forEach_result]. rewrite IH.
    destruct a as [s c [et rc rl sc] srch w rq sp].
    unfold appendChild, set_contents. simpl.
    rewrite <- app_assoc. reflexivity.
Qed.

(** What [displayResults] leaves in the list of results: the elements of
    the response and nothing of what the list held, unless the response is
    empty, when the (hidden) list is not touched. *)
Lemma displayResults_resultsList (data : SearchResponse) (a : SearchApp) :
  resultsList (contents (displayResults data a))
  = match results data with
    | [] => resultsList (contents a)
    | _ :: _ => result_elements 0 (results data)
    end.
Proof.
  unfold displayResults.
  destruct (results data) as [|r rest]; [reflexivity|].
  rewrite forEach_result_appends.
  destruct (truthy_field (summary data)); reflexivity.
Qed.

Lemma displayResults_idempotent (data : SearchResponse) (a : SearchApp) :
  displayResults data (displayResults data a) = displayResults data a.
Proof.
  unfold displayResults.
  destruct (results data) as [|r rest]; [reflexivity|].
  rewrite !forEach_result_appends.
  destruct a as [s c [et rc rl sc] srch w rq sp].
  destruct (truthy_field (summary data)); reflexivity.
Qed.

End Renderer.

(** C9: rendering the same response twice leaves the page as rendering it
    once does.  The sections shown after a call depend on the response
    alone, and the list of results holds the elements of the response and
    nothing else (an empty response shows the empty state and leaves the
    hidden list alone), so nothing accumulates. *)
Theorem displayResults_twice_is_once {host : Host} (data : SearchResponse)
    (a : SearchApp) :
  displayResults data (displayResults data a) = displayResults data a
  /\ (forall b, sections (displayResults data a)
                = sections (displayResults data b))
  /\ resultsList (contents (displayResults data a))
     = match results data with
       | [] => resultsList (contents a)
       | _ :: _ => result_elements 0 (results data)
       end.
Proof.
  split; [apply displayResults_idempotent|].
  split; [|apply displayResults_resultsList].
  intros b. unfold displayResults.
  destruct (results data) as [|r rest]; [reflexivity|].
  rewrite !forEach_result_appends.
  destruct (truthy_field (summary data)); reflexivity.
Qed.

(** ** The Search Session Controller *)

Lemma performSearch_rejected (queryFromUrl : option jsstring) (a : SearchApp) :
  truthy (effective_query queryFromUrl a) = false ->
  performSearch queryFromUrl a = showError text_enter_query a.
Proof. intros H. unfold performSearch. rewrite H. reflexivity. Qed.

Lemma performSearch_dropped (queryFromUrl : option jsstring) (a : SearchApp) :
  truthy (effective_query queryFromUrl a) = true ->
  isSearching a = true ->
  performSearch queryFromUrl a = a.
Proof. intros Hq Hs. unfold performSearch. rewrite Hq, Hs. reflexivity. Qed.

Lemma performSearch_accepted (queryFromUrl : option jsstring) (a : SearchApp) :
  truthy (effective_query queryFromUrl a) = true ->
  isSearching a = false ->
  let query := effective_query queryFromUrl a in
  let a' := performSearch queryFromUrl a in
  isSearching a' = true
  /\ suspended a' = suspended a ++ [AwaitingResponse]
  /\ requests a' = query :: requests a
  /\ window a' = updateUrl query (window a)
  /\ loadingSpinner_hidden (sections a') = false
  /\ searchInput_disabled (controls a') = true
  /\ searchButton_disabled (controls a') = true.
Proof.
  intros Hq Hs. unfold performSearch. rewrite Hq, Hs. simpl.
  destruct (truthy_field queryFromUrl); repeat split.
Qed.

Section Sessions.

Context {host : Host}.

Lemma displayResults_same_session (data : SearchResponse) (a : SearchApp) :
  same_session a (displayResults data a).
Proof.
  unfold same_session, displayResults.
  destruct (results data) as [|r rest]; [repeat split|].
  rewrite forEach_result_appends.
  destruct (truthy_field (summary data)); repeat split.
Qed.

Lemma finish_same_session (body : M unit) (a : SearchApp) :
  same_session a (snd (body a)) -> same_session a (finish body a).
Proof.
  unfold finish, try_catch_finally, same_session.
  destruct (body a) as [[[] | e] a1]; cbn; intros H; exact H.
Qed.

Lemma finish_throw_same_session (m : Error) (a : SearchApp) :
  same_session a (finish (throw m) a).
Proof. apply finish_same_session. repeat split. Qed.

Lemma finish_after_body_same_session (ok : bool) (r : BodyResult)
    (a : SearchApp) :
  same_session a (finish (try_after_body ok r) a).
Proof.
  apply finish_same_session. unfold try_after_body, bind.
  destruct r as [data | m]; cbn; [|repeat split].
  destruct ok; cbn; [|repeat split].
  destruct (success data); cbn; [|repeat split].
  exact (displayResults_same_session data a).
Qed.

(** The [finally] block has the last word, whatever the [try] block did. *)
Lemma finish_cleaned_up (body : M unit) (a : SearchApp) :
  cleaned_up (finish body a).
Proof.
  unfold finish, try_catch_finally.
  destruct (body a) as [[[] | e] a1]; cbn; repeat split.
Qed.

Lemma showError_keeps_flight (m : jsstring) (a : SearchApp) :
  isSearching (showError m a) = isSearching a
  /\ suspended (showError m a) = suspended a.
Proof. split; reflexivity. Qed.

Lemma performSearch_single_flight (queryFromUrl : option jsstring)
    (a : SearchApp) :
  single_flight a -> single_flight (performSearch queryFromUrl a).
Proof.
  intros Hinv.
  destruct (truthy (effective_query queryFromUrl a)) eqn:Hq.
  - destruct (isSearching a) eqn:Hs.
    + rewrite performSearch_dropped by assumption. exact Hinv.
    + destruct (performSearch_accepted queryFromUrl a Hq Hs)
        as [Hs' [Hsus _]].
      destruct Hinv as [[Htrue _] | [_ Hnil]]; [congruence|].
      left. split; [exact Hs'|]. rewrite Hsus, Hnil. reflexivity.
  - rewrite performSearch_rejected by assumption.
    unfold single_flight.
    destruct (showError_keeps_flight text_enter_query a) as [-> ->].
    exact Hinv.
Qed.

Lemma loadFromUrl_single_flight (a : SearchApp) :
  single_flight a -> single_flight (loadFromUrl a).
Proof.
  intros Hinv. unfold loadFromUrl.
  destruct (truthy_field _); [|exact Hinv].
  apply performSearch_single_flight. exact Hinv.
Qed.

(** With one suspended call, an index that names a call is 0. *)
Lemma nth_error_single {A} (l : list A) (k : nat) (x : A) :
  List.length l = 1%nat -> nth_error l k = Some x -> k = 0%nat /\ l = [x].
Proof.
  destruct l as [|y [|z r]]; try discriminate. intros _.
  destruct k as [|k]; simpl.
  - intros H. injection H as ->. split; reflexivity.
  - destruct k; discriminate.
Qed.

Lemma step_single_flight (a a' : SearchApp) (e : Event) :
  single_flight a -> step a e = Some a' -> single_flight a'.
Proof.
  intros Hinv Hstep. destruct e as [| url | v | k r | k r]; simpl in Hstep.
  - injection Hstep as <-. apply performSearch_single_flight. exact Hinv.
  - injection Hstep as <-. apply loadFromUrl_single_flight. exact Hinv.
  - injection Hstep as <-. exact Hinv.
  - destruct (nth_error (suspended a) k) as [[| ok]|] eqn:Hk;
      try discriminate.
    destruct Hinv as [[Htrue Hlen] | [_ Hnil]];
      [|rewrite Hnil in Hk; destruct k; discriminate].
    destruct (nth_error_single _ _ Hlen Hk) as [-> Hsus].
    destruct r as [ok | m]; injection Hstep as <-.
    + left. split; [exact Htrue|]. simpl. rewrite Hsus. reflexivity.
    + right. split.
      * apply finish_cleaned_up.
      * destruct (finish_throw_same_session m
                    (set_suspended (remove_at 0) a)) as [_ [_ ->]].
        simpl. rewrite Hsus. reflexivity.
  - destruct (nth_error (suspended a) k) as [[| ok]|] eqn:Hk;
      try discriminate.
    destruct Hinv as [[Htrue Hlen] | [_ Hnil]];
      [|rewrite Hnil in Hk; destruct k; discriminate].
    destruct (nth_error_single _ _ Hlen Hk) as [-> Hsus].
    injection Hstep as <-. right. split.
    + apply finish_cleaned_up.
    + destruct (finish_after_body_same_session ok r
                  (set_suspended (remove_at 0) a)) as [_ [_ ->]].
      simpl. rewrite Hsus. reflexivity.
Qed.

Lemma reachable_single_flight (a : SearchApp) :
  reachable a -> single_flight a.
Proof.
  induction 1 as [s c ct w | a e a' _ IH Hstep].
  - apply loadFromUrl_single_flight. right. split; reflexivity.
  - exact (step_single_flight e IH Hstep).
Qed.

(** C1: a call of [performSearch] with a non-empty query that finds a
    search in flight returns the object as it is, so the log of requests,
    the address bar and the page are as before; and in every state the
    page can reach, the flag is set exactly while one call is suspended,
    and never are two. *)
Theorem single_flight_discipline :
  (forall queryFromUrl a,
     truthy (effective_query queryFromUrl a) = true ->
     isSearching a = true ->
     performSearch queryFromUrl a = a
     /\ requests (performSearch queryFromUrl a) = requests a)
  /\ (forall a, reachable a -> single_flight a).
Proof.
  split.
  - intros queryFromUrl a Hq Hs.
    rewrite (performSearch_dropped queryFromUrl a Hq Hs).
    split; reflexivity.
  - exact reachable_single_flight.
Qed.

End Sessions.

(** C1 on the page where the search for "first" is in flight: a search
    for "second" changes nothing; and that page is one the constructor
    leaves at [?q=first], hence in single flight. *)
Lemma single_flight_discipline_witness :
  performSearch (Some (lit "second")) page_in_flight = page_in_flight
  /\ single_flight
       (created (sections (page [] [])) (controls (page [] []))
          (contents (page [] []))
          {| location :=
               {| origin := lit "https://demo.example"; pathname := lit "/";
                  searchParams := [(q, lit "first")]; hash := [] |};
             history := [] |}).
Proof.
  split.
  - apply (proj1 (@single_flight_discipline host)
             (Some (lit "second")) page_in_flight);
      reflexivity.
  - apply (proj2 (@single_flight_discipline host)).
    apply reachable_created.
Defined.

(** ** Cleanup, the address bar and validation *)

Lemma nth_error_snoc {A} (l : list A) (x : A) :
  nth_error (l ++ [x]) (List.length l) = Some x.
Proof.
  rewrite nth_error_app2 by lia. rewrite Nat.sub_diag. reflexivity.
Qed.

Lemma replace_at_snoc {A} (l : list A) (x y : A) :
  replace_at (List.length l) y (l ++ [x]) = l ++ [y].
Proof.
  unfold replace_at. induction l as [|z r IH]; [reflexivity|].
  simpl. f_equal. exact IH.
Qed.

Section Cleanup.

Context {host : Host}.

(** A rejected [fetch] ends the call in the state [finally] leaves. *)
Lemma fetch_rejected_cleans_up (a : SearchApp) (k : nat) (m : Error) :
  nth_error (suspended a) k = Some AwaitingResponse ->
  exists a', step a (FetchSettled k (FetchRejected m)) = Some a'
             /\ cleaned_up a'.
Proof.
  intros Hk. simpl. rewrite Hk. eexists. split; [reflexivity|].
  apply finish_cleaned_up.
Qed.

(** A response keeps the call suspended, now on the body. *)
Lemma fetch_resolved_awaits_body (a : SearchApp) (k : nat) (ok : bool) :
  nth_error (suspended a) k = Some AwaitingResponse ->
  step a (FetchSettled k (Response ok))
  = Some (set_suspended (replace_at k (AwaitingBody ok)) a).
Proof. intros Hk. simpl. rewrite Hk. reflexivity. Qed.

(** Whatever the body is, and also when reading it fails, the call ends
    in the state [finally] leaves. *)
Lemma body_settled_cleans_up (a : SearchApp) (k : nat) (ok : bool)
    (r : BodyResult) :
  nth_error (suspended a) k = Some (AwaitingBody ok) ->
  exists a', step a (BodySettled k r) = Some a' /\ cleaned_up a'.
Proof.
  intros Hk. simpl. rewrite Hk. eexists. split; [reflexivity|].
  apply finish_cleaned_up.
Qed.

(** C5: an accepted search sets the flag and is suspended on [fetch];
    whether [fetch] is rejected, or the response arrives and its body is
    read or not, reports a failure (by its status or by [success: false])
    or a success, the call ends with the flag reset, the loading indicator
    hidden, and field and button enabled. *)
Theorem guaranteed_cleanup (queryFromUrl : option jsstring) (a : SearchApp) :
  truthy (effective_query queryFromUrl a) = true ->
  isSearching a = false ->
  let a1 := performSearch queryFromUrl a in
  let k := List.length (suspended a) in
  isSearching a1 = true
  /\ (forall m,
        exists a', run a1 [FetchSettled k (FetchRejected m)] = Some a'
                   /\ cleaned_up a')
  /\ (forall ok r,
        exists a',
          run a1 [FetchSettled k (Response ok); BodySettled k r] = Some a'
          /\ cleaned_up a').
Proof.
  intros Hq Hs a1 k.
  destruct (performSearch_accepted queryFromUrl a Hq Hs)
    as [Hs1 [Hsus _]].
  fold a1 in Hs1, Hsus.
  assert (Hk : nth_error (suspended a1) k = Some AwaitingResponse).
  { rewrite Hsus. apply nth_error_snoc. }
  split; [exact Hs1|]. split.
  - intros m. destruct (fetch_rejected_cleans_up a1 k m Hk) as [a' [Hstep Hc]].
    exists a'. cbn [run]. rewrite Hstep. split; [reflexivity | exact Hc].
  - intros ok r. cbn [run].
    rewrite (fetch_resolved_awaits_body a1 k ok Hk).
    set (a2 := set_suspended (replace_at k (AwaitingBody ok)) a1).
    assert (Hk2 : nth_error (suspended a2) k = Some (AwaitingBody ok)).
    { unfold a2. simpl. rewrite Hsus. unfold k.
      rewrite replace_at_snoc. apply nth_error_snoc. }
    destruct (body_settled_cleans_up a2 k r Hk2) as [a' [Hstep Hc]].
    exists a'. rewrite Hstep. split; [reflexivity | exact Hc].
Qed.

(** A run of the [try] block leaves the address bar alone. *)
Lemma settle_keeps_window (a a' : SearchApp) (k : nat) :
  (forall r, step a (FetchSettled k r) = Some a' -> window a' = window a)
  /\ (forall r, step a (BodySettled k r) = Some a' -> window a' = window a).
Proof.
  split; intros r Hstep; simpl in Hstep;
    destruct (nth_error (suspended a) k) as [[| ok]|]; try discriminate.
  - destruct r as [ok | m]; injection Hstep as <-; [reflexivity|].
    destruct (finish_throw_same_session m (set_suspended (remove_at k) a))
      as [-> _]. reflexivity.
  - injection Hstep as <-.
    destruct (finish_after_body_same_session ok r
                (set_suspended (remove_at k) a)) as [-> _].
    reflexivity.
Qed.

(** An accepted search runs to its end on every outcome, and the address
    bar is then as the call left it when it started the request. *)
Lemma accepted_search_settles (queryFromUrl : option jsstring) (a : SearchApp) :
  truthy (effective_query queryFromUrl a) = true ->
  isSearching a = false ->
  let a1 := performSearch queryFromUrl a in
  let k := List.length (suspended a) in
  (forall m,
     exists a', run a1 [FetchSettled k (FetchRejected m)] = Some a'
                /\ window a' = window a1)
  /\ (forall ok r,
        exists a',
          run a1 [FetchSettled k (Response ok); BodySettled k r] = Some a'
          /\ window a' = window a1).
Proof.
  intros Hq Hs a1 k.
  destruct (performSearch_accepted queryFromUrl a Hq Hs) as [_ [Hsus _]].
  fold a1 in Hsus.
  assert (Hk : nth_error (suspended a1) k = Some AwaitingResponse).
  { rewrite Hsus. apply nth_error_snoc. }
  split.
  - intros m. destruct (fetch_rejected_cleans_up a1 k m Hk) as [a' [Hstep _]].
    exists a'. cbn [run]. rewrite Hstep. split; [reflexivity|].
    exact (proj1 (settle_keeps_window a1 a' k) _ Hstep).
  - intros ok r. cbn [run].
    rewrite (fetch_resolved_awaits_body a1 k ok Hk).
    set (a2 := set_suspended (replace_at k (AwaitingBody ok)) a1).
    assert (Hk2 : nth_error (suspended a2) k = Some (AwaitingBody ok)).
    { unfold a2. simpl. rewrite Hsus. unfold k.
      rewrite replace_at_snoc. apply nth_error_snoc. }
    destruct (body_settled_cleans_up a2 k r Hk2) as [a' [Hstep _]].
    exists a'. rewrite Hstep. split; [reflexivity|].
    exact (proj2 (settle_keeps_window a2 a' k) _ Hstep).
Qed.

(** C3, as the code has it: an accepted search (a non-empty effective
    query while nothing is in flight) sets the parameter [q] before the
    request is issued, to the query as [URLSearchParams] converts it, which
    is the query itself when it is well formed; the settling of the request
    leaves the address bar as it is, so that [q] still has that value when
    the call has ended, on a rejected [fetch] and on every response, unless
    a navigation came in between.  An attempt rejected by the validation or
    dropped by the single-flight guard leaves the address bar as it was. *)
Theorem url_follows_accepted_searches :
  (forall queryFromUrl a,
     truthy (effective_query queryFromUrl a) = true ->
     isSearching a = false ->
     let query := effective_query queryFromUrl a in
     let a1 := performSearch queryFromUrl a in
     let k := List.length (suspended a) in
     url_q a1 = Some (to_usv query)
     /\ (isWellFormed query = true -> url_q a1 = Some query)
     /\ (forall m,
           exists a', run a1 [FetchSettled k (FetchRejected m)] = Some a'
                      /\ url_q a' = Some (to_usv query))
     /\ (forall ok r,
           exists a',
             run a1 [FetchSettled k (Response ok); BodySettled k r] = Some a'
             /\ url_q a' = Some (to_usv query)))
  /\ (forall queryFromUrl a,
        truthy (effective_query queryFromUrl a) = false
        \/ isSearching a = true ->
        window (performSearch queryFromUrl a) = window a)
  /\ (forall a a' k r,
        step a (FetchSettled k r) = Some a' -> window a' = window a)
  /\ (forall a a' k r,
        step a (BodySettled k r) = Some a' -> window a' = window a).
Proof.
  split; [|split; [|split]].
  - intros queryFromUrl a Hq Hs query a1 k.
    destruct (performSearch_accepted queryFromUrl a Hq Hs)
      as [_ [_ [_ [Hw _]]]].
    assert (Hurl : url_q a1 = Some (to_usv query)).
    { unfold url_q, a1, query. rewrite Hw. unfold updateUrl.
      rewrite Hq. simpl. apply params_get_set. }
    destruct (accepted_search_settles queryFromUrl a Hq Hs) as [Hrej Hbody].
    split; [exact Hurl|]. split; [|split].
    + intros Hwf. rewrite Hurl, (to_usv_well_formed _ Hwf). reflexivity.
    + intros m. destruct (Hrej m) as [a' [Hrun Hwin]].
      exists a'. split; [exact Hrun|].
      unfold url_q in *. rewrite Hwin. exact Hurl.
    + intros ok r. destruct (Hbody ok r) as [a' [Hrun Hwin]].
      exists a'. split; [exact Hrun|].
      unfold url_q in *. rewrite Hwin. exact Hurl.
  - intros queryFromUrl a [Hq | Hs].
    + rewrite performSearch_rejected by exact Hq. reflexivity.
    + destruct (truthy (effective_query queryFromUrl a)) eqn:Hq.
      * rewrite performSearch_dropped by assumption. reflexivity.
      * rewrite performSearch_rejected by exact Hq. reflexivity.
  - intros a a' k r. apply (proj1 (settle_keeps_window a a' k)).
  - intros a a' k r. apply (proj2 (settle_keeps_window a a' k)).
Qed.

End Cleanup.

#[local] Existing Instance host.

(** C5 on the page without a search in flight, for the query "first":
    the rejected fetch, the reported failure and the success. *)
Lemma guaranteed_cleanup_witness :
  isSearching page_in_flight = true
  /\ (exists a',
        run page_in_flight [FetchSettled 0 (FetchRejected (lit "Failed to fetch"))]
        = Some a' /\ cleaned_up a')
  /\ (exists a',
        run page_in_flight
          [FetchSettled 0 (Response false); BodySettled 0 (Body response_failed)]
        = Some a' /\ cleaned_up a')
  /\ (exists a',
        run page_in_flight
          [FetchSettled 0 (Response true); BodySettled 0 (Body response_one)]
        = Some a' /\ cleaned_up a').
Proof.
  pose proof (@guaranteed_cleanup host (Some (lit "first")) (page [] [])
                eq_refl eq_refl) as [Hflag [Hrej Hbody]].
  split; [exact Hflag|].
  split; [exact (Hrej (lit "Failed to fetch"))|].
  split; [exact (Hbody false (Body response_failed))|].
  exact (Hbody true (Body response_one)).
Defined.

(** C3 on the page without a search in flight: the search for "first"
    sets [q] to "first", which it still is when the response has been
    rendered; a second search while the first is in flight leaves the
    address bar alone. *)
Lemma url_follows_accepted_searches_witness :
  url_q (performSearch (Some (lit "first")) (page [] [])) = Some (lit "first")
  /\ (exists a',
        run page_in_flight
          [FetchSettled 0 (Response true); BodySettled 0 (Body response_one)]
        = Some a' /\ url_q a' = Some (lit "first"))
  /\ window (performSearch (Some (lit "second")) page_in_flight)
     = window page_in_flight.
Proof.
  pose proof (proj1 (@url_follows_accepted_searches host)
                (Some (lit "first")) (page [] []) eq_refl eq_refl)
    as [_ [Hwf [_ Hbody]]].
  split; [exact (Hwf eq_refl)|].
  split; [exact (Hbody true (Body response_one))|].
  apply (proj1 (proj2 (@url_follows_accepted_searches host))
           (Some (lit "second")) page_in_flight).
  right. reflexivity.
Defined.

(** C3 as stated fails for the attempts that are not accepted: while the
    search for "first" is in flight a search for "second" leaves [q] at
    "first", and on the page at [?q=old] a search with a blank field
    leaves [q] at "old", neither set to the submitted query nor
    cleared.  It also fails for an accepted search whose query holds a lone
    surrogate, which the address bar holds as U+FFFD, and for one during
    which the user goes back to [?q=old]: the address bar then reads "old"
    when the search for "first" has ended. *)
Lemma url_stale_after_unaccepted_attempt :
  effective_query (Some (lit "second")) page_in_flight = lit "second"
  /\ url_q (performSearch (Some (lit "second")) page_in_flight)
     = Some (lit "first")
  /\ effective_query None page_old_query = []
  /\ url_q (performSearch None page_old_query) = Some (lit "old")
  /\ effective_query (Some [55357%N]) (page [] []) = [55357%N]
  /\ url_q (performSearch (Some [55357%N]) (page [] [])) = Some [65533%N]
  /\ (exists a',
        run page_in_flight
          [PopState (location (window page_old_query));
           FetchSettled 0 (Response true); BodySettled 0 (Body response_one)]
        = Some a'
        /\ requests a' = [lit "first"]
        /\ url_q a' = Some (lit "old")).
Proof.
  repeat split.
  eexists. split; [reflexivity|]. split; reflexivity.
Qed.

Lemma trimStart_blank (s : jsstring) :
  forallb is_space s = true -> trimStart s = [].
Proof.
  induction s as [|c r IH]; [reflexivity|].
  cbn [forallb trimStart]. intros H. apply andb_prop in H.
  destruct H as [Hc Hr]. rewrite Hc. apply IH. exact Hr.
Qed.

(** A field that holds white space only is rejected before any request:
    the path of the validation that does trim. *)
Lemma blank_field_query_is_rejected (a : SearchApp) :
  forallb is_space (searchInput_value (controls a)) = true ->
  performSearch None a = showError text_enter_query a
  /\ requests (performSearch None a) = requests a.
Proof.
  intros Hblank.
  assert (Hq : truthy (effective_query None a) = false).
  { unfold effective_query, or_else, trim. cbn [truthy_field].
    rewrite (trimStart_blank _ Hblank). reflexivity. }
  rewrite (performSearch_rejected None a Hq). split; reflexivity.
Qed.

(** C4 at a query from the URL that holds only spaces, as at
    [?q=%20%20]: it is not trimmed, counts as non-empty, and is sent to
    the search service; the same two spaces typed in the field are
    trimmed and rejected before any request. *)
Theorem blank_url_query_is_sent :
  let a := loadFromUrl (page [] [(q, lit "  ")]) in
  a = performSearch (Some (lit "  ")) (page [] [(q, lit "  ")])
  /\ requests a = [lit "  "]
  /\ isSearching a = true
  /\ errorMessage_hidden (sections a) = true
  /\ requests (performSearch None (page (lit "  ") [])) = []
  /\ errorMessage_hidden (sections (performSearch None (page (lit "  ") [])))
     = false.
Proof. repeat split. Qed.

(** ** Scores *)










Section FixedNotation.

Context {host : Host}.



End FixedNotation.

(** *** The exponent and the digits of scientific notation *)

















(** *** The literal 0.001 *)

(** Among doubles, being below the double nearest to 0.001 is being below
    0.001: no double lies from 0.001 up to the literal.  A double is
    [m * 2^e] with [|m| < 2^53]. *)
Lemma double_below_0_001 (m e : Z) :
  (Z.abs m < 2 ^ 53)%Z ->
  inject_Z m * Qpower 2 e < lit_0_001 <-> inject_Z m * Qpower 2 e < 1 # 1000.
Proof.
  intros Hm. split; [|intros H; apply Qlt_trans with (1 # 1000);
                        [exact H | reflexivity]].
  intros Hlit.
  assert (H2 : ~ 2 == 0) by discriminate.
  destruct (Z_lt_le_dec e (-62)) as [Hsmall | Hbig].
  - destruct (Z_le_gt_dec m 0) as [Hneg | Hpos].
    + apply Qle_lt_trans with 0; [|reflexivity].
      rewrite <- (Qmult_0_l (Qpower 2 e)).
      apply Qmult_le_compat_r.
      * unfold Qle. simpl. lia.
      * apply Qpower_0_le. discriminate.
    + apply Qlt_le_trans with (inject_Z (2 ^ 53) * Qpower 2 e).
      * apply Qmult_lt_compat_r; [apply Qpower_0_lt; reflexivity|].
        unfold Qlt. simpl. lia.
      * apply Qle_trans with (inject_Z (2 ^ 53) * Qpower 2 (-63)).
        -- rewrite !(Qmult_comm (inject_Z (2 ^ 53))).
           apply Qmult_le_compat_r; [|discriminate].
           apply Qpower_le_compat_l; [lia | discriminate].
        -- discriminate.
  - set (K := (m * 2 ^ (e + 62))%Z).
    assert (HK : inject_Z m * Qpower 2 e == inject_Z K * Qpower 2 (-62)).
    { unfold K. rewrite inject_Z_mult, Zpower_Qpower by lia.
      change (inject_Z 2) with 2.
      rewrite Qpower_plus by exact H2.
      set (a := Qpower 2 e).
      change (Qpower 2 62) with (4611686018427387904 # 1).
      change (Qpower 2 (-62)) with (1 # 4611686018427387904).
      field. }
    rewrite HK in Hlit. rewrite HK.
    change (Qpower 2 (-62)) with (1 # 4611686018427387904) in *.
    unfold lit_0_001, Qlt, Qmult, inject_Z in *. simpl in *. lia.
Qed.

(** The markup of a result element, part by part. *)
Lemma createResultElement_layout {host : Host} (result : SearchResult)
    (number : nat) :
  createResultElement result number
  = nl 12 ++ tpl "<div class='result-top'>"
    ++ nl 16
    ++ breadcrumbs_block
         (generateBreadcrumbs (metadata result)
            (generateSourceLink (metadata result)))
    ++ nl 16 ++ score_block (score result)
    ++ nl 12 ++ lit "</div>"
    ++ nl 12 ++ tpl "<div class='result-content'>"
    ++ nl 16 ++ formatText (truncateText (content result) 300)
    ++ nl 12 ++ lit "</div>"
    ++ nl 8.
Proof. reflexivity. Qed.




(** ** Where user text enters the markup *)

(** C2, as the code has it: body text and summary are escaped by the
    five replacements of [formatText] and [formatSummary], which write an
    entity for every ampersand, angle bracket, double quote and apostrophe
    of the input, so that their markup consists of other characters, these
    entities and the tags the formatter writes, and of nothing else (it is
    given character by character); a
    breadcrumb segment is escaped by the serialisation of a text node,
    which writes entities for ampersands, no-break spaces and angle
    brackets and leaves a double quote as it is; an error message is not
    encoded at all but assigned as text content.  These are the texts that
    reach the page: the body of a result element is [formatText] of the
    truncated content, the summary section holds [formatSummary] of the
    summary, and every segment of a trail of breadcrumbs is [escapeHtml]
    of its heading, inside a [span] or a link. *)
Theorem user_text_never_live_markup :
  (forall text, escapeHtml_local text = flat_map entity_of text)
  /\ (forall content,
        SafeMarkup (formatText content)
        /\ formatText content
           = let body := text_runs content 0 in
             if includes (lit "</p><p>") body
             then lit "<p>" ++ body ++ lit "</p>"
             else body)
  /\ (forall summary,
        SafeMarkup (formatSummary summary)
        /\ formatSummary summary
           = join []
               (map (fun p => lit "<p>" ++ flat_map entity_or_br p ++ lit "</p>")
                    (summary_paragraphs summary)))
  /\ (forall part, SerializedText (escapeHtml part))
  /\ (forall message a,
        errorText (contents (showError message a)) = message)
  /\ (forall (host : Host) result number,
        createResultElement result number
        = nl 12 ++ tpl "<div class='result-top'>"
          ++ nl 16
          ++ breadcrumbs_block
               (generateBreadcrumbs (metadata result)
                  (generateSourceLink (metadata result)))
          ++ nl 16 ++ score_block (score result)
          ++ nl 12 ++ lit "</div>"
          ++ nl 12 ++ tpl "<div class='result-content'>"
          ++ nl 16 ++ formatText (truncateText (content result) 300)
          ++ nl 12 ++ lit "</div>"
          ++ nl 8)
  /\ (forall (host : Host) summary a,
        summaryContent (contents (displaySummary summary a))
        = formatSummary summary)
  /\ (forall index part,
        breadcrumb_span index part
        = tpl "<span class='" ++ className index ++ tpl "'>"
          ++ escapeHtml part ++ lit "</span>")
  /\ (forall link index part,
        breadcrumb_link link index part
        = tpl "<a href='" ++ link ++ tpl "' target='_blank' class='"
          ++ className index
          ++ tpl " breadcrumb-link' title='" ++ text_open_source ++ tpl "'>"
          ++ nl 24 ++ escapeHtml part
          ++ nl 24 ++ tpl "<i class='fas fa-external-link-alt'></i>"
          ++ nl 20 ++ lit "</a>")
  /\ (forall md sourceLink init last,
        trail md = init ++ [last] ->
        generateBreadcrumbs (Some md) sourceLink
        = Some (join breadcrumb_separator
                  (mapi (fun part index => breadcrumb_span index part) init
                   ++ [match truthy_field sourceLink with
                       | Some link =>
                           breadcrumb_link link (List.length init) last
                       | None => breadcrumb_span (List.length init) last
                       end]))).
Proof.
  split; [exact escapeHtml_local_chars|].
  split; [intros content; split;
          [apply formatText_safe | apply formatText_chars]|].
  split; [intros summary; split;
          [apply formatSummary_safe | apply formatSummary_chars]|].
  split; [exact escapeHtml_serialized|].
  split; [reflexivity|].
  split; [intros h result number; apply createResultElement_layout|].
  split; [reflexivity|].
  split; [reflexivity|].
  split; [reflexivity|].
  intros md sourceLink init last Htrail.
  apply generateBreadcrumbs_trail. exact Htrail.
Qed.

(** C2 at a result whose content is a tag and whose headings hold an
    ampersand and an angle bracket: the body and both segments of the
    trail reach the element with entities. *)
Lemma user_text_never_live_markup_witness :
  generateBreadcrumbs (Some metadata_markup) None
  = Some (tpl "<span class='breadcrumb-item breadcrumb-h1'>" ++ lit "R&amp;D"
          ++ lit "</span>" ++ breadcrumb_separator
          ++ tpl "<span class='breadcrumb-item breadcrumb-h2'>"
          ++ lit "a&lt;b" ++ lit "</span>")
  /\ createResultElement result_markup 1
     = nl 12 ++ tpl "<div class='result-top'>"
       ++ nl 16
       ++ (nl 20 ++ tpl "<div class='result-breadcrumbs'>"
           ++ nl 24
           ++ tpl "<span class='breadcrumb-item breadcrumb-h1'>"
           ++ lit "R&amp;D" ++ lit "</span>" ++ breadcrumb_separator
           ++ tpl "<span class='breadcrumb-item breadcrumb-h2'>"
           ++ lit "a&lt;b" ++ lit "</span>"
           ++ nl 20 ++ lit "</div>"
           ++ nl 16)
       ++ nl 16
       ++ nl 12 ++ lit "</div>"
       ++ nl 12 ++ tpl "<div class='result-content'>"
       ++ nl 16 ++ lit "&lt;script&gt;"
       ++ nl 12 ++ lit "</div>"
       ++ nl 8.
Proof.
  destruct user_text_never_live_markup
    as [_ [_ [_ [_ [_ [Helement [_ [_ [_ Htrail]]]]]]]]].
  split.
  - rewrite (Htrail metadata_markup None [lit "R&D"] (lit "a<b") eq_refl).
    reflexivity.
  - rewrite (Helement host result_markup 1%nat). reflexivity.
Defined.

(** C2 as stated fails for the double quote of a breadcrumb segment, which
    reaches the markup as it is, and for an error message, whose special
    characters are stored as they are. *)
Lemma breadcrumb_quote_and_error_text_not_encoded :
  escapeHtml [quot] = [quot]
  /\ generateBreadcrumbs (Some metadata_quote) None
     = Some (tpl "<span class='breadcrumb-item breadcrumb-h1'>" ++ [quot]
             ++ lit "</span>")
  /\ errorText (contents (showError (lit "<b>&") (page [] [])))
     = lit "<b>&".
Proof. repeat split. Qed.

(** * Further properties of the formatter *)

(** Two characters with the same entity in front of two texts are the same
    character, and the texts are the same: no entity is the beginning of
    another one or of a plain character. *)
Lemma entity_of_app_inj (c d : N) (s t : jsstring) :
  entity_of c ++ s = entity_of d ++ t -> c = d /\ s = t.
Proof.
  unfold entity_of.
  destruct (N.eqb_spec c amp) as [-> | Hc1];
    [|destruct (N.eqb_spec c lt) as [-> | Hc2];
      [|destruct (N.eqb_spec c gt) as [-> | Hc3];
        [|destruct (N.eqb_spec c quot) as [-> | Hc4];
          [|destruct (N.eqb_spec c apos) as [-> | Hc5]]]]];
  (destruct (N.eqb_spec d amp) as [-> | Hd1];
    [|destruct (N.eqb_spec d lt) as [-> | Hd2];
      [|destruct (N.eqb_spec d gt) as [-> | Hd3];
        [|destruct (N.eqb_spec d quot) as [-> | Hd4];
          [|destruct (N.eqb_spec d apos) as [-> | Hd5]]]]]);
  cbn [lit map list_ascii_of_string app]; intros H;
  try discriminate H;
  try (injection H as H; subst; split; reflexivity);
  try (injection H as H1 H2; subst; exfalso; auto; fail);
  try (injection H as H1 H2; subst; split; reflexivity).
Qed.

Lemma escapeHtml_local_inj (a : jsstring) :
  forall b, escapeHtml_local a = escapeHtml_local b -> a = b.
Proof.
  induction a as [|c r IH]; intros [|d t] H.
  - reflexivity.
  - exfalso. rewrite escapeHtml_local_cons in H. simpl in H.
    destruct (entity_of d) as [|x e] eqn:He; [|discriminate H].
    revert He. unfold entity_of.
    repeat (match goal with
            | |- context [N.eqb ?u ?v] => destruct (N.eqb u v)
            end); discriminate.
  - exfalso. rewrite escapeHtml_local_cons in H. simpl in H.
    destruct (entity_of c) as [|x e] eqn:He; [|discriminate H].
    revert He. unfold entity_of.
    repeat (match goal with
            | |- context [N.eqb ?u ?v] => destruct (N.eqb u v)
            end); discriminate.
  - rewrite !escapeHtml_local_cons in H.
    destruct (entity_of_app_inj _ _ _ _ H) as [-> Hrest].
    f_equal. apply IH. exact Hrest.
Qed.

(** X1: escaping loses nothing: two different texts never have the same
    escaped form, so a text that spells an entity stays apart from the
    character the entity stands for. *)
Theorem escapeHtml_local_distinguishes (a b : jsstring) :
  a <> b -> escapeHtml_local a <> escapeHtml_local b.
Proof.
  intros Hne Heq. apply Hne. apply escapeHtml_local_inj. exact Heq.
Qed.

(** X1 at the text "<" and the text that spells its entity. *)
Lemma escapeHtml_local_distinguishes_witness :
  escapeHtml_local (lit "<") <> escapeHtml_local (lit "&lt;").
Proof.
  apply (escapeHtml_local_distinguishes (a := lit "<") (b := lit "&lt;")).
  discriminate.
Defined.

(** ** Line feeds and plain text *)

Lemma no_newline_app (s t : jsstring) :
  Forall (fun c => c <> newline) s -> Forall (fun c => c <> newline) t ->
  Forall (fun c => c <> newline) (s ++ t).
Proof. intros Hs Ht. apply Forall_app. split; assumption. Qed.

Lemma line_break_no_newline (pending : nat) :
  Forall (fun c => c <> newline) (line_break pending).
Proof.
  destruct pending as [|[|n]]; repeat constructor; discriminate.
Qed.

Lemma entity_or_br_no_newline (c : N) :
  Forall (fun x => x <> newline) (entity_or_br c).
Proof.
  unfold entity_or_br. destruct (N.eqb_spec c newline) as [_ | Hc].
  - repeat constructor; discriminate.
  - apply entity_of_no_newline. exact Hc.
Qed.

Lemma text_runs_no_newline (text : jsstring) :
  forall pending, Forall (fun c => c <> newline) (text_runs text pending).
Proof.
  induction text as [|c rest IH]; intros pending; cbn [text_runs].
  - apply line_break_no_newline.
  - destruct (N.eqb_spec c newline) as [_ | Hc]; [apply IH|].
    apply no_newline_app; [apply line_break_no_newline|].
    apply no_newline_app; [apply entity_of_no_newline; exact Hc | apply IH].
Qed.

Lemma join_nil_no_newline (parts : list jsstring) :
  Forall (Forall (fun c => c <> newline)) parts ->
  Forall (fun c => c <> newline) (join [] parts).
Proof.
  induction 1 as [|p rest Hp Hrest IH]; [constructor|].
  destruct rest as [|p' rest']; [exact Hp|].
  change (join [] (p :: p' :: rest')) with (p ++ [] ++ join [] (p' :: rest')).
  apply no_newline_app; [exact Hp | exact IH].
Qed.

(** X2: no line feed of a text or a summary reaches the markup: each one
    has become a line break or a paragraph break, or was dropped. *)
Theorem markup_has_no_line_feed (s : jsstring) :
  Forall (fun c => c <> newline) (formatText s)
  /\ Forall (fun c => c <> newline) (formatSummary s).
Proof.
  split.
  - rewrite formatText_chars. cbv zeta.
    destruct (includes _ _).
    + apply no_newline_app; [repeat constructor; discriminate|].
      apply no_newline_app; [apply text_runs_no_newline|].
      repeat constructor; discriminate.
    + apply text_runs_no_newline.
  - rewrite formatSummary_chars. apply join_nil_no_newline.
    apply Forall_map. apply Forall_forall. intros p _.
    apply no_newline_app; [repeat constructor; discriminate|].
    apply no_newline_app; [|repeat constructor; discriminate].
    induction p as [|c r IH]; [constructor|].
    cbn [flat_map]. apply no_newline_app;
      [apply entity_or_br_no_newline | exact IH].
Qed.

Import ExtraSpec.

Lemma is_plain_entity (c : N) : is_plain c = true -> entity_or_br c = [c].
Proof.
  unfold is_plain, is_special, entity_or_br, entity_of. intros H.
  apply andb_prop in H. destruct H as [Hs Hn].
  apply negb_true_iff in Hs, Hn. rewrite Hn.
  repeat (apply orb_false_elim in Hs; destruct Hs as [Hs ?]).
  repeat match goal with
         | E : N.eqb _ _ = false |- _ => rewrite E; clear E
         end.
  reflexivity.
Qed.

Lemma is_plain_not_newline (c : N) : is_plain c = true -> c <> newline.
Proof.
  unfold is_plain. intros H. apply andb_prop in H. destruct H as [_ Hn].
  apply negb_true_iff in Hn. apply N.eqb_neq. exact Hn.
Qed.

Lemma is_plain_not_lt (c : N) : is_plain c = true -> N.eqb lt c = false.
Proof.
  intros H. apply N.eqb_neq. intros <-. discriminate H.
Qed.

Lemma text_runs_plain (text : jsstring) :
  forallb is_plain text = true -> text_runs text 0 = text.
Proof.
  induction text as [|c r IH]; [reflexivity|].
  cbn [forallb text_runs]. intros H. apply andb_prop in H.
  destruct H as [Hc Hr].
  pose proof (@is_plain_entity c Hc) as He. unfold entity_or_br in He.
  destruct (N.eqb_spec c newline) as [Hn | _];
    [exfalso; exact (@is_plain_not_newline c Hc Hn)|].
  rewrite He, (IH Hr). reflexivity.
Qed.

Lemma flat_map_plain (p : jsstring) :
  forallb is_plain p = true -> flat_map entity_or_br p = p.
Proof.
  induction p as [|c r IH]; [reflexivity|].
  cbn [forallb flat_map]. intros H. apply andb_prop in H.
  destruct H as [Hc Hr]. rewrite (@is_plain_entity c Hc), (IH Hr). reflexivity.
Qed.

Lemma includes_paragraph_break_plain (text : jsstring) :
  forallb is_plain text = true -> includes (lit "</p><p>") text = false.
Proof.
  induction text as [|c r IH]; [reflexivity|].
  cbn [forallb]. intros H. apply andb_prop in H. destruct H as [Hc Hr].
  change (includes (lit "</p><p>") (c :: r))
    with (starts_with (lit "</p><p>") (c :: r) || includes (lit "</p><p>") r).
  rewrite (IH Hr). cbn [lit map list_ascii_of_string starts_with].
  change (N_of_ascii "<") with lt. rewrite (@is_plain_not_lt c Hc). reflexivity.
Qed.

Lemma split_plain (text : jsstring) :
  forallb is_plain text = true -> split paragraph_sep text = [text].
Proof.
  intros H. unfold split.
  rewrite <- (app_nil_r text) at 1.
  rewrite split_go_no_newline.
  - cbn [split_go]. rewrite app_nil_r, rev_involutive. reflexivity.
  - apply Forall_forall. intros c Hin.
    apply is_plain_not_newline.
    rewrite forallb_forall in H. apply H. exact Hin.
Qed.

Lemma forallb_trimStart (p : N -> bool) (s : jsstring) :
  forallb p s = true -> forallb p (trimStart s) = true.
Proof.
  induction s as [|c r IH]; [reflexivity|].
  intros H. cbn [trimStart]. destruct (is_space c); [|exact H].
  cbn [forallb] in H. apply andb_prop in H. apply IH. apply H.
Qed.

Lemma forallb_rev (p : N -> bool) (s : jsstring) :
  forallb p s = true -> forallb p (rev s) = true.
Proof.
  intros H. apply forallb_forall. intros c Hin.
  rewrite forallb_forall in H. apply H. apply in_rev. exact Hin.
Qed.

Lemma forallb_trim (p : N -> bool) (s : jsstring) :
  forallb p s = true -> forallb p (trim s) = true.
Proof.
  intros H. unfold trim, trimEnd.
  apply forallb_rev, forallb_trimStart, forallb_rev, forallb_trimStart.
  exact H.
Qed.

(** X3: a text without special characters and without line feeds passes
    [formatText] unchanged; as a summary it becomes one paragraph holding
    the trimmed text, or nothing at all when it is blank. *)
Theorem plain_text_is_kept (text : jsstring) :
  forallb is_plain text = true ->
  formatText text = text
  /\ formatSummary text
     = if truthy (trim text) then lit "<p>" ++ trim text ++ lit "</p>"
       else [].
Proof.
  intros H. split.
  - rewrite formatText_chars. cbv zeta.
    rewrite (@text_runs_plain text H), (@includes_paragraph_break_plain text H).
    reflexivity.
  - rewrite formatSummary_chars. unfold summary_paragraphs.
    rewrite (@split_plain text H). cbn [filter].
    destruct (truthy (trim text)); [|reflexivity].
    cbn [map join]. rewrite flat_map_plain; [reflexivity|].
    apply forallb_trim. exact H.
Qed.

(** X3 at a text with spaces around it. *)
Lemma plain_text_is_kept_witness :
  formatText (lit " free delivery ") = lit " free delivery "
  /\ formatSummary (lit " free delivery ") = lit "<p>free delivery</p>".
Proof.
  destruct (@plain_text_is_kept (lit " free delivery ") eq_refl) as [Ht Hs].
  split; [exact Ht|]. rewrite Hs. reflexivity.
Defined.
(** ** Truncation at any limit *)

(** X4: whatever the limit, a text longer than it is cut to a prefix
    followed by three full stops; the prefix has as many characters as the
    limit (none for a negative limit) or, when the cut falls on a space, it
    is shorter than the limit and longer than four fifths of it; so the
    result never has more than three characters above the limit, or above
    none for a negative limit. *)
Theorem truncateText_keeps_most (text : jsstring) (maxLength : Z) :
  (maxLength < len text)%Z ->
  exists k,
    (k = Z.max 0 maxLength \/ 4 * maxLength < 5 * k < 5 * maxLength)%Z
    /\ truncateText text maxLength = firstn (Z.to_nat k) text ++ lit "..."
    /\ len (truncateText text maxLength) = (k + 3)%Z
    /\ (len (truncateText text maxLength) <= Z.max 0 maxLength + 3)%Z.
Proof.
  intros Hlen. unfold truncateText, substring0.
  destruct (Z.leb_spec (len text) maxLength) as [Hle | _]; [lia|].
  destruct (Z.lt_ge_cases maxLength 0) as [Hneg | H0].
  - exists 0%Z. rewrite Z.max_l by lia.
    assert (Hnone : Z.to_nat maxLength = 0%nat) by lia.
    rewrite Hnone. cbn [firstn]. unfold lastIndexOf. cbn [lastIndexOf_from].
    replace (firstn (Z.to_nat (-1)) []) with (@nil N) by reflexivity.
    destruct (beyond_80_percent (-1) maxLength);
      (split; [left; reflexivity|]); cbn [Z.to_nat firstn app];
      repeat split; discriminate.
  - rewrite Z.max_r by lia.
    unfold len in Hlen.
    assert (Hcut : forall k, (0 <= k <= maxLength)%Z ->
              len (firstn (Z.to_nat k) text ++ lit "...") = (k + 3)%Z).
    { intros k Hk. unfold len. rewrite length_app, length_firstn.
      change (List.length (lit "...")) with 3%nat. lia. }
    destruct (lastIndexOf_range space (firstn (Z.to_nat maxLength) text))
      as [Hidx | [j [Hidx Hj]]]; rewrite Hidx; unfold beyond_80_percent.
    + destruct (Z.ltb_spec (4 * maxLength) (5 * -1)) as [Hyes | _]; [lia|].
      exists maxLength. split; [left; reflexivity|].
      split; [reflexivity|]. rewrite Hcut by lia. lia.
    + assert (Hjn : (j < Z.to_nat maxLength)%nat).
      { destruct (Nat.lt_ge_cases j (Z.to_nat maxLength)) as [Hlt | Hge];
          [exact Hlt|].
        rewrite nth_error_firstn_ge in Hj by exact Hge. discriminate. }
      destruct (Z.ltb_spec (4 * maxLength) (5 * Z.of_nat j)) as [Hyes | Hno].
      * exists (Z.of_nat j). split; [right; lia|].
        rewrite Nat2Z.id, firstn_firstn_le by lia.
        split; [reflexivity|].
        rewrite <- (Nat2Z.id j) at 1 3. rewrite Hcut by lia. lia.
      * exists maxLength. split; [left; reflexivity|].
        split; [reflexivity|]. rewrite Hcut by lia. lia.
Qed.

(** X4 at "one two three four" with the limit 15: the cut falls on the
    space at index 13, not in the middle of "four"; with the limit -5
    nothing of the text is kept. *)
Lemma truncateText_keeps_most_witness :
  truncateText (lit "one two three four") 15 = lit "one two three..."
  /\ (exists k,
        (k = Z.max 0 15 \/ 4 * 15 < 5 * k < 5 * 15)%Z
        /\ truncateText (lit "one two three four") 15
           = firstn (Z.to_nat k) (lit "one two three four") ++ lit "..."
        /\ len (truncateText (lit "one two three four") 15) = (k + 3)%Z
        /\ (len (truncateText (lit "one two three four") 15)
            <= Z.max 0 15 + 3)%Z)
  /\ truncateText (lit "one two three four") (-5) = lit "..."
  /\ (exists k,
        (k = Z.max 0 (-5) \/ 4 * -5 < 5 * k < 5 * -5)%Z
        /\ truncateText (lit "one two three four") (-5)
           = firstn (Z.to_nat k) (lit "one two three four") ++ lit "..."
        /\ len (truncateText (lit "one two three four") (-5)) = (k + 3)%Z
        /\ (len (truncateText (lit "one two three four") (-5))
            <= Z.max 0 (-5) + 3)%Z).
Proof.
  split; [reflexivity|]. split.
  - apply (@truncateText_keeps_most (lit "one two three four") 15).
    reflexivity.
  - split; [reflexivity|].
    apply (@truncateText_keeps_most (lit "one two three four") (-5)).
    reflexivity.
Defined.

(** ** Source link and breadcrumb region of a result *)

Lemma breadcrumb_item_truthy (sourceLink : option jsstring) (count : nat)
    (part : jsstring) (index : nat) :
  truthy (breadcrumb_item sourceLink count part index) = true.
Proof.
  unfold breadcrumb_item.
  destruct (truthy_field sourceLink), (Nat.eqb index (count - 1)); reflexivity.
Qed.

Lemma join_truthy (sep p : jsstring) (rest : list jsstring) :
  truthy p = true -> truthy (join sep (p :: rest)) = true.
Proof.
  intros Hp. destruct p as [|c p']; [discriminate|].
  destruct rest; reflexivity.
Qed.

Lemma breadcrumbs_block_truthy (b : jsstring) :
  truthy b = true -> breadcrumbs_block (Some b) <> [].
Proof.
  intros Hb. unfold breadcrumbs_block, truthy_field. rewrite Hb. discriminate.
Qed.

Lemma generateBreadcrumbs_truthy (md : option ResultMetadata)
    (sourceLink : option jsstring) (b : jsstring) :
  generateBreadcrumbs md sourceLink = Some b -> truthy b = true.
Proof.
  destruct md as [m|]; [|discriminate].
  unfold generateBreadcrumbs.
  destruct (breadcrumbParts m) as [|p ps].
  - destruct (truthy_field sourceLink); [|discriminate].
    intros H. injection H as <-. reflexivity.
  - assert (Hj : truthy (join breadcrumb_separator
                           (mapi (breadcrumb_item sourceLink
                                    (List.length (p :: ps))) (p :: ps)))
                 = true).
    { unfold mapi. cbn [mapi_from]. apply join_truthy.
      apply breadcrumb_item_truthy. }
    intros H. injection H as <-. exact Hj.
Qed.

(** X5: a result element has, in its top part, the breadcrumb region made
    from the metadata of the result and the source link resolved from it.
    The source link is the fixed base followed by the source path as it
    is, and exists exactly for a non-empty path; the region is the
    breadcrumbs in their [div] when there are breadcrumbs, and is left out
    exactly when there is no metadata, or neither a non-empty heading nor a
    non-empty source path. *)
Theorem breadcrumb_region_presence {host : Host} (result : SearchResult)
    (number : nat) :
  let md := metadata result in
  let region :=
    breadcrumbs_block (generateBreadcrumbs md (generateSourceLink md)) in
  createResultElement result number
  = nl 12 ++ tpl "<div class='result-top'>"
    ++ nl 16 ++ region
    ++ nl 16 ++ score_block (score result)
    ++ nl 12 ++ lit "</div>"
    ++ nl 12 ++ tpl "<div class='result-content'>"
    ++ nl 16 ++ formatText (truncateText (content result) 300)
    ++ nl 12 ++ lit "</div>"
    ++ nl 8
  /\ (generateSourceLink md
      = match md with
        | None => None
        | Some m =>
            match source_path m with
            | Some (c :: p) =>
                Some (lit "https://yandex.ru/support/market/ru/" ++ c :: p)
            | _ => None
            end
        end)
  /\ region
     = match generateBreadcrumbs md (generateSourceLink md) with
       | Some b =>
           nl 20 ++ tpl "<div class='result-breadcrumbs'>"
           ++ nl 24 ++ b
           ++ nl 20 ++ lit "</div>"
           ++ nl 16
       | None => []
       end
  /\ (region = []
      <-> match md with
          | None => True
          | Some m => trail m = [] /\ truthy_field (source_path m) = None
          end).
Proof.
  intros md region. split; [apply createResultElement_layout|].
  split; [|split].
  - destruct md as [m|]; [|reflexivity].
    unfold generateSourceLink, truthy_field.
    destruct (source_path m) as [[|c p]|]; reflexivity.
  - unfold region.
    destruct (generateBreadcrumbs md (generateSourceLink md)) as [b|] eqn:Hb;
      [|reflexivity].
    unfold breadcrumbs_block, truthy_field.
    rewrite (generateBreadcrumbs_truthy _ _ Hb). reflexivity.
  - unfold region. destruct md as [m|]; [|split; reflexivity].
    unfold generateBreadcrumbs. rewrite breadcrumbParts_trail.
    destruct (trail m) as [|p ps] eqn:Htrail.
    + unfold generateSourceLink.
      destruct (truthy_field (source_path m)) as [src|] eqn:Hsrc.
      * split; [|intros [_ H]; discriminate H].
        intros Hblock. exfalso. revert Hblock.
        apply breadcrumbs_block_truthy. reflexivity.
      * split; [intros _; split; reflexivity | reflexivity].
    + split; [|intros [H _]; discriminate H].
      intros Hblock. exfalso. revert Hblock.
      apply breadcrumbs_block_truthy. unfold mapi. cbn [mapi_from].
      apply join_truthy. apply breadcrumb_item_truthy.
Qed.

(** X5 at a result whose metadata has a source path only, whose element
    has the standalone link in its breadcrumb region, and at a result
    whose metadata has nothing, whose element has no such region. *)
Lemma breadcrumb_region_presence_witness :
  createResultElement
    {| content := lit "text"; score := None;
       metadata := Some metadata_source_only |} 1
  = nl 12 ++ tpl "<div class='result-top'>"
    ++ nl 16
    ++ (nl 20 ++ tpl "<div class='result-breadcrumbs'>"
        ++ nl 24
        ++ source_link_main (lit "https://yandex.ru/support/market/ru/faq")
        ++ nl 20 ++ lit "</div>"
        ++ nl 16)
    ++ nl 16
    ++ nl 12 ++ lit "</div>"
    ++ nl 12 ++ tpl "<div class='result-content'>"
    ++ nl 16 ++ lit "text"
    ++ nl 12 ++ lit "</div>"
    ++ nl 8
  /\ breadcrumbs_block
       (generateBreadcrumbs (Some metadata_source_only)
          (generateSourceLink (Some metadata_source_only))) <> []
  /\ breadcrumbs_block
       (generateBreadcrumbs (Some metadata_nothing)
          (generateSourceLink (Some metadata_nothing))) = [].
Proof.
  pose proof (@breadcrumb_region_presence host
                {| content := lit "text"; score := None;
                   metadata := Some metadata_source_only |} 1%nat)
    as [Helement [_ [_ Hsource]]].
  pose proof (@breadcrumb_region_presence host
                {| content := lit "text"; score := None;
                   metadata := Some metadata_nothing |} 1%nat)
    as [_ [_ [_ Hnothing]]].
  cbn [metadata] in Hsource, Hnothing.
  split; [rewrite Helement; reflexivity|]. split.
  - intros H. apply (proj1 Hsource) in H.
    destruct H as [_ H]. discriminate H.
  - apply (proj2 Hnothing). split; reflexivity.
Defined.

(** ** Reading and writing the parameters of the address bar *)

Lemma jsstring_eqb_eq (a : jsstring) :
  forall b, Js.eqb a b = true -> a = b.
Proof.
  induction a as [|x a' IH]; intros [|y b'] H; try discriminate H.
  - reflexivity.
  - cbn [Js.eqb] in H. apply andb_prop in H. destruct H as [Hxy Hrest].
    apply N.eqb_eq in Hxy. subst y. f_equal. apply IH. exact Hrest.
Qed.

Lemma named_other (name other : jsstring) (p : jsstring * jsstring) :
  name <> other -> named name p = true -> named other p = false.
Proof.
  unfold named. intros Hne Hp.
  destruct (Js.eqb (fst p) other) eqn:Hother; [|reflexivity].
  exfalso. apply Hne.
  rewrite <- (jsstring_eqb_eq _ _ Hp), <- (jsstring_eqb_eq _ _ Hother).
  reflexivity.
Qed.

Lemma params_get_delete_other (name other : jsstring)
    (ps : list (jsstring * jsstring)) :
  name <> other ->
  params_get other (params_delete name ps) = params_get other ps.
Proof.
  intros Hne. unfold params_delete.
  induction ps as [|p r IH]; [reflexivity|].
  cbn [filter params_get].
  destruct (named name p) eqn:Hp; cbn [negb].
  - rewrite (named_other p Hne Hp). exact IH.
  - cbn [params_get]. rewrite IH. reflexivity.
Qed.

Lemma params_get_delete (name : jsstring) (ps : list (jsstring * jsstring)) :
  params_get name (params_delete name ps) = None.
Proof.
  unfold params_delete. induction ps as [|p r IH]; [reflexivity|].
  cbn [filter]. destruct (named name p) eqn:Hp; cbn [negb]; [exact IH|].
  cbn [params_get]. rewrite Hp. exact IH.
Qed.

Lemma params_get_set_other (name other value : jsstring)
    (ps : list (jsstring * jsstring)) :
  name <> other ->
  params_get other (params_set name value ps) = params_get other ps.
Proof.
  intros Hne. unfold params_set. generalize (to_usv value) as v. intros v.
  induction ps as [|p r IH]; cbn [set_pair params_get].
  - assert (Hn : named other (name, v) = false).
    { apply (@named_other name other); [exact Hne|].
      unfold named. apply jsstring_eqb_refl. }
    rewrite Hn. reflexivity.
  - destruct (named name p) eqn:Hp; cbn [params_get].
    + assert (Hn : named other (fst p, v) = false).
      { apply (@named_other name other); [exact Hne | exact Hp]. }
      rewrite Hn, (named_other p Hne Hp).
      apply params_get_delete_other. exact Hne.
    + rewrite IH. reflexivity.
Qed.

(** X6: whatever the query, [updateUrl] leaves the value read for any
    parameter other than [q] as it was, and origin, path and fragment as
    they were; [q] then reads as the query as [URLSearchParams] converts it
    (the query itself when it is well formed) when the query is not empty,
    and as absent when it is empty (every [q] is deleted); one history
    entry, whose state is the query as the script has it, is pushed in both
    cases. *)
Theorem updateUrl_lookup (query : jsstring) (w : Window) (name : jsstring) :
  q <> name ->
  let url := location w in
  let url' := location (updateUrl query w) in
  params_get name (searchParams url') = params_get name (searchParams url)
  /\ params_get q (searchParams url')
     = (if truthy query then Some (to_usv query) else None)
  /\ (isWellFormed query = true ->
      params_get q (searchParams url')
      = (if truthy query then Some query else None))
  /\ origin url' = origin url /\ pathname url' = pathname url
  /\ hash url' = hash url
  /\ history (updateUrl query w)
     = {| state_query := query; entry_url := url' |} :: history w.
Proof.
  intros Hne. unfold updateUrl.
  destruct (truthy query); cbn; repeat split.
  - apply params_get_set_other. exact Hne.
  - apply params_get_set.
  - intros Hwf. rewrite params_get_set, (to_usv_well_formed _ Hwf).
    reflexivity.
  - apply params_get_delete_other. exact Hne.
  - apply params_get_delete.
  - intros _. apply params_get_delete.
Qed.

(** X6 at the location with lang=ru, q=old, q=dup, page=2: clearing the
    query keeps [page] and removes both values of [q]; the query of a
    letter and a lone surrogate keeps [page] too and is read back with
    U+FFFD. *)
Lemma updateUrl_lookup_witness :
  params_get (lit "page") (searchParams (location (updateUrl [] window_lang_q)))
  = Some (lit "2")
  /\ params_get q (searchParams (location (updateUrl [] window_lang_q))) = None
  /\ searchParams (location (updateUrl [] window_lang_q))
     = [(lit "lang", lit "ru"); (lit "page", lit "2")]
  /\ params_get q
       (searchParams (location (updateUrl [97; 55357]%N window_lang_q)))
     = Some [97; 65533]%N.
Proof.
  assert (Hne : q <> lit "page") by discriminate.
  destruct (@updateUrl_lookup [] window_lang_q (lit "page") Hne)
    as [Hpage [Hq _]].
  split; [rewrite Hpage; reflexivity|].
  split; [exact Hq|]. split; [reflexivity|].
  destruct (@updateUrl_lookup [97; 55357]%N window_lang_q (lit "page") Hne)
    as [_ [Hs _]].
  exact Hs.
Defined.
(** ** Deep links *)

Lemma strip_newlines_none (s : jsstring) :
  Forall (fun c => c <> 10%N /\ c <> 13%N) s -> strip_newlines s = s.
Proof.
  unfold strip_newlines. induction 1 as [|c r [H10 H13] _ IH]; [reflexivity|].
  cbn [filter]. apply N.eqb_neq in H10, H13. rewrite H10, H13. cbn.
  rewrite IH. reflexivity.
Qed.

(** X7: the constructor runs the search of a non-empty [q] found in the
    address bar without any user action: one request for exactly that
    query, the field showing the query as a text field holds it (without
    its line feeds and carriage returns, so the query itself when it has
    none), the page loading; with [q] absent or empty it changes nothing
    (no request and no error message).  The shareable URL of a non-empty
    query carries the query in [q] as [URLSearchParams] converts it, and
    the page opened at that URL sends one request, for that value: for the
    query itself when it is well formed. *)
Theorem deep_link_runs_search (s : Sections) (c : Controls) (ct : Contents)
    (w : Window) :
  let initial :=
    {| sections := s; controls := c; contents := ct; isSearching := false;
       window := w; requests := []; suspended := [] |} in
  match truthy_field (params_get q (searchParams (location w))) with
  | Some query =>
      requests (created s c ct w) = [query]
      /\ searchInput_value (controls (created s c ct w)) = strip_newlines query
      /\ (Forall (fun c => c <> 10%N /\ c <> 13%N) query ->
          searchInput_value (controls (created s c ct w)) = query)
      /\ isSearching (created s c ct w) = true
      /\ suspended (created s c ct w) = [AwaitingResponse]
      /\ loadingSpinner_hidden (sections (created s c ct w)) = false
      /\ url_q (created s c ct w) = Some (to_usv query)
  | None => created s c ct w = initial
  end
  /\ forall query w0 h,
       truthy query = true ->
       let shared := {| location := getShareableUrl query w0; history := h |} in
       params_get q (searchParams (location shared)) = Some (to_usv query)
       /\ requests (created s c ct shared) = [to_usv query]
       /\ (isWellFormed query = true ->
           requests (created s c ct shared) = [query]).
Proof.
  assert (Hload : forall w1 query,
            truthy_field (params_get q (searchParams (location w1)))
            = Some query ->
            let initial :=
              {| sections := s; controls := c; contents := ct;
                 isSearching := false; window := w1; requests := [];
                 suspended := [] |} in
            truthy query = true
            /\ created s c ct w1 = performSearch (Some query) initial
            /\ effective_query (Some query) initial = query).
  { intros w1 query Hq initial.
    assert (Htruthy : truthy query = true).
    { unfold truthy_field in Hq.
      destruct (params_get q (searchParams (location w1))) as [v|];
        [|discriminate].
      destruct (truthy v) eqn:Hv; [|discriminate].
      injection Hq as <-. exact Hv. }
    split; [exact Htruthy|]. split.
    - unfold created, loadFromUrl. fold initial.
      change (window initial) with w1. rewrite Hq. reflexivity.
    - unfold effective_query, or_else, truthy_field. rewrite Htruthy.
      reflexivity. }
  intros initial. split.
  - destruct (truthy_field (params_get q (searchParams (location w))))
      as [query|] eqn:Hq.
    + destruct (Hload w query Hq) as [Htruthy [Hcreated Heff]].
      fold initial in Hcreated, Heff. rewrite Hcreated.
      assert (Hacc := @performSearch_accepted (Some query) initial).
      rewrite Heff in Hacc.
      destruct (Hacc Htruthy eq_refl) as [Hs [Hsus [Hreq [Hw [Hspin _]]]]].
      assert (Hfield : searchInput_value
                         (controls (performSearch (Some query) initial))
                       = strip_newlines query).
      { unfold performSearch. rewrite Heff, Htruthy. cbn.
        unfold truthy_field. rewrite Htruthy. reflexivity. }
      repeat split; try assumption.
      * intros Hnone. rewrite Hfield. apply strip_newlines_none. exact Hnone.
      * unfold url_q. rewrite Hw. unfold updateUrl. rewrite Htruthy. cbn.
        apply params_get_set.
    + unfold created, loadFromUrl. fold initial.
      change (window initial) with w. rewrite Hq. reflexivity.
  - intros query w0 h Hq shared.
    assert (Hget : params_get q (searchParams (location shared))
                   = Some (to_usv query)).
    { unfold shared, getShareableUrl. cbn [location searchParams with_searchParams].
      apply params_get_set. }
    assert (Hfield : truthy_field (params_get q (searchParams (location shared)))
                     = Some (to_usv query)).
    { rewrite Hget. unfold truthy_field. rewrite to_usv_truthy, Hq.
      reflexivity. }
    destruct (Hload shared (to_usv query) Hfield) as [Htruthy [Hcreated Heff]].
    assert (Hacc := @performSearch_accepted (Some (to_usv query))
                      {| sections := s; controls := c; contents := ct;
                         isSearching := false; window := shared;
                         requests := []; suspended := [] |}).
    rewrite Heff in Hacc.
    destruct (Hacc Htruthy eq_refl) as [_ [_ [Hreq _]]].
    assert (Hrequests : requests (created s c ct shared) = [to_usv query]).
    { rewrite Hcreated. exact Hreq. }
    split; [exact Hget|]. split; [exact Hrequests|].
    intros Hwf. rewrite Hrequests, (to_usv_well_formed _ Hwf). reflexivity.
Qed.

(** X7 at the page opened at the shareable URL of "shoes", and at a page
    opened with a line feed in [q] (as at [?q=a%0Ab]): the request has the
    line feed, the field has not. *)
Lemma deep_link_runs_search_witness :
  let w :=
    {| location := getShareableUrl (lit "shoes") window_lang_q;
       history := [] |} in
  let a := created (sections (page [] [])) (controls (page [] []))
             (contents (page [] [])) w in
  let b := created (sections (page [] [])) (controls (page [] []))
             (contents (page [] [])) (window (page [] [(q, [97; 10; 98]%N)])) in
  requests a = [lit "shoes"]
  /\ searchInput_value (controls a) = lit "shoes"
  /\ params_get q (searchParams (getShareableUrl (lit "shoes") window_lang_q))
     = Some (lit "shoes")
  /\ requests b = [[97; 10; 98]%N]
  /\ searchInput_value (controls b) = [97; 98]%N.
Proof.
  intros w a b.
  pose proof (deep_link_runs_search (sections (page [] []))
                (controls (page [] [])) (contents (page [] [])) w)
    as [Hload Hshare].
  cbn in Hload. destruct Hload as [Hreq [Hfield _]].
  split; [exact Hreq|]. split; [exact Hfield|].
  split.
  - destruct (Hshare (lit "shoes") window_lang_q [] eq_refl) as [H _].
    exact H.
  - pose proof (deep_link_runs_search (sections (page [] []))
                  (controls (page [] [])) (contents (page [] []))
                  (window (page [] [(q, [97; 10; 98]%N)])))
      as [Hb _].
    cbn in Hb. destruct Hb as [Hreqb [Hfieldb _]].
    split; [exact Hreqb | exact Hfieldb].
Defined.

(** ** What every run of the page keeps *)

Section Runs.

Context {host : Host}.

(** What every event keeps is kept by every run. *)
Lemma run_keeps (P : SearchApp -> Prop) :
  (forall a e a', P a -> step a e = Some a' -> P a') ->
  forall es a a', P a -> run a es = Some a' -> P a'.
Proof.
  intros Hstep es. induction es as [|e rest IH]; intros a a' Ha Hrun.
  - injection Hrun as <-. exact Ha.
  - cbn [run] in Hrun. destruct (step a e) as [a1|] eqn:He; [|discriminate].
    apply (IH a1 a'); [|exact Hrun]. exact (Hstep a e a1 Ha He).
Qed.

Lemma performSearch_controls (queryFromUrl : option jsstring) (a : SearchApp) :
  controls_follow_flight a ->
  controls_follow_flight (performSearch queryFromUrl a).
Proof.
  intros Hinv.
  destruct (truthy (effective_query queryFromUrl a)) eqn:Hq.
  - destruct (isSearching a) eqn:Hs.
    + rewrite performSearch_dropped by assumption. exact Hinv.
    + destruct (performSearch_accepted queryFromUrl a Hq Hs)
        as [Hs' [_ [_ [_ [_ [Hin Hbt]]]]]].
      unfold controls_follow_flight. rewrite Hs', Hin, Hbt.
      repeat split.
  - rewrite performSearch_rejected by assumption.
    destruct Hinv as [Hin [Hbt _]].
    unfold controls_follow_flight. cbn. rewrite Hin, Hbt.
    repeat split. discriminate.
Qed.

Lemma loadFromUrl_controls (a : SearchApp) :
  controls_follow_flight a -> controls_follow_flight (loadFromUrl a).
Proof.
  intros Hinv. unfold loadFromUrl.
  destruct (truthy_field _); [|exact Hinv].
  apply performSearch_controls. exact Hinv.
Qed.

Lemma cleaned_up_controls (a : SearchApp) :
  cleaned_up a -> controls_follow_flight a.
Proof.
  intros [Hs [Hspin [Hin Hbt]]]. unfold controls_follow_flight.
  rewrite Hs, Hin, Hbt, Hspin. repeat split. discriminate.
Qed.

Lemma step_controls (a a' : SearchApp) (e : Event) :
  controls_follow_flight a -> step a e = Some a' -> controls_follow_flight a'.
Proof.
  intros Hinv Hstep. destruct e as [| url | v | k r | k r]; cbn [step] in Hstep.
  - injection Hstep as <-. apply performSearch_controls. exact Hinv.
  - injection Hstep as <-. apply loadFromUrl_controls. exact Hinv.
  - injection Hstep as <-. exact Hinv.
  - destruct (nth_error (suspended a) k) as [[| ok]|]; try discriminate.
    destruct r as [ok | m]; injection Hstep as <-.
    + exact Hinv.
    + apply cleaned_up_controls, finish_cleaned_up.
  - destruct (nth_error (suspended a) k) as [[| ok]|]; try discriminate.
    injection Hstep as <-. apply cleaned_up_controls, finish_cleaned_up.
Qed.

(** X8: on a page that starts with field and button enabled and the
    loading indicator hidden, after any sequence of clicks, navigations,
    typing and settling requests the field and the button are disabled
    exactly while a search is in flight, and the loading indicator is
    never shown when none is. *)
Theorem controls_disabled_while_searching (s : Sections) (c : Controls)
    (ct : Contents) (w : Window) (es : list Event) (a : SearchApp) :
  searchInput_disabled c = false ->
  searchButton_disabled c = false ->
  loadingSpinner_hidden s = true ->
  run (created s c ct w) es = Some a ->
  controls_follow_flight a.
Proof.
  intros Hin Hbt Hspin Hrun.
  apply (@run_keeps controls_follow_flight
           (fun x e y => @step_controls x y e) es (created s c ct w) a);
    [|exact Hrun].
  apply loadFromUrl_controls. unfold controls_follow_flight. cbn.
  rewrite Hin, Hbt, Hspin. repeat split. discriminate.
Qed.

End Runs.

(** X8 on the page opened without a query: a search is requested, a
    second one while it is in flight, then the response and its body
    arrive. *)
Lemma controls_disabled_while_searching_witness :
  exists a,
    run (created (sections (page (lit "shoes") [])) (controls (page (lit "shoes") []))
           (contents (page (lit "shoes") [])) (window (page (lit "shoes") [])))
        [SearchRequested; SearchRequested; FetchSettled 0 (Response true);
         BodySettled 0 (Body response_one)] = Some a
    /\ controls_follow_flight a
    /\ isSearching a = false.
Proof.
  eexists. split; [reflexivity|]. split; [|reflexivity].
  apply (@controls_disabled_while_searching host
           (sections (page (lit "shoes") [])) (controls (page (lit "shoes") []))
           (contents (page (lit "shoes") [])) (window (page (lit "shoes") []))
           [SearchRequested; SearchRequested; FetchSettled 0 (Response true);
            BodySettled 0 (Body response_one)]);
    reflexivity.
Defined.

Section Display.

Context {host : Host}.

(** The sections that [displayResults] leaves shown. *)
Lemma displayResults_sections (data : SearchResponse) (a : SearchApp) :
  sections (displayResults data a)
  = match results data with
    | [] =>
        {| loadingSpinner_hidden := true; resultsContainer_hidden := true;
           summarySection_hidden := true; noResults_hidden := false;
           errorMessage_hidden := true |}
    | _ :: _ =>
        {| loadingSpinner_hidden := true; resultsContainer_hidden := false;
           summarySection_hidden :=
             match truthy_field (summary data) with
             | Some _ => false
             | None => true
             end;
           noResults_hidden := true; errorMessage_hidden := true |}
    end.
Proof.
  unfold displayResults.
  destruct (results data) as [|r rest]; [reflexivity|].
  rewrite forEach_result_appends.
  destruct (truthy_field (summary data)); reflexivity.
Qed.

Lemma finish_after_body_exclusive (ok : bool) (r : BodyResult) (a : SearchApp) :
  exclusive (sections (finish (try_after_body ok r) a)) = true.
Proof.
  unfold finish, try_catch_finally, try_after_body, bind.
  destruct r as [data | m]; cbn; [|reflexivity].
  destruct ok; cbn; [|reflexivity].
  destruct (success data); cbn; [|reflexivity].
  rewrite displayResults_sections.
  destruct (results data); [reflexivity|].
  destruct (truthy_field (summary data)); reflexivity.
Qed.

Lemma performSearch_exclusive (queryFromUrl : option jsstring) (a : SearchApp) :
  exclusive (sections a) = true ->
  exclusive (sections (performSearch queryFromUrl a)) = true.
Proof.
  intros Hinv. unfold performSearch.
  destruct (truthy (effective_query queryFromUrl a)); cbn; [|reflexivity].
  destruct (isSearching a); [exact Hinv|].
  destruct (truthy_field queryFromUrl); reflexivity.
Qed.

Lemma step_exclusive (a a' : SearchApp) (e : Event) :
  exclusive (sections a) = true -> step a e = Some a' ->
  exclusive (sections a') = true.
Proof.
  intros Hinv Hstep. destruct e as [| url | v | k r | k r]; cbn [step] in Hstep.
  - injection Hstep as <-. apply performSearch_exclusive. exact Hinv.
  - injection Hstep as <-. unfold loadFromUrl.
    destruct (truthy_field _); [|exact Hinv].
    apply performSearch_exclusive. exact Hinv.
  - injection Hstep as <-. exact Hinv.
  - destruct (nth_error (suspended a) k) as [[| ok]|]; try discriminate.
    destruct r as [ok | m]; injection Hstep as <-; [exact Hinv | reflexivity].
  - destruct (nth_error (suspended a) k) as [[| ok]|]; try discriminate.
    injection Hstep as <-. apply finish_after_body_exclusive.
Qed.

(** X9: the display states exclude one another: on a page that starts
    with at most one of loading indicator, results, empty state and error
    message shown (and the summary only with the results), every event
    leaves it so; in particular an error never shows beside results. *)
Theorem sections_stay_exclusive (a : SearchApp) (es : list Event)
    (a' : SearchApp) :
  exclusive (sections a) = true ->
  run a es = Some a' ->
  exclusive (sections a') = true.
Proof.
  intros Hinv Hrun.
  exact (@run_keeps host (fun x => exclusive (sections x) = true)
           (fun x e y => @step_exclusive x y e) es a a' Hinv Hrun).
Qed.

End Display.

(** X9 on the page with a search in flight whose response reports a
    failure. *)
Lemma sections_stay_exclusive_witness :
  exists a',
    run page_in_flight
      [SearchRequested; FetchSettled 0 (Response false);
       BodySettled 0 (Body response_failed)] = Some a'
    /\ exclusive (sections a') = true
    /\ errorMessage_hidden (sections a') = false.
Proof.
  eexists. split; [reflexivity|]. split; [|reflexivity].
  apply (@sections_stay_exclusive host page_in_flight
           [SearchRequested; FetchSettled 0 (Response false);
            BodySettled 0 (Body response_failed)]);
    reflexivity.
Defined.

(** ** Outcomes of a search *)

Lemma or_else_truthy (value : option jsstring) (fallback : jsstring) :
  truthy fallback = true -> truthy (or_else value fallback) = true.
Proof.
  intros Hf. unfold or_else, truthy_field.
  destruct value as [v|]; [|exact Hf].
  destruct (truthy v) eqn:Hv; [exact Hv | exact Hf].
Qed.

Section Outcomes.

Context {host : Host}.

Lemma displayResults_controls (data : SearchResponse) (a : SearchApp) :
  controls (displayResults data a) = controls a.
Proof.
  unfold displayResults.
  destruct (results data) as [|r rest]; [reflexivity|].
  rewrite forEach_result_appends.
  destruct (truthy_field (summary data)); reflexivity.
Qed.

(** X10: a failure that the service reports, by the status of the
    response or by [success: false] in its body, shows the error state
    alone, with the message of the body when it has a non-empty one and
    with a fixed text otherwise, so the message shown is never empty; the
    status comes first (a response that is not ok is a failure whatever
    its body says); nothing of the body is rendered and the share button
    is left as it was. *)
Theorem reported_failure_is_shown (ok : bool) (data : SearchResponse)
    (a : SearchApp) :
  ok = false \/ success data = false ->
  let a' := finish (try_after_body ok (Body data)) a in
  errorText (contents a')
  = or_else (error data) (if ok then text_unknown_error else text_search_failed)
  /\ truthy (errorText (contents a')) = true
  /\ sections a'
     = {| loadingSpinner_hidden := true; resultsContainer_hidden := true;
          summarySection_hidden := true; noResults_hidden := true;
          errorMessage_hidden := false |}
  /\ resultsList (contents a') = resultsList (contents a)
  /\ summaryContent (contents a') = summaryContent (contents a)
  /\ shareButton_hidden (controls a') = shareButton_hidden (controls a).
Proof.
  intros Hfail a'. unfold a', finish, try_catch_finally, try_after_body, bind.
  cbn. destruct ok; cbn.
  - destruct Hfail as [Hok | Hs]; [discriminate|]. rewrite Hs. cbn.
    repeat split. apply or_else_truthy. reflexivity.
  - repeat split. apply or_else_truthy. reflexivity.
Qed.

Lemma performSearch_shareButton (queryFromUrl : option jsstring)
    (a : SearchApp) :
  shareButton_hidden (controls (performSearch queryFromUrl a))
  = shareButton_hidden (controls a).
Proof.
  unfold performSearch.
  destruct (truthy (effective_query queryFromUrl a)); cbn; [|reflexivity].
  destruct (isSearching a); [reflexivity|].
  destruct (truthy_field queryFromUrl); reflexivity.
Qed.

Lemma finish_after_body_shareButton (ok : bool) (r : BodyResult)
    (a : SearchApp) :
  shareButton_hidden (controls (finish (try_after_body ok r) a))
  = match r with
    | Body data =>
        if ok && success data then false else shareButton_hidden (controls a)
    | BodyRejected _ => shareButton_hidden (controls a)
    end.
Proof.
  unfold finish, try_catch_finally, try_after_body, bind.
  destruct r as [data | m]; cbn; [|reflexivity].
  destruct ok; cbn; [|reflexivity].
  destruct (success data); cbn; reflexivity.
Qed.

(** X11: the share button is revealed by a successful response and by
    nothing else, and nothing hides it again: after an event it is shown
    exactly when it was shown before or the event is the arrival of the
    body of an ok response with [success: true]. *)
Theorem shareButton_revealed_by_success (a a' : SearchApp) (e : Event) :
  step a e = Some a' ->
  (shareButton_hidden (controls a') = false
   <-> shareButton_hidden (controls a) = false
       \/ exists k data,
            e = BodySettled k (Body data)
            /\ nth_error (suspended a) k = Some (AwaitingBody true)
            /\ success data = true).
Proof.
  intros Hstep. destruct e as [| url | v | k r | k r]; cbn [step] in Hstep.
  - injection Hstep as <-. rewrite performSearch_shareButton.
    split; [left; assumption|].
    intros [H | [k [d [He _]]]]; [exact H | discriminate He].
  - injection Hstep as <-. unfold loadFromUrl.
    destruct (truthy_field _); [rewrite performSearch_shareButton|]; cbn;
      (split; [left; assumption|]);
      intros [H | [k [d [He _]]]]; solve [exact H | discriminate He].
  - injection Hstep as <-. cbn.
    split; [left; assumption|].
    intros [H | [k [d [He _]]]]; [exact H | discriminate He].
  - destruct (nth_error (suspended a) k) as [[| ok]|]; try discriminate.
    destruct r as [ok | m]; injection Hstep as <-; cbn;
      (split; [left; assumption|]);
      intros [H | [k' [d [He _]]]]; solve [exact H | discriminate He].
  - destruct (nth_error (suspended a) k) as [[| ok]|] eqn:Hk;
      try discriminate.
    injection Hstep as <-. rewrite finish_after_body_shareButton. cbn.
    destruct r as [data | m].
    + destruct ok; cbn.
      * destruct (success data) eqn:Hs.
        -- split; [|reflexivity]. intros _. right.
           exists k, data. repeat split; assumption.
        -- split; [left; assumption|].
           intros [H | [k' [d [He [_ Hd]]]]]; [exact H|].
           injection He as <- <-. congruence.
      * split; [left; assumption|].
        intros [H | [k' [d [He [Hk' _]]]]]; [exact H|].
        injection He as <- <-. congruence.
    + split; [left; assumption|].
      intros [H | [k' [d [He _]]]]; [exact H | discriminate He].
Qed.

End Outcomes.

(** X10 at a response that is not ok although its body says success: the
    fixed text for a failed search is shown. *)
Lemma reported_failure_is_shown_witness :
  errorText (contents (finish (try_after_body false (Body response_one))
                         page_in_flight))
  = text_search_failed
  /\ resultsList (contents (finish (try_after_body false (Body response_one))
                              page_in_flight)) = [].
Proof.
  pose proof (@reported_failure_is_shown host false response_one page_in_flight
                (or_introl eq_refl)) as [Htext [_ [_ [Hlist _]]]].
  split; [exact Htext | exact Hlist].
Defined.

(** X11 on the page with a search in flight: the failure leaves the share
    button hidden, the success reveals it. *)
Lemma shareButton_revealed_by_success_witness :
  (exists a',
     step (set_suspended (fun _ => [AwaitingBody true]) page_in_flight)
       (BodySettled 0 (Body response_failed)) = Some a'
     /\ shareButton_hidden (controls a') = true)
  /\ (exists a',
        step (set_suspended (fun _ => [AwaitingBody true]) page_in_flight)
          (BodySettled 0 (Body response_one)) = Some a'
        /\ shareButton_hidden (controls a') = false).
Proof.
  split; eexists; (split; [reflexivity|]).
  - match goal with
    | |- shareButton_hidden (controls ?x) = true =>
        destruct (shareButton_hidden (controls x)) eqn:Hh; [reflexivity|];
        apply (@shareButton_revealed_by_success host
                 (set_suspended (fun _ => [AwaitingBody true]) page_in_flight)
                 x (BodySettled 0 (Body response_failed)) eq_refl) in Hh
    end.
    destruct Hh as [H | [k [d [He [_ Hs]]]]]; [discriminate H|].
    injection He as <- <-. discriminate Hs.
  - apply (@shareButton_revealed_by_success host
             (set_suspended (fun _ => [AwaitingBody true]) page_in_flight)
             _ (BodySettled 0 (Body response_one)) eq_refl).
    right. exists 0%nat, response_one. repeat split.
Defined.

(** ** Requests and history entries *)

Section Log.

Context {host : Host}.

Lemma performSearch_log (queryFromUrl : option jsstring) (a : SearchApp) :
  exists pushed,
    history (window (performSearch queryFromUrl a))
    = pushed ++ history (window a)
    /\ requests (performSearch queryFromUrl a)
       = map state_query pushed ++ requests a
    /\ Forall pushed_by_search pushed.
Proof.
  destruct (truthy (effective_query queryFromUrl a)) eqn:Hq.
  - destruct (isSearching a) eqn:Hs.
    + rewrite performSearch_dropped by assumption.
      exists []. repeat split. constructor.
    + destruct (performSearch_accepted queryFromUrl a Hq Hs)
        as [_ [_ [Hreq [Hw _]]]].
      rewrite Hreq, Hw. unfold updateUrl. rewrite Hq. cbn.
      eexists [_]. split; [reflexivity|]. split; [reflexivity|].
      constructor; [|constructor].
      assert (Hget : params_get q
                       (params_set q (effective_query queryFromUrl a)
                          (searchParams (location (window a))))
                     = Some (to_usv (effective_query queryFromUrl a)))
        by apply params_get_set.
      split; [exact Hq|]. split; [exact Hget|].
      intros Hwf. cbn [state_query] in Hwf.
      rewrite (to_usv_well_formed _ Hwf) in Hget. exact Hget.
  - rewrite performSearch_rejected by assumption.
    exists []. repeat split. constructor.
Qed.

Lemma step_log (a a' : SearchApp) (e : Event) :
  step a e = Some a' ->
  exists pushed,
    history (window a') = pushed ++ history (window a)
    /\ requests a' = map state_query pushed ++ requests a
    /\ Forall pushed_by_search pushed.
Proof.
  intros Hstep. destruct e as [| url | v | k r | k r]; cbn [step] in Hstep.
  - injection Hstep as <-. apply performSearch_log.
  - injection Hstep as <-. unfold loadFromUrl.
    destruct (truthy_field _) as [query|].
    + apply (performSearch_log (Some query)
               (set_window (fun w => {| location := url; history := history w |}) a)).
    + exists []. repeat split. constructor.
  - injection Hstep as <-. exists []. repeat split. constructor.
  - destruct (nth_error (suspended a) k) as [[| ok]|]; try discriminate.
    destruct r as [ok | m]; injection Hstep as <-.
    + exists []. repeat split. constructor.
    + destruct (finish_throw_same_session m (set_suspended (remove_at k) a))
        as [Hw [Hr _]].
      exists []. rewrite Hw, Hr. repeat split. constructor.
  - destruct (nth_error (suspended a) k) as [[| ok]|]; try discriminate.
    injection Hstep as <-.
    destruct (finish_after_body_same_session ok r
                (set_suspended (remove_at k) a)) as [Hw [Hr _]].
    exists []. rewrite Hw, Hr. repeat split. constructor.
Qed.

(** X12: requests and history entries go together.  Over any sequence of
    events the page pushes one history entry for every request it issues
    and none otherwise: the queries sent are, in order, the states of the
    entries pushed, each entry a non-empty query that its URL carries in
    [q] as [URLSearchParams] converts it (the query itself when it is well
    formed, U+FFFD for a lone surrogate).  In particular a request that
    failed is never sent again by the page itself. *)
Theorem requests_match_history (es : list Event) :
  forall a a',
    run a es = Some a' ->
    exists pushed,
      history (window a') = pushed ++ history (window a)
      /\ requests a' = map state_query pushed ++ requests a
      /\ Forall pushed_by_search pushed.
Proof.
  induction es as [|e rest IH]; intros a a' Hrun.
  - injection Hrun as <-. exists []. repeat split. constructor.
  - cbn [run] in Hrun. destruct (step a e) as [a1|] eqn:He; [|discriminate].
    destruct (step_log a e He) as [p1 [Hh1 [Hr1 Hp1]]].
    destruct (IH a1 a' Hrun) as [p2 [Hh2 [Hr2 Hp2]]].
    exists (p2 ++ p1). rewrite Hh2, Hh1, Hr2, Hr1, map_app, <- !app_assoc.
    repeat split. apply Forall_app. split; assumption.
Qed.

End Log.

(** X12 on the page without a query: a search for "shoes" fails and a
    second search is requested; two requests, two entries, each with
    "shoes" in [q]. *)
Lemma requests_match_history_witness :
  exists a' pushed,
    run (page (lit "shoes") [])
      [SearchRequested; FetchSettled 0 (FetchRejected (lit "Failed to fetch"));
       SearchRequested] = Some a'
    /\ history (window a') = pushed ++ []
    /\ requests a' = map state_query pushed ++ []
    /\ requests a' = [lit "shoes"; lit "shoes"]
    /\ Forall pushed_by_search pushed
    /\ map (fun h => params_get q (searchParams (entry_url h)))
         (history (window a'))
       = [Some (lit "shoes"); Some (lit "shoes")].
Proof.
  destruct (@requests_match_history host
              [SearchRequested;
               FetchSettled 0 (FetchRejected (lit "Failed to fetch"));
               SearchRequested]
              (page (lit "shoes") []) _ eq_refl) as [pushed [Hh [Hr Hp]]].
  eexists. exists pushed. split; [reflexivity|].
  split; [exact Hh|]. split; [exact Hr|]. split; [reflexivity|].
  split; [exact Hp | reflexivity].
Defined.

(** ** What the renderer shows *)

Lemma nth_error_mapi_from {A B} (f : A -> nat -> B) (l : list A) :
  forall i j,
    nth_error (mapi_from f i l) j
    = option_map (fun x => f x (i + j)%nat) (nth_error l j).
Proof.
  induction l as [|x r IH]; intros i [|j]; cbn [mapi_from nth_error option_map];
    try reflexivity.
  - rewrite Nat.add_0_r. reflexivity.
  - rewrite IH. replace (S i + j)%nat with (i + S j)%nat by lia. reflexivity.
Qed.

Lemma mapi_from_length {A B} (f : A -> nat -> B) (l : list A) :
  forall i, List.length (mapi_from f i l) = List.length l.
Proof.
  induction l as [|x r IH]; intros i; [reflexivity|].
  cbn [mapi_from List.length]. rewrite IH. reflexivity.
Qed.

Section Rendering.

Context {host : Host}.

Lemma displayResults_contents (data : SearchResponse) (a : SearchApp) :
  contents (displayResults data a)
  = match results data with
    | [] => contents a
    | _ :: _ =>
        {| errorText := errorText (contents a);
           resultsCount := digits (Z.of_nat (List.length (results data)));
           resultsList := result_elements 0 (results data);
           summaryContent :=
             match truthy_field (summary data) with
             | Some s => formatSummary s
             | None => summaryContent (contents a)
             end |}
    end.
Proof.
  unfold displayResults.
  destruct (results data) as [|r rest]; [reflexivity|].
  rewrite forEach_result_appends.
  destruct (truthy_field (summary data)); reflexivity.
Qed.

(** X13: a response with results is rendered in the order of the
    response, one element for each result and no other: the child at
    index [i] is the element of the result at index [i]; the count shown
    is the number of children; the summary section is shown exactly when
    the response has a non-empty summary, and then holds its markup.  A
    response without results shows the empty state only, also when it has
    a summary, and leaves the contents of the page as they were. *)
Theorem results_rendered_in_order (data : SearchResponse) (a : SearchApp) :
  let a' := displayResults data a in
  (results data <> [] ->
   (forall i,
      nth_error (resultsList (contents a')) i
      = option_map (fun r => createResultElement r (i + 1))
          (nth_error (results data) i))
   /\ List.length (resultsList (contents a')) = List.length (results data)
   /\ resultsCount (contents a')
      = digits (Z.of_nat (List.length (resultsList (contents a'))))
   /\ resultsContainer_hidden (sections a') = false
   /\ match truthy_field (summary data) with
      | Some s =>
          summarySection_hidden (sections a') = false
          /\ summaryContent (contents a') = formatSummary s
      | None =>
          summarySection_hidden (sections a') = true
          /\ summaryContent (contents a') = summaryContent (contents a)
      end)
  /\ (results data = [] ->
      noResults_hidden (sections a') = false
      /\ summarySection_hidden (sections a') = true
      /\ resultsContainer_hidden (sections a') = true
      /\ contents a' = contents a).
Proof.
  intros a'. unfold a'.
  rewrite displayResults_contents, displayResults_sections.
  split; intros Hres.
  - destruct (results data) as [|r rest] eqn:Hr; [congruence|].
    cbn [resultsList resultsCount summaryContent resultsContainer_hidden
         summarySection_hidden].
    unfold result_elements. rewrite mapi_from_length.
    split; [|split; [reflexivity|split; [reflexivity|split; [reflexivity|]]]].
    + intros i. rewrite nth_error_mapi_from. reflexivity.
    + destruct (truthy_field (summary data)); split; reflexivity.
  - rewrite Hres. repeat split.
Qed.

End Rendering.

(** X13 at the response with one result and a summary. *)
Lemma results_rendered_in_order_witness :
  List.length (resultsList (contents (displayResults response_one page_in_flight)))
  = 1%nat
  /\ resultsCount (contents (displayResults response_one page_in_flight))
     = lit "1"
  /\ summaryContent (contents (displayResults response_one page_in_flight))
     = lit "<p>Fast &amp; cheap</p>"
  /\ contents (displayResults response_failed page_in_flight)
     = contents page_in_flight.
Proof.
  pose proof (@results_rendered_in_order host response_one page_in_flight)
    as [Hsome _].
  destruct Hsome as [_ [Hlen [Hcount [_ Hsum]]]]; [discriminate|].
  cbn [truthy_field summary response_one truthy lit map list_ascii_of_string]
    in Hsum.
  destruct Hsum as [_ Hsum].
  split; [exact Hlen|]. split; [rewrite Hcount, Hlen; reflexivity|].
  split; [rewrite Hsum; reflexivity|].
  apply (proj2 (@results_rendered_in_order host response_failed page_in_flight)).
  reflexivity.
Defined.

(** ** A blank summary *)

Lemma split_go_forallb (p : N -> bool) (sep s : jsstring) :
  forallb p s = true ->
  forall skip cur,
    forallb p cur = true ->
    Forall (fun piece => forallb p piece = true) (split_go sep s skip cur).
Proof.
  induction s as [|c r IH]; intros Hs skip cur Hcur.
  - cbn [split_go]. constructor; [apply forallb_rev; exact Hcur | constructor].
  - cbn [forallb] in Hs. apply andb_prop in Hs. destruct Hs as [Hc Hr].
    cbn [split_go]. destruct skip as [|k]; [|apply IH; assumption].
    destruct (starts_with sep (c :: r)).
    + constructor; [apply forallb_rev; exact Hcur|].
      apply IH; [exact Hr | reflexivity].
    + apply IH; [exact Hr|]. cbn [forallb]. rewrite Hc, Hcur. reflexivity.
Qed.

Lemma trim_blank (s : jsstring) : forallb is_space s = true -> trim s = [].
Proof.
  intros H. unfold trim, trimEnd. rewrite (@trimStart_blank s H). reflexivity.
Qed.

Lemma formatSummary_blank (summary : jsstring) :
  forallb is_space summary = true -> formatSummary summary = [].
Proof.
  intros H. rewrite formatSummary_chars. unfold summary_paragraphs, split.
  assert (Hpieces := @split_go_forallb is_space paragraph_sep summary H
                       0%nat [] eq_refl).
  induction Hpieces as [|piece rest Hp _ IH]; [reflexivity|].
  cbn [filter]. rewrite (@trim_blank piece Hp). cbn [truthy]. exact IH.
Qed.

(** X14: a summary that holds white space only gives no markup at all;
    yet when it is not the empty string the renderer shows the summary
    section for it, empty, above the results. *)
Theorem blank_summary_shows_empty_section {host : Host}
    (data : SearchResponse) (a : SearchApp) (s : jsstring) :
  forallb is_space s = true ->
  formatSummary s = []
  /\ (summary data = Some s -> s <> [] -> results data <> [] ->
      summarySection_hidden (sections (displayResults data a)) = false
      /\ summaryContent (contents (displayResults data a)) = []).
Proof.
  intros Hblank. split; [apply formatSummary_blank; exact Hblank|].
  intros Hsum Hne Hres.
  rewrite displayResults_sections, displayResults_contents, Hsum.
  destruct (results data) as [|r rest]; [congruence|].
  assert (Htruthy : truthy_field (Some s) = Some s).
  { destruct s as [|c s']; [congruence | reflexivity]. }
  rewrite Htruthy. cbn [summarySection_hidden summaryContent].
  split; [reflexivity|]. apply formatSummary_blank. exact Hblank.
Qed.

(** X14 at a summary of two spaces and a line feed. *)
Lemma blank_summary_shows_empty_section_witness :
  let data :=
    {| success := true; results := results response_one;
       summary := Some [space; space; newline]; error := None |} in
  formatSummary [space; space; newline] = []
  /\ summarySection_hidden (sections (displayResults data page_in_flight))
     = false
  /\ summaryContent (contents (displayResults data page_in_flight)) = [].
Proof.
  intros data.
  destruct (@blank_summary_shows_empty_section host data page_in_flight
              [space; space; newline] eq_refl) as [Hfmt Hshown].
  split; [exact Hfmt|].
  apply Hshown; [reflexivity | discriminate | discriminate].
Defined.

(** * The Share Controller and the utility [debounce] *)

Import Share Utils ExtraExamples.

Lemma share_link_built (query : jsstring) (w : Window) :
  truthy query = true -> is_share_link (getShareableUrl query w).
Proof.
  intros Hq. exists (to_usv query). repeat split.
  rewrite to_usv_truthy. exact Hq.
Qed.

Lemma Forall_remove_at {A} (P : A -> Prop) (k : nat) (l : list A) :
  Forall P l -> Forall P (remove_at k l).
Proof.
  intros H. unfold remove_at. rewrite Forall_forall in H.
  apply Forall_forall. intros x Hx. apply H.
  apply in_app_or in Hx. destruct Hx as [Hx | Hx].
  - rewrite <- (firstn_skipn k l). apply in_or_app. left. exact Hx.
  - rewrite <- (firstn_skipn (S k) l). apply in_or_app. right. exact Hx.
Qed.

Lemma fallback_kept (p0 p : SharePage) (u : URL) (exec : ExecOutcome) :
  is_share_link u -> share_kept p0 p ->
  share_kept p0 (fallbackCopyToClipboard u exec p).
Proof.
  intros Hu [Hta [Hnote [Hw Hclip]]]. unfold share_kept, fallbackCopyToClipboard.
  destruct exec; cbn; rewrite removelast_last;
    (split; [exact Hta|]); (split; [try (intros _; lia); exact Hnote|]);
    (split; [exact Hw|]); try exact Hclip.
  right. exists u. split; [reflexivity | exact Hu].
Qed.

Lemma share_step_kept (p0 p p' : SharePage) (e : ShareEvent) :
  share_kept p0 p -> share_step p e = Some p' -> share_kept p0 p'.
Proof.
  intros Hinv Hstep.
  destruct e as [api exec | k written exec | | a]; cbn [share_step] in Hstep.
  - injection Hstep as <-. unfold shareCurrentSearch.
    destruct (truthy (trim (searchInput_value (controls (app p))))) eqn:Hq;
      cbn [negb]; [|exact Hinv].
    pose proof (@share_link_built _ (window (app p)) Hq) as Hlink.
    destruct api; [|apply fallback_kept; assumption].
    destruct Hinv as [Hta [Hnote [Hw Hclip]]].
    repeat split; try assumption. cbn.
    apply Forall_app. split; [exact Hw | constructor; [exact Hlink | constructor]].
  - unfold write_settles in Hstep.
    destruct (nth_error (writing p) k) as [u|] eqn:Hk; [|discriminate].
    injection Hstep as <-.
    assert (Hu : is_share_link u).
    { destruct Hinv as [_ [_ [Hw _]]]. rewrite Forall_forall in Hw.
      apply Hw. exact (nth_error_In _ _ Hk). }
    assert (Hinv' : share_kept p0 (set_writing (remove_at k) p)).
    { destruct Hinv as [Hta [Hnote [Hw Hclip]]].
      repeat split; try assumption. cbn. apply Forall_remove_at. exact Hw. }
    destruct written; [|apply fallback_kept; assumption].
    destruct Hinv' as [Hta [Hnote [Hw Hclip]]].
    repeat split; try assumption; cbn; [lia|].
    right. exists u. split; [reflexivity | exact Hu].
  - unfold hide_timer_fires in Hstep.
    destruct (hide_timers p) as [|n] eqn:Hn; [discriminate|].
    injection Hstep as <-.
    destruct Hinv as [Hta [Hnote [Hw Hclip]]].
    repeat split; try assumption. cbn. discriminate.
  - injection Hstep as <-. exact Hinv.
Qed.

(** X15: whatever is clicked and however the copies end, the Share
    Controller leaves no helper text area in the document; a notification
    that is shown always has a timer pending that will hide it; and what
    the page puts on the clipboard is a link with [q], a non-empty query,
    as its only parameter and without fragment. *)
Theorem share_controller_keeps (es : list ShareEvent) :
  forall p0 p,
    writing p0 = [] ->
    (shareNotification_hidden p0 = false -> (0 < hide_timers p0)%nat) ->
    share_run p0 es = Some p ->
    textareas p = textareas p0
    /\ (shareNotification_hidden p = false -> (0 < hide_timers p)%nat)
    /\ (clipboard p = clipboard p0
        \/ exists u, clipboard p = Some u /\ is_share_link u).
Proof.
  intros p0 p Hw0 Hnote0 Hrun.
  assert (Hgen : forall es q0 q1,
            share_kept p0 q0 -> share_run q0 es = Some q1 -> share_kept p0 q1).
  { clear. intros es. induction es as [|e rest IH]; intros q0 q1 Hinv Hrun.
    - injection Hrun as <-. exact Hinv.
    - cbn [share_run] in Hrun.
      destruct (share_step q0 e) as [q|] eqn:He; [|discriminate].
      apply (IH q q1); [|exact Hrun]. exact (@share_step_kept p0 q0 q e Hinv He). }
  assert (Hinit : share_kept p0 p0).
  { repeat split; [exact Hnote0 | rewrite Hw0; constructor | left; reflexivity]. }
  destruct (Hgen es p0 p Hinit Hrun) as [Hta [Hnote [_ Hclip]]].
  repeat split; assumption.
Qed.

(** X15 on the page with " shoes " in the field: the clipboard API is
    missing and [execCommand] copies; then the notification's timer
    fires. *)
Lemma share_controller_keeps_witness :
  exists p,
    share_run share_page [ShareClicked false ExecCopied; HideTimerFired]
    = Some p
    /\ textareas p = []
    /\ clipboard p = Some shoes_link
    /\ shareNotification_hidden p = true.
Proof.
  eexists. split; [reflexivity|].
  destruct (@share_controller_keeps
              [ShareClicked false ExecCopied; HideTimerFired]
              share_page _ eq_refl ltac:(discriminate) eq_refl)
    as [Hta _].
  split; [exact Hta|]. split; reflexivity.
Defined.

(** X16: the notification confirms every copy, but not only copies.  An
    event that changes what the clipboard holds shows the notification
    and sets a timer for it; the search state is touched by no event of
    the Share Controller; a click with a blank field does nothing at all.
    (A fallback in which [execCommand] returns [false] shows the
    notification although nothing was copied.) *)
Theorem copy_is_confirmed (p p' : SharePage) (e : ShareEvent) :
  share_step p e = Some p' ->
  (clipboard p' <> clipboard p ->
   shareNotification_hidden p' = false
   /\ hide_timers p' = S (hide_timers p))
  /\ ((forall a, e <> SearchAppChanged a) -> app p' = app p)
  /\ (forall api exec,
        e = ShareClicked api exec ->
        truthy (trim (searchInput_value (controls (app p)))) = false ->
        p' = p).
Proof.
  intros Hstep. split; [|split].
  - intros Hclip.
    destruct e as [api exec | k written exec | | a]; cbn [share_step] in Hstep.
    + injection Hstep as <-. revert Hclip. unfold shareCurrentSearch.
      destruct (truthy (trim (searchInput_value (controls (app p)))));
        cbn [negb]; [|congruence].
      destruct api; [cbn; congruence|].
      unfold fallbackCopyToClipboard. destruct exec; cbn; intros Hclip;
        solve [split; reflexivity | congruence].
    + unfold write_settles in Hstep.
      destruct (nth_error (writing p) k) as [u|]; [|discriminate].
      injection Hstep as <-. revert Hclip.
      destruct written; [cbn; intros _; split; reflexivity|].
      unfold fallbackCopyToClipboard. destruct exec; cbn; intros Hclip;
        solve [split; reflexivity | congruence].
    + unfold hide_timer_fires in Hstep.
      destruct (hide_timers p); [discriminate|].
      injection Hstep as <-. cbn in Hclip. congruence.
    + injection Hstep as <-. cbn in Hclip. congruence.
  - intros Hne.
    destruct e as [api exec | k written exec | | a]; cbn [share_step] in Hstep.
    + injection Hstep as <-. unfold shareCurrentSearch.
      destruct (truthy (trim (searchInput_value (controls (app p)))));
        cbn [negb]; [|reflexivity].
      destruct api; [reflexivity|].
      unfold fallbackCopyToClipboard. destruct exec; reflexivity.
    + unfold write_settles in Hstep.
      destruct (nth_error (writing p) k) as [u|]; [|discriminate].
      injection Hstep as <-.
      destruct written; [reflexivity|].
      unfold fallbackCopyToClipboard. destruct exec; reflexivity.
    + unfold hide_timer_fires in Hstep.
      destruct (hide_timers p); [discriminate|].
      injection Hstep as <-. reflexivity.
    + exfalso. exact (Hne a eq_refl).
  - intros api exec -> Hblank. cbn [share_step] in Hstep.
    injection Hstep as <-. unfold shareCurrentSearch. rewrite Hblank.
    reflexivity.
Qed.

(** X16 on the page with " shoes " in the field: the write succeeds and
    is confirmed; and in the fallback [execCommand] returns [false], so
    that the notification is shown over an empty clipboard. *)
Lemma copy_is_confirmed_witness :
  (exists p',
     share_run share_page [ShareClicked true ExecThrew; WriteSettled 0 true ExecThrew]
     = Some p'
     /\ clipboard p' = Some shoes_link
     /\ shareNotification_hidden p' = false)
  /\ (exists p',
        share_step share_page (ShareClicked false ExecRefused) = Some p'
        /\ clipboard p' = None
        /\ shareNotification_hidden p' = false).
Proof.
  split; eexists; (split; [reflexivity|]).
  - split; [reflexivity|].
    apply (proj1 (@copy_is_confirmed
                    (shareCurrentSearch true ExecThrew share_page) _
                    (WriteSettled 0 true ExecThrew) eq_refl)).
    discriminate.
  - split; reflexivity.
Defined.

(** ** Debouncing *)

Section DebounceFacts.

Variable Args : Type.

Lemma clearTimeout_agrees (d : Debounced Args) (slot : option Args) :
  agrees d slot -> clearTimeout (timeout d) (timers d) = [].
Proof.
  destruct slot as [a|]; cbn [agrees].
  - intros [h [-> ->]]. cbn. rewrite Nat.eqb_refl. reflexivity.
  - intros ->. destruct (timeout d); reflexivity.
Qed.

Lemma debounce_step_agrees (d d' : Debounced Args) (e : DebounceEvent Args)
    (slot : option Args) (out : list Args) :
  agrees d slot -> calls d = out ->
  debounce_step d e = Some d' ->
  agrees d' (fst (slot_step (slot, out) e))
  /\ calls d' = snd (slot_step (slot, out) e).
Proof.
  intros Hag Hcalls Hstep. destruct e as [a | id]; cbn [debounce_step] in Hstep.
  - injection Hstep as <-. unfold executedFunction.
    rewrite (@clearTimeout_agrees d slot Hag). cbn.
    split; [|exact Hcalls]. eexists. split; reflexivity.
  - destruct slot as [a|]; cbn [agrees] in Hag.
    + destruct Hag as [h [Ht Hto]]. rewrite Ht in Hstep. cbn in Hstep.
      destruct (Nat.eqb_spec h id) as [-> | Hne]; [|discriminate].
      injection Hstep as <-. cbn.
      split; [|rewrite Hcalls; reflexivity].
      destruct (timeout d); reflexivity.
    + rewrite Hag in Hstep. discriminate.
Qed.

Lemma debounce_run_agrees (es : list (DebounceEvent Args)) :
  forall d d' slot out,
    agrees d slot -> calls d = out ->
    debounce_run d es = Some d' ->
    agrees d' (fst (fold_left slot_step es (slot, out)))
    /\ calls d' = snd (fold_left slot_step es (slot, out)).
Proof.
  induction es as [|e rest IH]; intros d d' slot out Hag Hcalls Hrun.
  - injection Hrun as <-. split; assumption.
  - cbn [debounce_run] in Hrun.
    destruct (debounce_step d e) as [d1|] eqn:He; [|discriminate].
    destruct (@debounce_step_agrees d d1 e slot out Hag Hcalls He)
      as [Hag1 Hcalls1].
    cbn [fold_left].
    destruct (slot_step (slot, out) e) as [slot1 out1] eqn:Hs.
    apply (IH d1 d' slot1 out1); assumption.
Qed.

(** X17: a debounced function is a buffer of one place.  Whatever the
    order of calls and firing timers, at most one timer is pending, the
    one of the latest call; [func] is called once for every firing, with
    the arguments of the latest call before it, and a call followed by
    another call before its timer fires never reaches [func]. *)
Theorem debounce_is_one_slot (first_handle : nat)
    (es : list (DebounceEvent Args)) (d : Debounced Args) :
  debounce_run (debounce Args first_handle) es = Some d ->
  calls d = snd (slot_run es)
  /\ map (@later_args Args) (timers d)
     = match fst (slot_run es) with
       | Some a => [a]
       | None => []
       end
  /\ (List.length (timers d) <= 1)%nat.
Proof.
  intros Hrun.
  destruct (@debounce_run_agrees es (debounce Args first_handle) d None []
              eq_refl eq_refl Hrun) as [Hag Hcalls].
  fold (slot_run es) in Hag, Hcalls.
  split; [exact Hcalls|].
  destruct (fst (slot_run es)) as [a|]; cbn [agrees] in Hag.
  - destruct Hag as [h [-> _]]. split; [reflexivity | apply Nat.le_refl].
  - rewrite Hag. split; [reflexivity | apply Nat.le_0_l].
Qed.

End DebounceFacts.

(** X17 at three calls in a row, the firing of the one pending timer, and
    one more call: [func] has seen the third call only, and the fifth
    waits. *)
Lemma debounce_is_one_slot_witness :
  exists d,
    debounce_run (debounce nat 1)
      [Invoked 10%nat; Invoked 20%nat; Invoked 30%nat; TimerFired 3;
       Invoked 40%nat] = Some d
    /\ calls d = [30%nat]
    /\ map (@later_args nat) (timers d) = [40%nat].
Proof.
  eexists. split; [reflexivity|].
  destruct (@debounce_is_one_slot nat 1
              [Invoked 10%nat; Invoked 20%nat; Invoked 30%nat; TimerFired 3;
               Invoked 40%nat] _ eq_refl) as [Hcalls [Htimers _]].
  split; [exact Hcalls | exact Htimers].
Defined.
